(** * Geometry and rendering core of the whiteboard: bounds engine,
      transform-handle hit testing, raster cache, clipping-mask compositor
      and the crop / clipping-mask actions.

    The development is a shallow embedding of
      - packages/excalidraw/element/bounds.ts          (module [BoundsTs]),
      - packages/excalidraw/element/resizeTest.ts      (module [ResizeTestTs]),
      - packages/excalidraw/renderer/renderElement.ts  (module [RenderElementTs]),
      - packages/excalidraw/actions/actionGroup.tsx    (module [ActionGroupTsx]).

    Numbers.  A JavaScript [number] is idealised as a real number: the
    arithmetic of the source is read as exact.  The places where the source
    works with a non-finite number are written out one by one:
      - the [Infinity] / [-Infinity] seeds of the min/max reductions are the
        box [InfBox] of [Bounds] (the unit of the union of boxes);
      - a division by zero yields a number that fails every range test, and
        the model takes that branch explicitly.
    Where rounding decides more than the last digits of a result, the
    function is embedded a second time on IEEE 754 doubles (module
    [Float64]), and evaluated there.
    Integers that the source only counts or compares ([version], the clipping
    mask counters) are [Z].

    Objects.  The caches of the source are [WeakMap]s keyed by the element
    object; an element therefore carries its object identity [obj] next to
    its data, and the caches are finite maps from object identities. *)

From Stdlib Require Import Reals Lra Lia ZArith List Permutation.
From Stdlib Require Floats.
From stdpp Require Import base decidable option list gmap strings.

Local Open Scope R_scope.

(** ** JavaScript values *)

Abbreviation number := R (only parsing).

#[global] Instance R_eq_dec : EqDecision R := Req_dec_T.
#[global] Instance Rle_decision (a b : R) : Decision (a <= b) := Rle_dec a b.
#[global] Instance Rlt_decision (a b : R) : Decision (a < b) := Rlt_dec a b.
#[global] Instance Rge_decision (a b : R) : Decision (a >= b) := Rge_dec a b.
#[global] Instance Rgt_decision (a b : R) : Decision (a > b) := Rgt_dec a b.

(** Truthiness of the values the source tests in a condition. *)
Definition truthy_num (r : R) : bool := bool_decide (r <> 0).
Definition truthy_int (z : Z) : bool := bool_decide (z <> 0%Z).
Definition truthy_str (s : string) : bool := bool_decide (s <> ""%string).

(** [Math.min] / [Math.max] on finite numbers. *)
Definition Math_min (a b : R) : R := if decide (a <= b) then a else b.
Definition Math_max (a b : R) : R := if decide (a <= b) then b else a.
Definition Math_min4 (a b c d : R) : R := Math_min (Math_min (Math_min a b) c) d.
Definition Math_max4 (a b c d : R) : R := Math_max (Math_max (Math_max a b) c) d.

(** [Math.round]: the nearest integer, a half going up. *)
Definition Math_round (r : R) : Z := Int_part (r + / 2).

(** [Math.sign] *)
Definition Math_sign (r : R) : Z :=
  if decide (r < 0) then (-1)%Z else if decide (r = 0) then 0%Z else 1%Z.

(** A call either returns or throws. *)
Inductive result (A : Type) : Type :=
| Ok (a : A)
| Throw (msg : string).
Arguments Ok {A} a.
Arguments Throw {A} msg.

#[global] Instance result_ret : MRet result := fun A a => Ok a.
#[global] Instance result_bind : MBind result := fun A B k r =>
  match r with
  | Ok a => k a
  | Throw m => Throw m
  end.

Definition is_Ok {A} (r : result A) : bool :=
  match r with Ok _ => true | Throw _ => false end.

(** ** The element record

    [element/types.ts] is not part of the sources at hand; the record lists
    the fields that the embedded functions read or write, under the names the
    sources use.  [obj] is the identity of the JavaScript object.  A property
    that the sources probe with [in] is an [option]: [None] when the key is
    absent ([cropProperties] also when it holds [undefined]).  The
    clipping-mask properties are read through truthiness only, so an absent
    one is its falsy value. *)

Definition Point : Type := number * number.

Record CropProperties : Type := mkCrop {
  crop_x : number;
  crop_y : number;
  crop_width : number;
  crop_height : number;
}.

Module Element.
Record t : Type := mk {
  obj : positive;
  id : string;
  type : string;
  x : number;
  y : number;
  width : number;
  height : number;
  angle : number;
  version : Z;
  index : string;
  opacity : number;
  strokeWidth : number;
  groupIds : list string;
  frameId : option string;
  points : list Point;
  containerId : option string;
  isMakeClippingMask : bool;
  clippingMaskId : string;
  cmGroupLength : Z;
  cmeIndex : Z;
  akhonRenderKoraUchit : option bool;
  isRenderCropWindow : option bool;
  isCroppedImage : option bool;
  cropProperties : option CropProperties;
}.

(** [newElementWith(element, {groupIds})]: a copy, which is a new object. *)
Definition with_groupIds (o : positive) (g : list string) (e : t) : t :=
  mk o (id e) (type e) (x e) (y e) (width e) (height e) (angle e)
     (version e) (index e) (opacity e) (strokeWidth e) g (frameId e)
     (points e) (containerId e) (isMakeClippingMask e) (clippingMaskId e)
     (cmGroupLength e) (cmeIndex e) (akhonRenderKoraUchit e)
     (isRenderCropWindow e) (isCroppedImage e) (cropProperties e).

(** [Object.assign(element, {isMakeClippingMask, clippingMaskId,
    cmGroupLength, cmeIndex})]: the same object, four properties set. *)
Definition assign_mask (m : bool) (mid : string) (len idx : Z) (e : t) : t :=
  mk (obj e) (id e) (type e) (x e) (y e) (width e) (height e) (angle e)
     (version e) (index e) (opacity e) (strokeWidth e) (groupIds e)
     (frameId e) (points e) (containerId e) m mid len idx
     (akhonRenderKoraUchit e) (isRenderCropWindow e) (isCroppedImage e)
     (cropProperties e).

(** [Object.assign(element, {akhonRenderKoraUchit, isRenderCropWindow,
    isCroppedImage, cropProperties})]. *)
Definition assign_crop (a w c : bool) (p : CropProperties) (e : t) : t :=
  mk (obj e) (id e) (type e) (x e) (y e) (width e) (height e) (angle e)
     (version e) (index e) (opacity e) (strokeWidth e) (groupIds e)
     (frameId e) (points e) (containerId e) (isMakeClippingMask e)
     (clippingMaskId e) (cmGroupLength e) (cmeIndex e)
     (Some a) (Some w) (Some c) (Some p).

(** A plain element of the given type and box, every other field at the
    value [newElement] and [restore] give it. *)
Definition plain (o : positive) (i ty : string) (x0 y0 w h a : number) : t :=
  mk o i ty x0 y0 w h a 1%Z "a0" 100 1 [] None [] None
     false "" 0%Z 0%Z None None None None.

Definition with_version (v : Z) (e : t) : t :=
  mk (obj e) (id e) (type e) (x e) (y e) (width e) (height e) (angle e)
     v (index e) (opacity e) (strokeWidth e) (groupIds e)
     (frameId e) (points e) (containerId e) (isMakeClippingMask e)
     (clippingMaskId e) (cmGroupLength e) (cmeIndex e)
     (akhonRenderKoraUchit e) (isRenderCropWindow e) (isCroppedImage e)
     (cropProperties e).

Definition with_points (ps : list Point) (e : t) : t :=
  mk (obj e) (id e) (type e) (x e) (y e) (width e) (height e) (angle e)
     (version e) (index e) (opacity e) (strokeWidth e) (groupIds e)
     (frameId e) (ps) (containerId e) (isMakeClippingMask e)
     (clippingMaskId e) (cmGroupLength e) (cmeIndex e)
     (akhonRenderKoraUchit e) (isRenderCropWindow e) (isCroppedImage e)
     (cropProperties e).
End Element.

Abbreviation ExcalidrawElement := Element.t.

(** The lookup [id -> element] handed to the geometry functions. *)
Abbreviation ElementsMap := (gmap string Element.t).

(** ** element/typeChecks.ts *)

(** Modelled from the spec: [typeChecks.ts] is missing; a freehand stroke is
    the element whose [type] discriminator is [freedraw]. *)
Definition isFreeDrawElement (e : ExcalidrawElement) : bool :=
  bool_decide (Element.type e = "freedraw"%string).

(** Modelled from the spec: [typeChecks.ts] is missing; an arrow is the
    element whose [type] discriminator is [arrow]. *)
Definition isArrowElement (e : ExcalidrawElement) : bool :=
  bool_decide (Element.type e = "arrow"%string).

(** Modelled from the spec: [typeChecks.ts] is missing; a linear element is
    a line or an arrow. *)
Definition isLinearElement (e : ExcalidrawElement) : bool :=
  bool_decide (Element.type e = "arrow"%string)
  || bool_decide (Element.type e = "line"%string).

(** Modelled from the spec: [typeChecks.ts] is missing; a text element is the
    element whose [type] discriminator is [text]. *)
Definition isTextElement (e : ExcalidrawElement) : bool :=
  bool_decide (Element.type e = "text"%string).

(** Modelled from the spec: [typeChecks.ts] is missing; a label is a text
    element bound to a container. *)
Definition isBoundToContainer (e : ExcalidrawElement) : bool :=
  isTextElement e && bool_decide (is_Some (Element.containerId e)).

(** * packages/excalidraw/element/bounds.ts *)

Module BoundsTs.

(** [Bounds = readonly [minX, minY, maxX, maxY]].  [InfBox] is the array
    [[Infinity, Infinity, -Infinity, -Infinity]] that the reductions start
    from: every reduction of the file updates the four components together
    and with finite numbers, so a box is either all finite or still the
    seed. *)
Inductive Bounds : Type :=
| Box (minX minY maxX maxY : number)
| InfBox.

(** One round of
      [minX = Math.min(minX, x1); minY = Math.min(minY, y1);
       maxX = Math.max(maxX, x2); maxY = Math.max(maxY, y2)]
    with [Math.min(Infinity, v) = v], [Math.min(v, Infinity) = v] and the
    same for [Math.max] and [-Infinity]. *)
Definition accumulate (acc b : Bounds) : Bounds :=
  match acc, b with
  | InfBox, _ => b
  | _, InfBox => acc
  | Box minX minY maxX maxY, Box x1 y1 x2 y2 =>
      Box (Math_min minX x1) (Math_min minY y1)
          (Math_max maxX x2) (Math_max maxY y2)
  end.

(** [[minX + dx, minY + dy, maxX + dx, maxY + dy]]; [Infinity + d] stays
    [Infinity]. *)
Definition translate (dx dy : number) (b : Bounds) : Bounds :=
  match b with
  | Box minX minY maxX maxY => Box (minX + dx) (minY + dy) (maxX + dx) (maxY + dy)
  | InfBox => InfBox
  end.

(** The six numbers [[x1, y1, x2, y2, cx, cy]]. *)
Definition Coords : Type := number * number * number * number * number * number.

(** ** roughjs drawables, as far as bounds.ts looks into them *)
Record Op : Type := mkOp { op : string; data : list number }.
Record OpSet : Type := mkOpSet { set_type : string; ops : list Op }.
(** [sets] of a generated drawable is never empty: [sets[0]] is [set0]. *)
Record Drawable : Type := mkDrawable { set0 : OpSet; sets_tail : list OpSet }.
Definition sets (d : Drawable) : list OpSet := set0 d :: sets_tail d.

(** [data[i]] *)
Definition at_ (d : list number) (i : nat) : number := nth i d 0.

(** ** Collaborators of bounds.ts that are not part of the sources at hand *)

(** Modelled from the spec: [math.ts] is missing; [rotate(x, y, cx, cy,
    angle)] rotates the point [(x, y)] about the centre [(cx, cy)] by [angle]
    radians. *)
Definition rotate (x y cx cy angle : number) : Point :=
  ((x - cx) * cos angle - (y - cy) * sin angle + cx,
   (x - cx) * sin angle + (y - cy) * cos angle + cy).

(** [Math.hypot] *)
Definition Math_hypot (a b : number) : number := sqrt (a * a + b * b).

(** Modelled from the spec: [utils.ts] is missing; [arrayToMap] builds the
    lookup [id -> element] of a list of elements, a later element replacing an
    earlier one with the same id. *)
Definition arrayToMap (elements : list ExcalidrawElement) : ElementsMap :=
  foldl (fun acc element => <[Element.id element := element]> acc) ∅ elements.

(** [LinearElementEditor], [textElement.ts] and the shape cache / generator:
    taken as given. *)
Class Collaborators : Type := {
  (** [LinearElementEditor.getElementAbsoluteCoords] *)
  LinearElementEditor_getElementAbsoluteCoords :
    ExcalidrawElement -> ElementsMap -> bool -> Coords;
  (** [LinearElementEditor.getBoundTextElementPosition], [{x, y}] *)
  LinearElementEditor_getBoundTextElementPosition :
    ExcalidrawElement -> ExcalidrawElement -> ElementsMap -> Point;
  (** [LinearElementEditor.getMinMaxXYWithBoundText], first four entries *)
  LinearElementEditor_getMinMaxXYWithBoundText :
    ExcalidrawElement -> ElementsMap -> Bounds -> ExcalidrawElement -> Bounds;
  getBoundTextElement : ExcalidrawElement -> ElementsMap -> option ExcalidrawElement;
  getContainerElement : ExcalidrawElement -> ElementsMap -> option ExcalidrawElement;
  (** [ShapeCache.get(element)?.[0] ?? generateLinearElementShape(element)] *)
  linearElementShape : ExcalidrawElement -> Drawable;
}.

(** ** Cubic bezier bound *)

Definition getCurvePathOps (shape : Drawable) : list Op :=
  match List.find (fun set => bool_decide (set_type set = "path"%string)) (sets shape) with
  | Some set => ops set
  | None => ops (set0 shape)
  end.

Definition getBezierValueForT (t p0 p1 p2 p3 : number) : number :=
  let oneMinusT := 1 - t in
  oneMinusT ^ 3 * p0
  + 3 * oneMinusT ^ 2 * t * p1
  + 3 * oneMinusT * t ^ 2 * p2
  + t ^ 3 * p3.

(** [MaybeQuadraticSolution = [number | null, number | null] | false] *)
Definition MaybeQuadraticSolution : Type := option (option number * option number).

(** The value kept for a parameter [t]: [t] is [None] when the quotient that
    defines it is not finite, and then both range tests fail. *)
Definition valueInRange (t : option number) (p0 p1 p2 p3 : number) : option number :=
  match t with
  | Some t =>
      if bool_decide (t >= 0) && bool_decide (t <= 1)
      then Some (getBezierValueForT t p0 p1 p2 p3)
      else None
  | None => None
  end.

(** In exact arithmetic; [a === 0] is decided on the exact value of [a].
    On doubles the rounded [a] can differ from [0] where the exact one is
    [0], and then the other branch is taken: see [Float64.solveQuadratic]. *)
Definition solveQuadratic (p0 p1 p2 p3 : number) : MaybeQuadraticSolution :=
  let i := p1 - p0 in
  let j := p2 - p1 in
  let k := p3 - p2 in
  let a := 3 * i - 6 * j + 3 * k in
  let b := 6 * j - 6 * i in
  let c := 3 * i in
  let sqrtPart := b * b - 4 * a * c in
  let hasSolution := bool_decide (sqrtPart >= 0) in
  if negb hasSolution then None
  else
    let '(t1, t2) :=
      if decide (a = 0) then
        (* [t1 = t2 = -c / b]; with [b = 0] the quotient is not finite *)
        if decide (b = 0) then (None, None)
        else (Some (- c / b), Some (- c / b))
      else
        (Some ((- b + sqrt sqrtPart) / (2 * a)),
         Some ((- b - sqrt sqrtPart) / (2 * a))) in
    Some (valueInRange t1 p0 p1 p2 p3, valueInRange t2 p0 p1 p2 p3).

(** [sol.filter((x) => x !== null)] *)
Definition notNull (sol : option number * option number) : list number :=
  omap (fun s => s) [sol.1; sol.2].

(** [Math.min(m, ...xs)] and [Math.max(m, ...xs)] *)
Definition Math_min_spread (m : number) (xs : list number) : number := foldl Math_min m xs.
Definition Math_max_spread (m : number) (xs : list number) : number := foldl Math_max m xs.

Definition getCubicBezierCurveBound (p0 p1 p2 p3 : Point)
  : number * number * number * number :=
  let solX := solveQuadratic p0.1 p1.1 p2.1 p3.1 in
  let solY := solveQuadratic p0.2 p1.2 p2.2 p3.2 in
  let minX := Math_min p0.1 p3.1 in
  let maxX := Math_max p0.1 p3.1 in
  let '(minX, maxX) :=
    match solX with
    | Some solX =>
        let xs := notNull solX in
        (Math_min_spread minX xs, Math_max_spread maxX xs)
    | None => (minX, maxX)
    end in
  let minY := Math_min p0.2 p3.2 in
  let maxY := Math_max p0.2 p3.2 in
  let '(minY, maxY) :=
    match solY with
    | Some solY =>
        let ys := notNull solY in
        (Math_min_spread minY ys, Math_max_spread maxY ys)
    | None => (minY, maxY)
    end in
  (minX, minY, maxX, maxY).

(** The reducer of [getMinMaxXYFromCurvePathOps]: the state is the current
    point and the limits. *)
Definition curvePathStep (transformXY : option (number -> number -> Point))
    (st : Point * Bounds) (o : Op) : Point * Bounds :=
  let '(currentP, limits) := st in
  let tr (p : Point) : Point :=
    match transformXY with
    | Some f => f p.1 p.2
    | None => p
    end in
  if bool_decide (op o = "move"%string) then
    ((at_ (data o) 0, at_ (data o) 1), limits)
  else if bool_decide (op o = "bcurveTo"%string) then
    let _p1 := (at_ (data o) 0, at_ (data o) 1) in
    let _p2 := (at_ (data o) 2, at_ (data o) 3) in
    let _p3 := (at_ (data o) 4, at_ (data o) 5) in
    let p1 := tr _p1 in
    let p2 := tr _p2 in
    let p3 := tr _p3 in
    let p0 := tr currentP in
    let '(minX, minY, maxX, maxY) := getCubicBezierCurveBound p0 p1 p2 p3 in
    (_p3, accumulate limits (Box minX minY maxX maxY))
  else
    (* "lineTo", "qcurveTo": not implemented in the source *)
    (currentP, limits).

Definition getMinMaxXYFromCurvePathOps (ops : list Op)
    (transformXY : option (number -> number -> Point)) : Bounds :=
  (foldl (curvePathStep transformXY) ((0, 0), InfBox) ops).2.

Definition getBoundsFromPoints (points : list Point) : Bounds :=
  foldl (fun acc '(x, y) => accumulate acc (Box x y x y)) InfBox points.

(** [None] stands for the coordinates of a freedraw element without any
    point, whose centre is not a number. *)
Definition getFreeDrawElementAbsoluteCoords (element : ExcalidrawElement) : option Coords :=
  match getBoundsFromPoints (Element.points element) with
  | Box minX minY maxX maxY =>
      let x1 := minX + Element.x element in
      let y1 := minY + Element.y element in
      let x2 := maxX + Element.x element in
      let y2 := maxY + Element.y element in
      Some (x1, y1, x2, y2, (x1 + x2) / 2, (y1 + y2) / 2)
  | InfBox => None
  end.

(** Modelled from the spec: [math.ts] is missing; [rotatePoint(point, center,
    angle)] rotates [point] about [center] by [angle] radians. *)
Definition rotatePoint (point center : Point) (angle : number) : Point :=
  rotate point.1 point.2 center.1 center.2 angle.

(** [[topX, topY, rightX, rightY, bottomX, bottomY, leftX, leftY]];
    [Math.floor(v / 2) + 1] is written with the integer part. *)
Definition getDiamondPoints (element : ExcalidrawElement) : list number :=
  let topX := IZR (Int_part (Element.width element / 2)) + 1 in
  let topY := 0 in
  let rightX := Element.width element in
  let rightY := IZR (Int_part (Element.height element / 2)) + 1 in
  let bottomX := topX in
  let bottomY := Element.height element in
  let leftX := 0 in
  let leftY := rightY in
  [topX; topY; rightX; rightY; bottomX; bottomY; leftX; leftY].

(** The [while (i < element.points.length - 1)] loop of
    [getElementLineSegments], from the point [i] on. *)
Fixpoint polylineSegments (element : ExcalidrawElement) (center : Point)
    (points : list Point) : list (Point * Point) :=
  match points with
  | p :: rest =>
      match rest with
      | q :: _ =>
          (rotatePoint (p.1 + Element.x element, p.2 + Element.y element)
                       center (Element.angle element),
           rotatePoint (q.1 + Element.x element, q.2 + Element.y element)
                       center (Element.angle element))
          :: polylineSegments element center rest
      | [] => []
      end
  | [] => []
  end.

Section WithCollaborators.
Context `{C : Collaborators}.

(** [includeBoundText] defaults to [false]. *)
Definition getElementAbsoluteCoords (element : ExcalidrawElement)
    (elementsMap : ElementsMap) (includeBoundText : bool) : option Coords :=
  let default : option Coords :=
    Some (Element.x element,
          Element.y element,
          Element.x element + Element.width element,
          Element.y element + Element.height element,
          Element.x element + Element.width element / 2,
          Element.y element + Element.height element / 2) in
  if isFreeDrawElement element then
    getFreeDrawElementAbsoluteCoords element
  else if isLinearElement element then
    Some (LinearElementEditor_getElementAbsoluteCoords element elementsMap includeBoundText)
  else if isTextElement element then
    match getContainerElement element elementsMap with
    | Some container =>
        if isArrowElement container then
          let coords :=
            LinearElementEditor_getBoundTextElementPosition container element elementsMap in
          Some (coords.1,
                coords.2,
                coords.1 + Element.width element,
                coords.2 + Element.height element,
                coords.1 + Element.width element / 2,
                coords.2 + Element.height element / 2)
        else default
    | None => default
    end
  else default.

(** On a linear element without points the source destructures
    [element.points[0]], which is [undefined], and throws a [TypeError]: the
    function is defined here on the linear elements that have a point, and
    what is stated of the bounds of a linear element assumes one. *)
Definition getLinearElementRotatedBounds (element : ExcalidrawElement)
    (cx cy : number) (elementsMap : ElementsMap) : Bounds :=
  let boundTextElement := getBoundTextElement element elementsMap in
  if bool_decide (length (Element.points element) < 2)%nat then
    (* [element.points[0]] *)
    let '(pointX, pointY) := nth 0 (Element.points element) (0, 0) in
    let '(x, y) :=
      rotate (Element.x element + pointX) (Element.y element + pointY)
             cx cy (Element.angle element) in
    let coords := Box x y x y in
    match boundTextElement with
    | Some boundTextElement =>
        LinearElementEditor_getMinMaxXYWithBoundText
          element elementsMap (Box x y x y) boundTextElement
    | None => coords
    end
  else
    let shape := linearElementShape element in
    let ops := getCurvePathOps shape in
    let transformXY (x y : number) :=
      rotate (Element.x element + x) (Element.y element + y)
             cx cy (Element.angle element) in
    let res := getMinMaxXYFromCurvePathOps ops (Some transformXY) in
    let coords := res in
    match boundTextElement with
    | Some boundTextElement =>
        LinearElementEditor_getMinMaxXYWithBoundText
          element elementsMap coords boundTextElement
    | None => coords
    end.

(** ** class ElementBounds *)

Record CachedBounds : Type := mkCached {
  cached_bounds : Bounds;
  cached_version : Z;
}.

(** [private static boundsCache = new WeakMap<ExcalidrawElement, ...>()] *)
Abbreviation BoundsCache := (gmap positive CachedBounds).

Definition calculateBounds (element : ExcalidrawElement)
    (elementsMap : ElementsMap) : Bounds :=
  match getElementAbsoluteCoords element elementsMap false with
  | None =>
      (* a freedraw element without points: the reduction over its rotated
         points is empty and the seeds are translated *)
      InfBox
  | Some (x1, y1, x2, y2, cx, cy) =>
      if isFreeDrawElement element then
        translate (Element.x element) (Element.y element)
          (getBoundsFromPoints
             (List.map (fun '(x, y) =>
                          rotate x y (cx - Element.x element) (cy - Element.y element)
                                 (Element.angle element))
                       (Element.points element)))
      else if isLinearElement element then
        getLinearElementRotatedBounds element cx cy elementsMap
      else if bool_decide (Element.type element = "diamond"%string) then
        let '(x11, y11) := rotate cx y1 cx cy (Element.angle element) in
        let '(x12, y12) := rotate cx y2 cx cy (Element.angle element) in
        let '(x22, y22) := rotate x1 cy cx cy (Element.angle element) in
        let '(x21, y21) := rotate x2 cy cx cy (Element.angle element) in
        let minX := Math_min4 x11 x12 x22 x21 in
        let minY := Math_min4 y11 y12 y22 y21 in
        let maxX := Math_max4 x11 x12 x22 x21 in
        let maxY := Math_max4 y11 y12 y22 y21 in
        Box minX minY maxX maxY
      else if bool_decide (Element.type element = "ellipse"%string) then
        let w := (x2 - x1) / 2 in
        let h := (y2 - y1) / 2 in
        let cos := cos (Element.angle element) in
        let sin := sin (Element.angle element) in
        let ww := Math_hypot (w * cos) (h * sin) in
        let hh := Math_hypot (h * cos) (w * sin) in
        Box (cx - ww) (cy - hh) (cx + ww) (cy + hh)
      else
        let '(x11, y11) := rotate x1 y1 cx cy (Element.angle element) in
        let '(x12, y12) := rotate x1 y2 cx cy (Element.angle element) in
        let '(x22, y22) := rotate x2 y2 cx cy (Element.angle element) in
        let '(x21, y21) := rotate x2 y1 cx cy (Element.angle element) in
        let minX := Math_min4 x11 x12 x22 x21 in
        let minY := Math_min4 y11 y12 y22 y21 in
        let maxX := Math_max4 x11 x12 x22 x21 in
        let maxY := Math_max4 y11 y12 y22 y21 in
        Box minX minY maxX maxY
  end.

(** The test of [getBounds]:
    [cachedBounds?.version && cachedBounds.version === element.version
     && !isBoundToContainer(element)]. *)
Definition cacheHit (cachedBounds : option CachedBounds)
    (element : ExcalidrawElement) : bool :=
  match cachedBounds with
  | Some cachedBounds =>
      truthy_int (cached_version cachedBounds)
      && bool_decide (cached_version cachedBounds = Element.version element)
      && negb (isBoundToContainer element)
  | None => false
  end.

(** [ElementBounds.getBounds]: the bounds returned and the cache afterwards. *)
Definition getBounds (boundsCache : BoundsCache) (element : ExcalidrawElement)
    (elementsMap : ElementsMap) : Bounds * BoundsCache :=
  let cachedBounds := boundsCache !! Element.obj element in
  match cachedBounds with
  | Some cached =>
      if cacheHit cachedBounds element then (cached_bounds cached, boundsCache)
      else
        let bounds := calculateBounds element elementsMap in
        (bounds,
         <[Element.obj element := mkCached bounds (Element.version element)]> boundsCache)
  | None =>
      let bounds := calculateBounds element elementsMap in
      (bounds,
       <[Element.obj element := mkCached bounds (Element.version element)]> boundsCache)
  end.

Definition getElementBounds (boundsCache : BoundsCache) (element : ExcalidrawElement)
    (elementsMap : ElementsMap) : Bounds * BoundsCache :=
  getBounds boundsCache element elementsMap.

(** The body of [elements.forEach] in [getCommonBounds]. *)
Definition commonBoundsStep (elementsMap : ElementsMap)
    (st : Bounds * BoundsCache) (element : ExcalidrawElement) : Bounds * BoundsCache :=
  let '(r, cache') := getElementBounds st.2 element elementsMap in
  (accumulate st.1 r, cache').

Definition getCommonBounds (boundsCache : BoundsCache)
    (elements : list ExcalidrawElement) : Bounds * BoundsCache :=
  match elements with
  | [] => (Box 0 0 0 0, boundsCache)
  | _ =>
      let elementsMap := arrayToMap elements in
      foldl (commonBoundsStep elementsMap) (InfBox, boundsCache) elements
  end.

(** A freedraw element without points has no centre that is a number; its
    loop is not entered. *)
Definition getElementLineSegments (element : ExcalidrawElement)
    (elementsMap : ElementsMap) : list (Point * Point) :=
  match getElementAbsoluteCoords element elementsMap false with
  | None => []
  | Some (x1, y1, x2, y2, cx, cy) =>
      let center : Point := (cx, cy) in
      if isLinearElement element || isFreeDrawElement element then
        polylineSegments element center (Element.points element)
      else
        let corner (point : Point) := rotatePoint point center (Element.angle element) in
        let nw := corner (x1, y1) in
        let ne := corner (x2, y1) in
        let sw := corner (x1, y2) in
        let se := corner (x2, y2) in
        let n := corner (cx, y1) in
        let s := corner (cx, y2) in
        let w := corner (x1, cy) in
        let e := corner (x2, cy) in
        if bool_decide (Element.type element = "diamond"%string) then
          [(n, w); (n, e); (s, w); (s, e)]
        else if bool_decide (Element.type element = "ellipse"%string) then
          [(n, w); (n, e); (s, w); (s, e); (n, w); (n, e); (s, w); (s, e)]
        else
          [(nw, ne); (sw, se); (nw, sw); (ne, se); (nw, e); (sw, e); (ne, w); (se, w)]
  end.

(** [dragOffset] is [{x, y}]. *)
Definition getDraggedElementsBounds (boundsCache : BoundsCache)
    (elements : list ExcalidrawElement) (dragOffset : Point) : Bounds * BoundsCache :=
  let '(bounds, cache') := getCommonBounds boundsCache elements in
  (translate dragOffset.1 dragOffset.2 bounds, cache').

Section Closest.
(** [distance2d] of math.ts *)
Variable distance2d : number -> number -> number -> number -> number.

(** The body of [elements.forEach] in [getClosestElementBounds]; the state
    is [minDistance] ([None] for [Infinity]), [closestElement] and the cache.
    The centre of bounds that are not finite is not a number, and its
    distance is below no minimum. *)
Definition closestStep (elementsMap : ElementsMap) (from : Point)
    (st : option number * ExcalidrawElement * BoundsCache) (element : ExcalidrawElement)
  : option number * ExcalidrawElement * BoundsCache :=
  let '(minDistance, closestElement, cache) := st in
  let '(bounds, cache') := getElementBounds cache element elementsMap in
  match bounds with
  | Box x1 y1 x2 y2 =>
      let distance := distance2d ((x1 + x2) / 2) ((y1 + y2) / 2) from.1 from.2 in
      if match minDistance with
         | Some minDistance => bool_decide (distance < minDistance)
         | None => true
         end
      then (Some distance, element, cache')
      else (minDistance, closestElement, cache')
  | InfBox => (minDistance, closestElement, cache')
  end.

(** [from] is [{x, y}]. *)
Definition getClosestElementBounds (boundsCache : BoundsCache)
    (elements : list ExcalidrawElement) (from : Point) : Bounds * BoundsCache :=
  match elements with
  | [] => (Box 0 0 0 0, boundsCache)
  | first :: _ =>
      let elementsMap := arrayToMap elements in
      let '(_, closestElement, cache') :=
        foldl (closestStep elementsMap from) (None, first, boundsCache) elements in
      getElementBounds cache' closestElement elementsMap
  end.

End Closest.

End WithCollaborators.

End BoundsTs.

(** * bounds.ts on doubles

    The cubic bezier bound on binary64 numbers, operation by operation as the
    source writes it: every [+], [-], [*], [/] and [Math.sqrt] rounds to the
    nearest double. *)

Module Float64.
Import PrimFloat.
#[local] Set Warnings "-inexact-float".
Local Open Scope float_scope.

(** [Math.pow(x, 2)] and [Math.pow(x, 3)], written as products (an engine
    may round the last bit of a power differently). *)
Definition Math_pow2 (x : float) : float := x * x.
Definition Math_pow3 (x : float) : float := x * x * x.

(** [Math.min] and [Math.max] of two numbers: [NaN] when one of them is
    [NaN]; of the two zeros [-0] is the lesser. *)
Definition Math_min (a b : float) : float :=
  if is_nan a || is_nan b then nan
  else if a <? b then a
  else if b <? a then b
  else if get_sign a then a else b.
Definition Math_max (a b : float) : float :=
  if is_nan a || is_nan b then nan
  else if a <? b then b
  else if b <? a then a
  else if get_sign a then b else a.

Definition getBezierValueForT (t p0 p1 p2 p3 : float) : float :=
  let oneMinusT := 1 - t in
  Math_pow3 oneMinusT * p0
  + 3 * Math_pow2 oneMinusT * t * p1
  + 3 * oneMinusT * Math_pow2 t * p2
  + Math_pow3 t * p3.

(** [if (t >= 0 && t <= 1) { s = getBezierValueForT(t, ...) }]; both tests
    fail on [NaN] and on an infinite [t]. *)
Definition valueInRange (t p0 p1 p2 p3 : float) : option float :=
  if (0 <=? t) && (t <=? 1) then Some (getBezierValueForT t p0 p1 p2 p3) else None.

Definition solveQuadratic (p0 p1 p2 p3 : float) : option (option float * option float) :=
  let i := p1 - p0 in
  let j := p2 - p1 in
  let k := p3 - p2 in
  let a := 3 * i - 6 * j + 3 * k in
  let b := 6 * j - 6 * i in
  let c := 3 * i in
  let sqrtPart := b * b - 4 * a * c in
  let hasSolution := 0 <=? sqrtPart in
  if negb hasSolution then None
  else
    let '(t1, t2) :=
      if a =? 0 then (- c / b, - c / b)
      else ((- b + sqrt sqrtPart) / (2 * a), (- b - sqrt sqrtPart) / (2 * a)) in
    Some (valueInRange t1 p0 p1 p2 p3, valueInRange t2 p0 p1 p2 p3).

(** [sol.filter((x) => x !== null)] *)
Definition notNull (sol : option float * option float) : list float :=
  omap (fun s => s) [sol.1; sol.2].

Definition getCubicBezierCurveBound (p0 p1 p2 p3 : float * float)
  : float * float * float * float :=
  let solX := solveQuadratic p0.1 p1.1 p2.1 p3.1 in
  let solY := solveQuadratic p0.2 p1.2 p2.2 p3.2 in
  let minX := Math_min p0.1 p3.1 in
  let maxX := Math_max p0.1 p3.1 in
  let '(minX, maxX) :=
    match solX with
    | Some solX =>
        let xs := notNull solX in
        (foldl Math_min minX xs, foldl Math_max maxX xs)
    | None => (minX, maxX)
    end in
  let minY := Math_min p0.2 p3.2 in
  let maxY := Math_max p0.2 p3.2 in
  let '(minY, maxY) :=
    match solY with
    | Some solY =>
        let ys := notNull solY in
        (foldl Math_min minY ys, foldl Math_max maxY ys)
    | None => (minY, maxY)
    end in
  (minX, minY, maxX, maxY).

End Float64.

(** * Application state ([types.ts]), as far as the embedded functions read it *)

Record Zoom : Type := mkZoom { zoom_value : number }.

Record FrameRendering : Type := mkFrameRendering {
  fr_enabled : bool;
  fr_outline : bool;
}.

Module AppState.
Record t : Type := mk {
  selectedElementIds : gmap string bool;
  selectedGroupIds : gmap string bool;
  editingGroupId : option string;
  zoom : Zoom;
  theme : string;
  shouldCacheIgnoreZoom : bool;
  scrollX : number;
  scrollY : number;
  frameRendering : FrameRendering;
  lastCropImageId : option string;
}.

(** [Object.assign(appState, {lastCropImageId})] *)
Definition assign_lastCropImageId (i : string) (s : t) : t :=
  mk (selectedElementIds s) (selectedGroupIds s) (editingGroupId s) (zoom s)
     (theme s) (shouldCacheIgnoreZoom s) (scrollX s) (scrollY s)
     (frameRendering s) (Some i).

(** [{...appState, selectedElementIds, selectedGroupIds, editingGroupId}] *)
Definition with_selection (e g : gmap string bool) (ed : option string) (s : t) : t :=
  mk e g ed (zoom s) (theme s) (shouldCacheIgnoreZoom s) (scrollX s) (scrollY s)
     (frameRendering s) (lastCropImageId s).
End AppState.

Abbreviation AppState := AppState.t.

(** [obj[key]] read as a condition *)
Definition isSet (m : gmap string bool) (k : string) : bool :=
  default false (m !! k).

(** * packages/excalidraw/element/resizeTest.ts *)

Module ResizeTestTs.

(** [TransformHandle = [x, y, width, height]] *)
Definition TransformHandle : Type := number * number * number * number.

(** ["n" | "s" | "w" | "e" | "nw" | "ne" | "sw" | "se" | "rotation"] *)
Abbreviation TransformHandleType := string (only parsing).

(** [TransformHandleType | false] *)
Abbreviation MaybeTransformHandleType := (option string) (only parsing).

(** [TransformHandles]: an object, its keys in insertion order; a key may
    hold [undefined]. *)
Definition TransformHandles : Type := list (string * option TransformHandle).

(** [obj.rotation] *)
Definition rotationOf (h : TransformHandles) : option TransformHandle :=
  match List.find (fun kv => bool_decide (kv.1 = "rotation"%string)) h with
  | Some kv => kv.2
  | None => None
  end.

(** [const { rotation, ...rest } = obj] *)
Definition restOf (h : TransformHandles) : TransformHandles :=
  List.filter (fun kv => negb (bool_decide (kv.1 = "rotation"%string))) h.

Definition Line : Type := Point * Point.

Class Collaborators : Type := {
  Device : Type;
  PointerType : Type;
  OmitSides : Type;
  (** transformHandles.ts *)
  getTransformHandles :
    ExcalidrawElement -> Zoom -> ElementsMap -> PointerType -> OmitSides -> TransformHandles;
  getCropTransformHandles :
    ExcalidrawElement -> Zoom -> ElementsMap -> PointerType -> OmitSides -> TransformHandles;
  getOmitSidesForDevice : Device -> OmitSides;
  canResizeFromSides : Device -> bool;
  (** constants.ts *)
  SIDE_RESIZING_THRESHOLD : number;
  (** utils/geometry/geometry.ts *)
  angleToDegrees : number -> number;
  pointOnLine : Point -> Line -> number -> bool;
  pointRotate : Point -> number -> Point -> Point;
}.

Definition isInsideTransformHandle (transformHandle : TransformHandle) (x y : number) : bool :=
  let '(h0, h1, h2, h3) := transformHandle in
  bool_decide (x >= h0) && bool_decide (x <= h0 + h2)
  && bool_decide (y >= h1) && bool_decide (y <= h1 + h3).

(** [Object.keys(handles).filter((key) => { ... })] *)
Definition keysInside (handles : TransformHandles) (x y : number) : list string :=
  (List.filter
     (fun kv => match kv.2 with
                | Some transformHandle => isInsideTransformHandle transformHandle x y
                | None => false
                end)
     handles).*1.

Section WithCollaborators.
Context `{B : BoundsTs.Collaborators} `{C : Collaborators}.

(** The object [{n, e, s, w}], as [Object.entries] lists it. *)
Definition getSelectionBorders (p1 p2 center : Point) (angleInDegrees : number)
  : list (string * Line) :=
  let '(x1, y1) := p1 in
  let '(x2, y2) := p2 in
  let topLeft := pointRotate (x1, y1) angleInDegrees center in
  let topRight := pointRotate (x2, y1) angleInDegrees center in
  let bottomLeft := pointRotate (x1, y2) angleInDegrees center in
  let bottomRight := pointRotate (x2, y2) angleInDegrees center in
  [ ("n"%string, (topLeft, topRight));
    ("e"%string, (topRight, bottomRight));
    ("s"%string, (bottomRight, bottomLeft));
    ("w"%string, (bottomLeft, topLeft)) ].

(** [for (const [dir, side] of Object.entries(sides)) { if (pointOnLine(...))
    return dir; }]: the first side the pointer is on. *)
Definition firstSideHit (sides : list (string * Line)) (x y SPACING : number)
  : option string :=
  fst <$> List.find (fun ds => pointOnLine (x, y) ds.2 SPACING) sides.

(** The side tests of [resizeTest], entered when [canResizeFromSides(device)].
    The coordinates of a freedraw element without points are not numbers and
    no side is tested on them. *)
Definition sideTests (element : ExcalidrawElement) (elementsMap : ElementsMap)
    (x y : number) (zoom : Zoom) : option string :=
  match BoundsTs.getElementAbsoluteCoords element elementsMap false with
  | None => None
  | Some (x1, y1, x2, y2, cx, cy) =>
      let fromSides :=
        if negb (isLinearElement element
                 && bool_decide (length (Element.points element) <= 2)%nat) then
          let SPACING := SIDE_RESIZING_THRESHOLD / zoom_value zoom in
          let sides :=
            getSelectionBorders (x1 - SPACING, y1 - SPACING) (x2 + SPACING, y2 + SPACING)
                                (cx, cy) (angleToDegrees (Element.angle element)) in
          firstSideHit sides x y SPACING
        else None in
      match fromSides with
      | Some dir => Some dir
      | None =>
          match Element.isRenderCropWindow element, Element.cropProperties element with
          | Some isRenderCropWindow, Some cropProperties =>
              if isRenderCropWindow then
                let nx1 := x1 + crop_x cropProperties in
                let ny1 := y1 + crop_y cropProperties in
                let nx2 := nx1 + crop_width cropProperties in
                let ny2 := ny1 + crop_height cropProperties in
                let ncx := Element.x element + Element.width element / 2 in
                let ncy := Element.y element + Element.height element / 2 in
                let SPACING := SIDE_RESIZING_THRESHOLD / zoom_value zoom in
                let sides :=
                  getSelectionBorders (nx1, ny1) (nx2, ny2) (ncx, ncy)
                                      (angleToDegrees (Element.angle element)) in
                firstSideHit sides x y SPACING
              else None
          | _, _ => None
          end
      end
  end.

Definition resizeTest (element : ExcalidrawElement) (elementsMap : ElementsMap)
    (appState : AppState) (x y : number) (zoom : Zoom)
    (pointerType : PointerType) (device : Device) : option string :=
  if negb (isSet (AppState.selectedElementIds appState) (Element.id element)) then None
  else
    let handles :=
      getTransformHandles element zoom elementsMap pointerType
                          (getOmitSidesForDevice device) in
    let rotationTransformHandle := rotationOf handles in
    let transformHandles := restOf handles in
    (* rotation *)
    match (match rotationTransformHandle with
           | Some h => if isInsideTransformHandle h x y then Some "rotation"%string else None
           | None => None
           end) with
    | Some r => Some r
    | None =>
        (* corner *)
        match keysInside transformHandles x y with
        | key :: _ => Some key
        | [] =>
            (* crop corner *)
            let cropHandles :=
              getCropTransformHandles element zoom elementsMap pointerType
                                      (getOmitSidesForDevice device) in
            let cropTransformHandles := restOf cropHandles in
            match keysInside cropTransformHandles x y with
            | key :: _ => Some key
            | [] =>
                (* side *)
                if canResizeFromSides device
                then sideTests element elementsMap x y zoom
                else None
            end
        end
    end.

Definition CropWindowResizeTest (element : ExcalidrawElement) (elementsMap : ElementsMap)
    (appState : AppState) (x y : number) (zoom : Zoom)
    (pointerType : PointerType) (device : Device) : option string :=
  if negb (isSet (AppState.selectedElementIds appState) (Element.id element)) then None
  else
    (* corner *)
    let cropHandles :=
      getCropTransformHandles element zoom elementsMap pointerType
                              (getOmitSidesForDevice device) in
    let cropTransformHandles := restOf cropHandles in
    match keysInside cropTransformHandles x y with
    | key :: _ => Some key
    | [] =>
        (* side *)
        if canResizeFromSides device then
          match Element.isRenderCropWindow element, Element.cropProperties element with
          | Some isRenderCropWindow, Some cropProperties =>
              if isRenderCropWindow then
                let nx1 := Element.x element + crop_x cropProperties in
                let ny1 := Element.y element + crop_y cropProperties in
                let nx2 := nx1 + crop_width cropProperties in
                let ny2 := ny1 + crop_height cropProperties in
                let ncx := Element.x element + Element.width element / 2 in
                let ncy := Element.y element + Element.height element / 2 in
                let SPACING := SIDE_RESIZING_THRESHOLD / zoom_value zoom in
                let sides :=
                  getSelectionBorders (nx1, ny1) (nx2, ny2) (ncx, ncy)
                                      (angleToDegrees (Element.angle element)) in
                firstSideHit sides x y SPACING
              else None
          | _, _ => None
          end
        else None
    end.

(** [elements.reduce((result, element) => ..., null)]: [None] for [null]. *)
Definition getElementWithTransformHandleType (elements : list ExcalidrawElement)
    (appState : AppState) (scenePointerX scenePointerY : number) (zoom : Zoom)
    (pointerType : PointerType) (elementsMap : ElementsMap) (device : Device)
  : option (ExcalidrawElement * string) :=
  foldl
    (fun result element =>
       match result with
       | Some found => Some found
       | None =>
           match resizeTest element elementsMap appState scenePointerX scenePointerY
                            zoom pointerType device with
           | Some transformHandleType =>
               if truthy_str transformHandleType
               then Some (element, transformHandleType)
               else None
           | None => None
           end
       end)
    None elements.

End WithCollaborators.

(** ** Cursors *)

Definition RESIZE_CURSORS : list string := ["ns"; "nesw"; "ew"; "nwse"]%string.

(** [array.indexOf(value)], [None] for [-1]. *)
Fixpoint indexOf (l : list string) (value : string) : option nat :=
  match l with
  | [] => None
  | s :: rest => if bool_decide (s = value) then Some 0%nat else S <$> indexOf rest value
  end.

(** [%] takes the sign of the dividend; a negative index reads [undefined],
    which is [None]. *)
Definition rotateResizeCursor (cursor : string) (angle : number) : option string :=
  match indexOf RESIZE_CURSORS cursor with
  | Some index =>
      let a := Math_round (angle / (PI / 4)) in
      let i := Z.rem (Z.of_nat index + a) (Z.of_nat (length RESIZE_CURSORS)) in
      if bool_decide (0 <= i)%Z then RESIZE_CURSORS !! Z.to_nat i else None
  | None => Some cursor
  end.

(** [resizingElement] is [{element?, transformHandleType}]; a handle type
    [false] is [None]. *)
Definition getCursorForResizingElement (element : option ExcalidrawElement)
    (transformHandleType : option string) : string :=
  let shouldSwapCursors :=
    match element with
    | Some element =>
        bool_decide (Math_sign (Element.height element) * Math_sign (Element.width element)
                     = -1)%Z
    | None => false
    end in
  let handleIs (handle : string) := bool_decide (transformHandleType = Some handle) in
  if handleIs "rotation"%string then "grab"%string
  else
    let cursor : option string :=
      if handleIs "n"%string || handleIs "s"%string then Some "ns"%string
      else if handleIs "w"%string || handleIs "e"%string then Some "ew"%string
      else if handleIs "nw"%string || handleIs "se"%string then
        if shouldSwapCursors then Some "nesw"%string else Some "nwse"%string
      else if handleIs "ne"%string || handleIs "sw"%string then
        if shouldSwapCursors then Some "nwse"%string else Some "nesw"%string
      else None in
    let cursor :=
      match cursor, element with
      | Some cursor, Some element =>
          if truthy_str cursor then rotateResizeCursor cursor (Element.angle element)
          else Some cursor
      | _, _ => cursor
      end in
    match cursor with
    | Some cursor => if truthy_str cursor then (cursor +:+ "-resize")%string else ""%string
    | None => ""%string
    end.

End ResizeTestTs.

(** * packages/excalidraw/renderer/renderElement.ts *)

Module RenderElementTs.

(** What [drawElementOnCanvas] puts on the offscreen canvas of an element:
    one constructor per branch of its [switch].  The pixels (path, rough
    shape, clip region, placeholder glyph, text lines) are not modelled. *)
Inductive Drawn : Type :=
| DrawnRectangle
| DrawnShape
| DrawnLinear
| DrawnFreeDraw
| DrawnImage
| DrawnText.

(** [ExcalidrawElementWithCanvas]: the offscreen canvas and the snapshot it
    was produced under.  [scale], the canvas offsets and the canvas size,
    which only the pixel arithmetic of [drawElementFromCanvas] reads back,
    are left out. *)
Record ExcalidrawElementWithCanvas : Type := mkWithCanvas {
  ewc_element : ExcalidrawElement;
  ewc_canvas : Drawn;
  ewc_theme : string;
  ewc_zoomValue : number;
  ewc_boundTextElementVersion : option Z;
  ewc_containingFrameOpacity : number;
}.

(** [elementWithCanvasCache = new WeakMap<ExcalidrawElement, ...>()] *)
Abbreviation ElementWithCanvasCache := (gmap positive ExcalidrawElementWithCanvas).

Record StaticCanvasRenderConfig : Type := mkRenderConfig {
  elementsPendingErasure : gset string;
  isExporting : bool;
}.

(** What a call paints on a 2D context: the outline of a frame
    ([strokeRect] or [roundRect] and [stroke]), the cached canvas of an
    element ([drawImage]; for an arrow with a bound text, through a temporary
    canvas on which the area of the text is cleared), and the debug outline of
    the text area of a container ([strokeRect]). *)
Inductive Painting : Type :=
| FrameOutline (element : ExcalidrawElement)
| ElementCanvas (elementWithCanvas : ExcalidrawElementWithCanvas)
| TextContainerBox (element : ExcalidrawElement).

(** A drawing call on a 2D context together with the context state it was
    issued under; [DrawImage] is [context.drawImage(tempCanvas, 0, 0, winw,
    winh)], its first argument the content of the temporary canvas. *)
#[warnings="-register-all"]
Inductive Command : Type :=
| Paint (what : Painting) (globalAlpha : number) (imageSmoothingEnabled : bool)
        (globalCompositeOperation : string)
| DrawImage (tempCanvas : list Command) (winw winh : number).

Record Context2D : Type := mkContext {
  commands : list Command;
  globalAlpha : number;
  imageSmoothingEnabled : bool;
  globalCompositeOperation : string;
}.

Definition set_globalAlpha (a : number) (c : Context2D) : Context2D :=
  mkContext (commands c) a (imageSmoothingEnabled c) (globalCompositeOperation c).
Definition set_imageSmoothingEnabled (s : bool) (c : Context2D) : Context2D :=
  mkContext (commands c) (globalAlpha c) s (globalCompositeOperation c).
Definition set_globalCompositeOperation (o : string) (c : Context2D) : Context2D :=
  mkContext (commands c) (globalAlpha c) (imageSmoothingEnabled c) o.
Definition issue (cmd : Command) (c : Context2D) : Context2D :=
  mkContext (commands c ++ [cmd]) (globalAlpha c) (imageSmoothingEnabled c)
            (globalCompositeOperation c).
Definition paint (what : Painting) (c : Context2D) : Context2D :=
  issue (Paint what (globalAlpha c) (imageSmoothingEnabled c)
               (globalCompositeOperation c)) c.

(** [document.createElement('canvas').getContext('2d')] *)
Definition newContext : Context2D := mkContext [] 1 true "source-over".

(** The module state: the raster cache, the process-wide accumulation map of
    the clipping masks, and the hidden [<img>] elements of the document, by
    id. *)
Record State : Type := mkState {
  elementWithCanvasCache : ElementWithCanvasCache;
  maskedElementsMap : gmap string (list ExcalidrawElement);
  documentImages : gmap string (list Command);
}.

Definition set_cache (c : ElementWithCanvasCache) (s : State) : State :=
  mkState c (maskedElementsMap s) (documentImages s).
Definition set_masked (m : gmap string (list ExcalidrawElement)) (s : State) : State :=
  mkState (elementWithCanvasCache s) m (documentImages s).
Definition set_images (d : gmap string (list Command)) (s : State) : State :=
  mkState (elementWithCanvasCache s) (maskedElementsMap s) d.

Class Collaborators : Type := {
  (** frame.ts *)
  getContainingFrame : ExcalidrawElement -> ElementsMap -> option ExcalidrawElement;
  (** [getDefaultAppState()] *)
  defaultAppState : AppState;
  (** constants.ts *)
  ELEMENT_READY_TO_ERASE_OPACITY : number;
  (** math.ts *)
  isRightAngle : number -> bool;
  (** [String.prototype.localeCompare] *)
  localeCompare : string -> string -> Z;
  (** [window.innerWidth], [window.innerHeight] *)
  innerWidth : number;
  innerHeight : number;
  (** [import.meta.env.VITE_APP_DEBUG_ENABLE_TEXT_CONTAINER_BOUNDING_BOX],
      [None] when the variable is not set *)
  VITE_APP_DEBUG_ENABLE_TEXT_CONTAINER_BOUNDING_BOX : option string;
  (** typeChecks.ts *)
  hasBoundTextElement : ExcalidrawElement -> bool;
}.

(** [Math.floor] *)
Definition Math_floor (r : number) : number := IZR (Int_part r).

(** [Array.prototype.sort(compare)]: a stable sort; an element moves before
    its predecessor only when the comparison is negative. *)
Fixpoint insertSorted {A} (compare : A -> A -> Z) (a : A) (l : list A) : list A :=
  match l with
  | [] => [a]
  | b :: l' => if bool_decide (compare b a <= 0)%Z
               then b :: insertSorted compare a l'
               else a :: l
  end.
Definition sort {A} (compare : A -> A -> Z) (l : list A) : list A :=
  foldl (fun acc a => insertSorted compare a acc) [] l.

Section WithCollaborators.
Context `{B : BoundsTs.Collaborators} `{C : Collaborators}.

Definition getRenderOpacity (element : ExcalidrawElement)
    (containingFrame : option ExcalidrawElement)
    (elementsPendingErasure : gset string) : number :=
  let opacity :=
    (match containingFrame with
     | Some f => Element.opacity f
     | None => 100
     end * Element.opacity element) / 10000 in
  if bool_decide (Element.id element ∈ elementsPendingErasure)
     || match containingFrame with
        | Some f => bool_decide (Element.id f ∈ elementsPendingErasure)
        | None => false
        end
  then opacity * (ELEMENT_READY_TO_ERASE_OPACITY / 100)
  else opacity.

Definition drawElementOnCanvas (element : ExcalidrawElement) : result Drawn :=
  let type := Element.type element in
  if bool_decide (type = "rectangle"%string) then Ok DrawnRectangle
  else if bool_decide (type = "iframe"%string)
       || bool_decide (type = "embeddable"%string)
       || bool_decide (type = "diamond"%string)
       || bool_decide (type = "ellipse"%string) then Ok DrawnShape
  else if bool_decide (type = "arrow"%string)
       || bool_decide (type = "line"%string) then Ok DrawnLinear
  else if bool_decide (type = "freedraw"%string) then Ok DrawnFreeDraw
  else if bool_decide (type = "image"%string) then Ok DrawnImage
  else
    (* default *)
    if isTextElement element then Ok DrawnText
    else Throw ("Unimplemented type " +:+ type).

(** [getBoundTextElement(element, elementsMap)?.version || null] *)
Definition currentBoundTextElementVersion (element : ExcalidrawElement)
    (elementsMap : ElementsMap) : option Z :=
  match BoundsTs.getBoundTextElement element elementsMap with
  | Some t => if truthy_int (Element.version t) then Some (Element.version t) else None
  | None => None
  end.

(** [getContainingFrame(element, elementsMap)?.opacity || 100] *)
Definition currentContainingFrameOpacity (element : ExcalidrawElement)
    (elementsMap : ElementsMap) : number :=
  match getContainingFrame element elementsMap with
  | Some f => if truthy_num (Element.opacity f) then Element.opacity f else 100
  | None => 100
  end.

Definition generateElementCanvas (element : ExcalidrawElement)
    (elementsMap : ElementsMap) (zoom : Zoom) (appState : AppState)
  : result ExcalidrawElementWithCanvas :=
  canvas ← drawElementOnCanvas element;
  Ok (mkWithCanvas element canvas (AppState.theme appState) (zoom_value zoom)
        (currentBoundTextElementVersion element elementsMap)
        (currentContainingFrameOpacity element elementsMap)).

(** The local function [akhonRenderKoraUchit(element)] of
    [generateElementWithCanvas], read as a condition. *)
Definition akhonRenderKoraUchit (element : ExcalidrawElement) : bool :=
  match Element.akhonRenderKoraUchit element with
  | Some flag => flag
  | None => false
  end.

(** The condition of the [if] of [generateElementWithCanvas]. *)
Definition shouldRegenerate (element : ExcalidrawElement) (elementsMap : ElementsMap)
    (zoom : Zoom) (appState : AppState)
    (prevElementWithCanvas : option ExcalidrawElementWithCanvas) : bool :=
  let shouldRegenerateBecauseZoom :=
    match prevElementWithCanvas with
    | Some prev =>
        bool_decide (ewc_zoomValue prev <> zoom_value zoom)
        && negb (AppState.shouldCacheIgnoreZoom appState)
    | None => false
    end in
  let boundTextElementVersion := currentBoundTextElementVersion element elementsMap in
  let containingFrameOpacity := currentContainingFrameOpacity element elementsMap in
  akhonRenderKoraUchit element
  || match prevElementWithCanvas with
     | None => true
     | Some prev =>
         shouldRegenerateBecauseZoom
         || bool_decide (ewc_theme prev <> AppState.theme appState)
         || bool_decide (ewc_boundTextElementVersion prev <> boundTextElementVersion)
         || bool_decide (ewc_containingFrameOpacity prev <> containingFrameOpacity)
     end.

Definition generateElementWithCanvas (element : ExcalidrawElement)
    (elementsMap : ElementsMap) (renderConfig : option StaticCanvasRenderConfig)
    (appState : AppState) (cache : ElementWithCanvasCache)
  : result ExcalidrawElementWithCanvas * ElementWithCanvasCache :=
  let zoom :=
    match renderConfig with
    | Some _ => AppState.zoom appState
    | None => AppState.zoom defaultAppState
    end in
  let prevElementWithCanvas := cache !! Element.obj element in
  let regenerated :=
    match generateElementCanvas element elementsMap zoom appState with
    | Ok elementWithCanvas =>
        (Ok elementWithCanvas, <[Element.obj element := elementWithCanvas]> cache)
    | Throw msg => (Throw msg, cache)
    end in
  if shouldRegenerate element elementsMap zoom appState prevElementWithCanvas then
    regenerated
  else
    match prevElementWithCanvas with
    | Some prev => (Ok prev, cache)
    | None => regenerated (* not reached: the condition holds without an entry *)
    end.

(** [drawElementFromCanvas]: the cached canvas is drawn on the context,
    between [context.save()] and [context.restore()]; with the debug variable
    set to ["true"], the text area of a container with a bound text is
    outlined after it.  The transforms and the stroke style, which
    [restore] puts back, are not modelled. *)
Definition drawElementFromCanvas (elementWithCanvas : ExcalidrawElementWithCanvas)
    (context : Context2D) (allElementsMap : ElementsMap) : Context2D :=
  let element := ewc_element elementWithCanvas in
  let boundTextElement := BoundsTs.getBoundTextElement element allElementsMap in
  if isArrowElement element && bool_decide (is_Some boundTextElement) then
    paint (ElementCanvas elementWithCanvas) context
  else
    let context := paint (ElementCanvas elementWithCanvas) context in
    if bool_decide (VITE_APP_DEBUG_ENABLE_TEXT_CONTAINER_BOUNDING_BOX = Some "true"%string)
       && hasBoundTextElement element
    then paint (TextContainerBox element) context
    else context.

(** The result of a call, the context and the module state after it; a
    throw leaves what was done before it in place. *)
Definition unconditionalRenderElement (element : ExcalidrawElement)
    (elementsMap allElementsMap : ElementsMap) (context : Context2D)
    (renderConfig : StaticCanvasRenderConfig) (appState : AppState) (st : State)
  : result unit * Context2D * State :=
  let context :=
    set_globalAlpha
      (getRenderOpacity element (getContainingFrame element elementsMap)
                        (elementsPendingErasure renderConfig)) context in
  let type := Element.type element in
  if bool_decide (type = "magicframe"%string) || bool_decide (type = "frame"%string) then
    let context :=
      if fr_enabled (AppState.frameRendering appState)
         && fr_outline (AppState.frameRendering appState)
      then paint (FrameOutline element) context
      else context in
    (Ok (), set_globalAlpha 1 context, st)
  else if bool_decide (type = "freedraw"%string) then
    match generateElementWithCanvas element elementsMap (Some renderConfig) appState
                                    (elementWithCanvasCache st) with
    | (Ok elementWithCanvas, cache) =>
        let context := drawElementFromCanvas elementWithCanvas context allElementsMap in
        (Ok (), set_globalAlpha 1 context, set_cache cache st)
    | (Throw msg, cache) => (Throw msg, context, set_cache cache st)
    end
  else if bool_decide (type = "rectangle"%string)
       || bool_decide (type = "diamond"%string)
       || bool_decide (type = "ellipse"%string)
       || bool_decide (type = "line"%string)
       || bool_decide (type = "arrow"%string)
       || bool_decide (type = "image"%string)
       || bool_decide (type = "text"%string)
       || bool_decide (type = "iframe"%string)
       || bool_decide (type = "embeddable"%string) then
    match generateElementWithCanvas element elementsMap (Some renderConfig) appState
                                    (elementWithCanvasCache st) with
    | (Ok elementWithCanvas, cache) =>
        let currentImageSmoothingStatus := imageSmoothingEnabled context in
        let context :=
          if negb (AppState.shouldCacheIgnoreZoom appState)
             && (negb (truthy_num (Element.angle element))
                 || isRightAngle (Element.angle element))
          then set_imageSmoothingEnabled false context
          else context in
        let context := drawElementFromCanvas elementWithCanvas context allElementsMap in
        let context := set_imageSmoothingEnabled currentImageSmoothingStatus context in
        (Ok (), set_globalAlpha 1 context, set_cache cache st)
    | (Throw msg, cache) => (Throw msg, context, set_cache cache st)
    end
  else
    (Throw ("Unimplemented type " +:+ type), context, st).

(** The test that sends an element to the clipping-mask compositor. *)
Definition isMaskTagged (myelement : ExcalidrawElement) : bool :=
  Element.isMakeClippingMask myelement
  && truthy_str (Element.clippingMaskId myelement)
  && truthy_int (Element.cmGroupLength myelement)
  && truthy_int (Element.cmeIndex myelement).

(** [maskedElements.forEach((maskedElement, index) => ...)], from [index] on;
    a throw ends the loop. *)
Fixpoint drawMasked (cmGroupLength : Z) (index : Z)
    (maskedElements : list ExcalidrawElement)
    (elementsMap allElementsMap : ElementsMap) (tempCtx : Context2D)
    (renderConfig : StaticCanvasRenderConfig) (appState : AppState) (st : State)
  : result unit * Context2D * State :=
  match maskedElements with
  | [] => (Ok (), tempCtx, st)
  | maskedElement :: rest =>
      let tempCtx :=
        if bool_decide (index = cmGroupLength - 1)%Z
        then set_globalCompositeOperation "destination-in" tempCtx
        else tempCtx in
      match unconditionalRenderElement maskedElement elementsMap allElementsMap
                                       tempCtx renderConfig appState st with
      | (Ok _, tempCtx, st) =>
          drawMasked cmGroupLength (index + 1)%Z rest elementsMap allElementsMap
                     tempCtx renderConfig appState st
      | (Throw msg, tempCtx, st) => (Throw msg, tempCtx, st)
      end
  end.

Definition renderElement (element : ExcalidrawElement)
    (elementsMap allElementsMap : ElementsMap) (context : Context2D)
    (renderConfig : StaticCanvasRenderConfig) (appState : AppState) (st : State)
  : result unit * Context2D * State :=
  let myelement := element in
  if isMaskTagged myelement then
    let clippingMaskId := Element.clippingMaskId myelement in
    let accumulated :=
      default [] (maskedElementsMap st !! clippingMaskId) ++ [myelement] in
    let st := set_masked (<[clippingMaskId := accumulated]> (maskedElementsMap st)) st in
    if bool_decide (Z.of_nat (length accumulated) = Element.cmGroupLength myelement) then
      let winw := Math_floor (innerWidth / zoom_value (AppState.zoom appState)) in
      let winh := Math_floor (innerHeight / zoom_value (AppState.zoom appState)) in
      let maskedElements :=
        sort (fun a b => localeCompare (Element.index a) (Element.index b)) accumulated in
      (* the array held by the map is sorted in place *)
      let st := set_masked (<[clippingMaskId := maskedElements]> (maskedElementsMap st)) st in
      match drawMasked (Element.cmGroupLength myelement) 0 maskedElements
                       elementsMap allElementsMap newContext renderConfig appState st with
      | (Ok _, tempCtx, st) =>
          let st := set_images (<[clippingMaskId := commands tempCtx]> (documentImages st)) st in
          let context := issue (DrawImage (commands tempCtx) winw winh) context in
          let st := set_masked (delete clippingMaskId (maskedElementsMap st)) st in
          (Ok (), context, st)
      | (Throw msg, _, st) => (Throw msg, context, st)
      end
    else (Ok (), context, st)
  else
    unconditionalRenderElement element elementsMap allElementsMap context
                               renderConfig appState st.

End WithCollaborators.

(** ** The size of the offscreen canvas *)

Definition getCanvasPadding (element : ExcalidrawElement) : number :=
  if bool_decide (Element.type element = "freedraw"%string)
  then Element.strokeWidth element * 12
  else 20.

(** [{width, height, scale}] *)
Record CanvasSize : Type := mkCanvasSize {
  canvas_width : number;
  canvas_height : number;
  canvas_scale : number;
}.

Section CanvasSize.
Context `{B : BoundsTs.Collaborators}.
(** [distance] of utils.ts *)
Variable distance : number -> number -> number.
(** [window.devicePixelRatio] *)
Variable devicePixelRatio : number.

(** The rescaling of [cappedElementCanvasSize] on the uncapped [width] and
    [height].  The limit divided by zero is [Infinity], which [Math.min]
    drops; the area test is met by a positive area only. *)
Definition cappedScale (width height zoomValue : number) : number :=
  let AREA_LIMIT := 16777216 in
  let WIDTH_HEIGHT_LIMIT := 32767 in
  let scale := zoomValue in
  let scale :=
    if bool_decide (width * scale > WIDTH_HEIGHT_LIMIT)
       || bool_decide (height * scale > WIDTH_HEIGHT_LIMIT)
    then
      if decide (width = 0) then WIDTH_HEIGHT_LIMIT / height
      else if decide (height = 0) then WIDTH_HEIGHT_LIMIT / width
      else Math_min (WIDTH_HEIGHT_LIMIT / width) (WIDTH_HEIGHT_LIMIT / height)
    else scale in
  if bool_decide (width * height * scale * scale > AREA_LIMIT)
  then sqrt (AREA_LIMIT / (width * height))
  else scale.

(** [None] stands for the sizes of a freedraw element without points, which
    are not numbers. *)
Definition cappedElementCanvasSize (element : ExcalidrawElement)
    (elementsMap : ElementsMap) (zoom : Zoom) : option CanvasSize :=
  let padding := getCanvasPadding element in
  match BoundsTs.getElementAbsoluteCoords element elementsMap false with
  | None => None
  | Some (x1, y1, x2, y2, _, _) =>
      let elementWidth :=
        if isLinearElement element || isFreeDrawElement element
        then distance x1 x2 else Element.width element in
      let elementHeight :=
        if isLinearElement element || isFreeDrawElement element
        then distance y1 y2 else Element.height element in
      let width := elementWidth * devicePixelRatio + padding * 2 in
      let height := elementHeight * devicePixelRatio + padding * 2 in
      let scale := cappedScale width height (zoom_value zoom) in
      Some (mkCanvasSize (Math_floor (width * scale)) (Math_floor (height * scale)) scale)
  end.

End CanvasSize.

End RenderElementTs.

(** * packages/excalidraw/actions/actionGroup.tsx *)

Module ActionGroupTsx.

Inductive StoreAction : Type := NONE | CAPTURE.

(** [{ appState, elements, storeAction }] *)
Record ActionResult : Type := mkActionResult {
  res_appState : AppState;
  res_elements : list ExcalidrawElement;
  res_storeAction : StoreAction;
}.

(** Modelled from the spec: [groups.ts] is missing; an element belongs to a
    group when its list of group ids holds the group id. *)
Definition isElementInGroup (element : ExcalidrawElement) (groupId : string) : bool :=
  bool_decide (groupId ∈ Element.groupIds element).

(** Modelled from the spec: [groups.ts] is missing; the elements of a group
    are those elements of the list that belong to it, in their order. *)
Definition getElementsInGroup (elements : list ExcalidrawElement) (groupId : string)
  : list ExcalidrawElement :=
  List.filter (fun element => isElementInGroup element groupId) elements.

Class Collaborators : Type := {
  (** [app.scene.getSelectedElements({selectedElementIds,
      includeBoundTextElement})] *)
  getSelectedElements : gmap string bool -> bool -> list ExcalidrawElement;
  (** groups.ts *)
  getSelectedGroupIds : AppState -> list string;
  addToGroup : list string -> string -> option string -> list string;
  selectGroup : string -> AppState -> list ExcalidrawElement
                -> gmap string bool * gmap string bool * option string;
  (** [newElementWith(element, {groupIds})] *)
  newElementWith_groupIds : ExcalidrawElement -> list string -> ExcalidrawElement;
  (** [groupByFrameLikes] and [removeElementsFromFrame], which update the
      selected elements in place: the scene list afterwards *)
  removeSelectedFromFrames :
    list ExcalidrawElement -> list ExcalidrawElement -> list ExcalidrawElement;
  (** fractionalIndex.ts, element/index.ts *)
  syncMovedIndices :
    list ExcalidrawElement -> list ExcalidrawElement -> list ExcalidrawElement;
  getNonDeletedElements : list ExcalidrawElement -> list ExcalidrawElement;
}.

(** [elements.findIndex((element) => element.id === elementId)], [None] for
    [-1]. *)
Fixpoint getElementIndex (elements : list ExcalidrawElement) (elementId : string)
  : option nat :=
  match elements with
  | [] => None
  | element :: rest =>
      if bool_decide (Element.id element = elementId) then Some 0%nat
      else S <$> getElementIndex rest elementId
  end.

(** [array.lastIndexOf(object)], by object identity; [None] for [-1]. *)
Fixpoint lastIndexOf (elements : list ExcalidrawElement) (o : positive) : option nat :=
  match elements with
  | [] => None
  | element :: rest =>
      match lastIndexOf rest o with
      | Some i => Some (S i)
      | None => if bool_decide (Element.obj element = o) then Some 0%nat else None
      end
  end.

(** [value ? value : fallback] on numbers *)
Definition orElse (value fallback : number) : number :=
  if truthy_num value then value else fallback.

(** [elements.length >= 2] and some group id of the first element is held by
    every element. *)
Definition allElementsInSameGroup (elements : list ExcalidrawElement) : bool :=
  if bool_decide (2 <= length elements)%nat then
    match elements with
    | first :: _ =>
        existsb
          (fun groupId =>
             foldl (fun acc element => acc && isElementInGroup element groupId) true elements)
          (Element.groupIds first)
    | [] => false
    end
  else false.

Section WithCollaborators.
Context `{C : Collaborators}.

(** ** actionMakeClippingMask *)

(** The list [nextElements] after
    [nextElements.map((element) => selectElementIds.get(element.id) ? copy : element)]. *)
Definition regroup (elements selectedElements : list ExcalidrawElement)
    (newGroupId : string) (appState : AppState) : list ExcalidrawElement :=
  let selectElementIds := BoundsTs.arrayToMap selectedElements in
  List.map
    (fun element =>
       if negb (bool_decide (is_Some (selectElementIds !! Element.id element)))
       then element
       else newElementWith_groupIds element
              (addToGroup (Element.groupIds element) newGroupId
                          (AppState.editingGroupId appState)))
    elements.

(** The objects after the loop
    [group.map((elementInGroup, Index) => Object.assign(elementInGroup, {...,
    cmeIndex: Index + 1}))]: an object of the group holds what the last
    assignment to it wrote. *)
Definition assigned (group : list ExcalidrawElement) (clippingMaskId : string)
    (element : ExcalidrawElement) : ExcalidrawElement :=
  match lastIndexOf group (Element.obj element) with
  | Some Index =>
      Element.assign_mask true clippingMaskId (Z.of_nat (length group))
                          (Z.of_nat Index + 1) element
  | None => element
  end.

(** [true] when the selection adds nothing to the one selected group. *)
Definition alreadyGrouped (elements selectedElements : list ExcalidrawElement)
    (appState : AppState) : bool :=
  match getSelectedGroupIds appState with
  | [selectedGroupId] =>
      let elementIdsInGroup : gset string :=
        list_to_set (Element.id <$> getElementsInGroup elements selectedGroupId) in
      let selectedElementIds : gset string :=
        list_to_set (Element.id <$> selectedElements) in
      let combinedSet := elementIdsInGroup ∪ selectedElementIds in
      bool_decide (size combinedSet = size elementIdsInGroup)
  | _ => false
  end.

(** The scene list once the selected elements that sit in different frames
    have been taken out of their frames. *)
Definition unframe (selectedElements elements : list ExcalidrawElement)
  : list ExcalidrawElement :=
  let groupingElementsFromDifferentFrames :=
    bool_decide (1 < size (list_to_set (Element.frameId <$> selectedElements)
                           : gset (option string)))%nat in
  if groupingElementsFromDifferentFrames
  then removeSelectedFromFrames selectedElements elements
  else elements.

(** [[...elementsBeforeGroup, ...elementsInGroup, ...elementsAfterGroup]]:
    the group moves to the place of its last element. *)
Definition moveGroup (nextElements elementsInGroup : list ExcalidrawElement)
    (newGroupId : string) : list ExcalidrawElement :=
  match last elementsInGroup with
  | Some lastElementInGroup =>
      match lastIndexOf nextElements (Element.obj lastElementInGroup) with
      | Some lastGroupElementIndex =>
          let elementsAfterGroup := drop (lastGroupElementIndex + 1) nextElements in
          let elementsBeforeGroup :=
            List.filter (fun updatedElement =>
                           negb (isElementInGroup updatedElement newGroupId))
                        (take lastGroupElementIndex nextElements) in
          elementsBeforeGroup ++ elementsInGroup ++ elementsAfterGroup
      | None =>
          (* not reached: the object is in [nextElements] *)
          elementsInGroup ++ nextElements
      end
  | None =>
      (* [lastIndexOf(undefined)] is [-1]: [slice(0, -1)] and [slice(0)] *)
      List.filter (fun updatedElement =>
                     negb (isElementInGroup updatedElement newGroupId))
                  (take (length nextElements - 1) nextElements)
      ++ nextElements
  end.

(** [perform] of [actionMakeClippingMask]; [newGroupId] and [clippingMaskId]
    are the two ids that [randomId()] returns. *)
Definition actionMakeClippingMask (newGroupId clippingMaskId : string)
    (elements : list ExcalidrawElement) (appState : AppState) : ActionResult :=
  let selectedElements :=
    getSelectedElements (AppState.selectedElementIds appState) true in
  if bool_decide (length selectedElements < 2)%nat then
    mkActionResult appState elements NONE
  else if alreadyGrouped elements selectedElements appState then
    mkActionResult appState elements NONE
  else
    let elements := unframe selectedElements elements in
    let nextElements := regroup elements selectedElements newGroupId appState in
    let group := getElementsInGroup nextElements newGroupId in
    (* [Object.assign] writes into the objects that [nextElements] holds *)
    let elementsInGroup := assigned group clippingMaskId <$> group in
    let nextElements := assigned group clippingMaskId <$> nextElements in
    let reorderedElements :=
      syncMovedIndices (moveGroup nextElements elementsInGroup newGroupId)
                       elementsInGroup in
    let '(selectedElementIds', selectedGroupIds', editingGroupId') :=
      selectGroup newGroupId
                  (AppState.with_selection (AppState.selectedElementIds appState)
                                           (∅ : gmap string bool)
                                           (AppState.editingGroupId appState) appState)
                  (getNonDeletedElements nextElements) in
    mkActionResult
      (AppState.with_selection selectedElementIds' selectedGroupIds' editingGroupId' appState)
      reorderedElements CAPTURE.

(** ** actionCropImage *)

(** [nextElements[selectedElementIndex] = value]; index [-1] sets no entry of
    the list. *)
Definition setAt (l : list ExcalidrawElement) (i : option nat) (v : ExcalidrawElement)
  : list ExcalidrawElement :=
  match i with
  | Some i => <[i := v]> l
  | None => l
  end.

(** The crop rectangle that [perform] computes from the previous one. *)
Definition nextCropProperties (selectedElement : ExcalidrawElement)
    (previous : CropProperties) : CropProperties :=
  let width := Element.width selectedElement in
  let height := Element.height selectedElement in
  mkCrop (orElse (crop_x previous) (width / 2 - (0.8 * width) / 2))
         (orElse (crop_y previous) (height / 2 - (0.8 * height) / 2))
         (orElse (crop_width previous) (0.8 * width))
         (orElse (crop_height previous) (0.8 * height)).

(** [perform] of [actionCropImage].  Reading [type] of [selectedElements[0]]
    without a selection, or [x] of a missing [cropProperties], throws a
    [TypeError]. *)
Definition actionCropImage (elements : list ExcalidrawElement) (appState : AppState)
  : result ActionResult :=
  let selectedElements :=
    getSelectedElements (AppState.selectedElementIds appState) false in
  match selectedElements with
  | [] => Throw "TypeError"
  | selectedElement :: _ =>
      if bool_decide (length selectedElements <> 1)%nat
         && bool_decide (Element.type selectedElement <> "image"%string)
      then Ok (mkActionResult appState elements NONE)
      else
        let selectedElementIndex := getElementIndex elements (Element.id selectedElement) in
        match Element.cropProperties selectedElement with
        | None => Throw "TypeError"
        | Some previous =>
            let cropProperties := nextCropProperties selectedElement previous in
            let nextElements :=
              setAt elements selectedElementIndex
                    (Element.assign_crop true true true cropProperties selectedElement) in
            Ok (mkActionResult
                  (AppState.assign_lastCropImageId (Element.id selectedElement) appState)
                  nextElements CAPTURE)
        end
  end.

(** ** actionGroup *)

Definition enableActionGroup (elements : list ExcalidrawElement) (appState : AppState)
  : bool :=
  let selectedElements :=
    getSelectedElements (AppState.selectedElementIds appState) true in
  bool_decide (2 <= length selectedElements)%nat
  && negb (allElementsInSameGroup selectedElements).

(** [perform] of [actionGroup]; [newGroupId] is the id that [randomId()]
    returns. *)
Definition actionGroup (newGroupId : string)
    (elements : list ExcalidrawElement) (appState : AppState) : ActionResult :=
  let selectedElements :=
    getSelectedElements (AppState.selectedElementIds appState) true in
  if bool_decide (length selectedElements < 2)%nat then
    mkActionResult appState elements NONE
  else if alreadyGrouped elements selectedElements appState then
    mkActionResult appState elements NONE
  else
    let elements := unframe selectedElements elements in
    let nextElements := regroup elements selectedElements newGroupId appState in
    let elementsInGroup := getElementsInGroup nextElements newGroupId in
    let reorderedElements :=
      syncMovedIndices (moveGroup nextElements elementsInGroup newGroupId)
                       elementsInGroup in
    let '(selectedElementIds', selectedGroupIds', editingGroupId') :=
      selectGroup newGroupId
                  (AppState.with_selection (AppState.selectedElementIds appState)
                                           (∅ : gmap string bool)
                                           (AppState.editingGroupId appState) appState)
                  (getNonDeletedElements nextElements) in
    mkActionResult
      (AppState.with_selection selectedElementIds' selectedGroupIds' editingGroupId' appState)
      reorderedElements CAPTURE.

End WithCollaborators.

End ActionGroupTsx.

(** * Vocabulary of the statements *)

(** ** Cubic bezier bound: the quadratic of the derivative *)

Definition derivativeA (p0 p1 p2 p3 : number) : number :=
  3 * (p1 - p0) - 6 * (p2 - p1) + 3 * (p3 - p2).
Definition derivativeB (p0 p1 p2 p3 : number) : number :=
  6 * (p2 - p1) - 6 * (p1 - p0).
Definition derivativeC (p0 p1 p2 p3 : number) : number := 3 * (p1 - p0).
Definition discriminant (p0 p1 p2 p3 : number) : number :=
  derivativeB p0 p1 p2 p3 * derivativeB p0 p1 p2 p3
  - 4 * derivativeA p0 p1 p2 p3 * derivativeC p0 p1 p2 p3.

(** [t] is a root, within [[0, 1]], of the quadratic of one axis. *)
Definition rootInRange (p0 p1 p2 p3 t : number) : Prop :=
  0 <= t <= 1
  /\ derivativeA p0 p1 p2 p3 * t ^ 2 + derivativeB p0 p1 p2 p3 * t
     + derivativeC p0 p1 p2 p3 = 0.

(** The values that [solveQuadratic] hands to [getCubicBezierCurveBound] on
    one axis. *)
Definition survivors (p0 p1 p2 p3 : number) : list number :=
  match BoundsTs.solveQuadratic p0 p1 p2 p3 with
  | Some sol => BoundsTs.notNull sol
  | None => []
  end.

Definition isMinOf (m : number) (l : list number) : Prop :=
  m ∈ l /\ forall v, v ∈ l -> m <= v.
Definition isMaxOf (m : number) (l : list number) : Prop :=
  m ∈ l /\ forall v, v ∈ l -> v <= m.

(** ** Bounds *)

Definition toBox (b : number * number * number * number) : BoundsTs.Bounds :=
  BoundsTs.Box b.1.1.1 b.1.1.2 b.1.2 b.2.

(** [cached] is the entry of the element, stored under a version that is
    not zero and is the version of the element, which is not a label. *)
Definition cachedFresh (boundsCache : gmap positive BoundsTs.CachedBounds)
    (element : ExcalidrawElement) (cached : BoundsTs.CachedBounds) : Prop :=
  boundsCache !! Element.obj element = Some cached
  /\ BoundsTs.cached_version cached <> 0%Z
  /\ BoundsTs.cached_version cached = Element.version element
  /\ isBoundToContainer element = false.

(** The corner rectangle of an element, its corners in order. *)
Definition cornerRectangle (element : ExcalidrawElement) : BoundsTs.Bounds :=
  BoundsTs.Box
    (Math_min (Element.x element) (Element.x element + Element.width element))
    (Math_min (Element.y element) (Element.y element + Element.height element))
    (Math_max (Element.x element) (Element.x element + Element.width element))
    (Math_max (Element.y element) (Element.y element + Element.height element)).

(** The element takes its coordinates from its own box: it is neither
    freehand nor linear, nor a text whose container is an arrow. *)
Definition hasOwnBox `{C : BoundsTs.Collaborators} (element : ExcalidrawElement)
    (elementsMap : ElementsMap) : Prop :=
  isFreeDrawElement element = false
  /\ isLinearElement element = false
  /\ (isTextElement element = true ->
      forall container,
        BoundsTs.getContainerElement element elementsMap = Some container ->
        isArrowElement container = false).

(** A scene list: an object has one state, and an id names one element. *)
Definition wellFormed (elements : list ExcalidrawElement) : Prop :=
  forall e1 e2, e1 ∈ elements -> e2 ∈ elements ->
    Element.obj e1 = Element.obj e2 \/ Element.id e1 = Element.id e2 -> e1 = e2.

(** ** Rendering *)

(** The types with a branch in [drawElementOnCanvas], and those with a branch
    in [unconditionalRenderElement]. *)
Definition drawableTypes : list string :=
  ["rectangle"; "iframe"; "embeddable"; "diamond"; "ellipse"; "arrow"; "line";
   "freedraw"; "image"; "text"]%string.
Definition recognizedTypes : list string := drawableTypes ++ ["frame"; "magicframe"]%string.

(** The zoom that [generateElementWithCanvas] works with. *)
Definition currentZoom `{C : RenderElementTs.Collaborators}
    (renderConfig : option RenderElementTs.StaticCanvasRenderConfig)
    (appState : AppState) : Zoom :=
  match renderConfig with
  | Some _ => AppState.zoom appState
  | None => AppState.zoom RenderElementTs.defaultAppState
  end.

(** The members accumulated for the mask of [element] once it has been
    pushed. *)
Definition accumulatedWith (st : RenderElementTs.State) (element : ExcalidrawElement)
  : list ExcalidrawElement :=
  default [] (RenderElementTs.maskedElementsMap st !! Element.clippingMaskId element)
  ++ [element].

(** The comparison of the sort of a batch. *)
Definition byIndex `{C : RenderElementTs.Collaborators} (a b : ExcalidrawElement) : Z :=
  RenderElementTs.localeCompare (Element.index a) (Element.index b).

(** Successive calls of [renderElement] on a list of elements; a throw is
    handed to the caller. *)
Fixpoint renderElements `{B : BoundsTs.Collaborators} `{C : RenderElementTs.Collaborators}
    (elements : list ExcalidrawElement)
    (elementsMap allElementsMap : ElementsMap) (context : RenderElementTs.Context2D)
    (renderConfig : RenderElementTs.StaticCanvasRenderConfig) (appState : AppState)
    (st : RenderElementTs.State)
  : result unit * RenderElementTs.Context2D * RenderElementTs.State :=
  match elements with
  | [] => (Ok (), context, st)
  | element :: rest =>
      match RenderElementTs.renderElement element elementsMap allElementsMap context
                                          renderConfig appState st with
      | (Ok _, context, st) =>
          renderElements rest elementsMap allElementsMap context renderConfig appState st
      | (Throw msg, context, st) => (Throw msg, context, st)
      end
  end.

(** The element is a member of the batch [clippingMaskId] of declared size
    [cmGroupLength]. *)
Definition memberOf (clippingMaskId : string) (cmGroupLength : Z)
    (element : ExcalidrawElement) : Prop :=
  RenderElementTs.isMaskTagged element = true
  /\ Element.clippingMaskId element = clippingMaskId
  /\ Element.cmGroupLength element = cmGroupLength.

(** ** Actions *)

(** The crop rectangle lies within [[0, 0, width, height]] of the element. *)
Definition cropContained (element : ExcalidrawElement) (p : CropProperties) : Prop :=
  0 <= crop_x p /\ 0 <= crop_y p /\ 0 <= crop_width p /\ 0 <= crop_height p
  /\ crop_x p + crop_width p <= Element.width element
  /\ crop_y p + crop_height p <= Element.height element.

Definition cropStrictlyInside (element : ExcalidrawElement) (p : CropProperties) : Prop :=
  0 < crop_x p /\ 0 < crop_y p /\ 0 < crop_width p /\ 0 < crop_height p
  /\ crop_x p + crop_width p < Element.width element
  /\ crop_y p + crop_height p < Element.height element.

(** What the compositor reads of an element, and the same with the group
    ids. *)
Definition maskProps (e : ExcalidrawElement) : bool * string * Z * Z :=
  (Element.isMakeClippingMask e, Element.clippingMaskId e,
   Element.cmGroupLength e, Element.cmeIndex e).
Definition maskView (e : ExcalidrawElement) : list string * (bool * string * Z * Z) :=
  (Element.groupIds e, maskProps e).
Definition viewInGroup (groupId : string) (v : list string * (bool * string * Z * Z))
  : bool :=
  bool_decide (groupId ∈ v.1).

(** ** Curves and paths *)

(** The point lies within the bounds; nothing lies within the seeds. *)
Definition within (b : BoundsTs.Bounds) (p : Point) : Prop :=
  match b with
  | BoundsTs.Box minX minY maxX maxY => minX <= p.1 <= maxX /\ minY <= p.2 <= maxY
  | BoundsTs.InfBox => False
  end.

(** The point of the cubic segment at the parameter [t]. *)
Definition curvePoint (p0 p1 p2 p3 : Point) (t : number) : Point :=
  (BoundsTs.getBezierValueForT t p0.1 p1.1 p2.1 p3.1,
   BoundsTs.getBezierValueForT t p0.2 p1.2 p2.2 p3.2).

(** The cubic segments that a path draws from the current point
    [currentP]: one for each [bcurveTo], from the current point through the
    three points of the operation, all of them transformed; [move] and
    [bcurveTo] set the current point. *)
Fixpoint curveSegments (transformXY : option (number -> number -> Point))
    (currentP : Point) (ops : list BoundsTs.Op) : list (Point * Point * Point * Point) :=
  let tr (p : Point) : Point :=
    match transformXY with
    | Some f => f p.1 p.2
    | None => p
    end in
  match ops with
  | [] => []
  | o :: rest =>
      let d := BoundsTs.at_ (BoundsTs.data o) in
      if bool_decide (BoundsTs.op o = "move"%string) then
        curveSegments transformXY (d 0%nat, d 1%nat) rest
      else if bool_decide (BoundsTs.op o = "bcurveTo"%string) then
        (tr currentP, tr (d 0%nat, d 1%nat), tr (d 2%nat, d 3%nat), tr (d 4%nat, d 5%nat))
        :: curveSegments transformXY (d 4%nat, d 5%nat) rest
      else curveSegments transformXY currentP rest
  end.

(** ** Bounds in order *)

(** The bounds are numbers, and their corners are in order. *)
Definition ordered (b : BoundsTs.Bounds) : Prop :=
  match b with
  | BoundsTs.Box minX minY maxX maxY => minX <= maxX /\ minY <= maxY
  | BoundsTs.InfBox => False
  end.

(** The element with its origin moved by [(dx, dy)]. *)
Definition moved (dx dy : number) (e : ExcalidrawElement) : ExcalidrawElement :=
  Element.mk (Element.obj e) (Element.id e) (Element.type e)
    (Element.x e + dx) (Element.y e + dy) (Element.width e) (Element.height e)
    (Element.angle e) (Element.version e) (Element.index e) (Element.opacity e)
    (Element.strokeWidth e) (Element.groupIds e) (Element.frameId e) (Element.points e)
    (Element.containerId e) (Element.isMakeClippingMask e) (Element.clippingMaskId e)
    (Element.cmGroupLength e) (Element.cmeIndex e) (Element.akhonRenderKoraUchit e)
    (Element.isRenderCropWindow e) (Element.isCroppedImage e) (Element.cropProperties e).

(** The element computes its bounds from its own fields: it is neither
    linear nor a text. *)
Definition ownGeometry (e : ExcalidrawElement) : Prop :=
  isLinearElement e = false /\ isTextElement e = false.

(** The distance from the centre of the bounds to [from]; bounds that are
    not numbers have no centre. *)
Definition centreDistance (distance2d : number -> number -> number -> number -> number)
    (from : Point) (b : BoundsTs.Bounds) : option number :=
  match b with
  | BoundsTs.Box x1 y1 x2 y2 => Some (distance2d ((x1 + x2) / 2) ((y1 + y2) / 2) from.1 from.2)
  | BoundsTs.InfBox => None
  end.

(** ** Hit tests *)

(** The key [h] of [handles] holds a handle, and the pointer is inside it. *)
Definition handleHit (handles : ResizeTestTs.TransformHandles) (x y : number) (h : string)
  : Prop :=
  exists handle,
    (h, Some handle) ∈ handles /\ ResizeTestTs.isInsideTransformHandle handle x y = true.

(** The pointer is on the side [h] of [sides], within [SPACING]. *)
Definition sideHit `{C : ResizeTestTs.Collaborators}
    (sides : list (string * ResizeTestTs.Line)) (x y SPACING : number) (h : string) : Prop :=
  exists side,
    (h, side) ∈ sides /\ ResizeTestTs.pointOnLine (x, y) side SPACING = true.

(** The sides of the box [coords] of an element, moved outwards by
    [SIDE_RESIZING_THRESHOLD / zoom.value], and the sides of its crop window
    [crop], both turned with the element. *)
Definition boxSides `{C : ResizeTestTs.Collaborators} (element : ExcalidrawElement)
    (coords : BoundsTs.Coords) (zoom : Zoom) : list (string * ResizeTestTs.Line) :=
  let '(x1, y1, x2, y2, cx, cy) := coords in
  let SPACING := ResizeTestTs.SIDE_RESIZING_THRESHOLD / zoom_value zoom in
  ResizeTestTs.getSelectionBorders
    (x1 - SPACING, y1 - SPACING) (x2 + SPACING, y2 + SPACING) (cx, cy)
    (ResizeTestTs.angleToDegrees (Element.angle element)).

Definition cropWindowSides `{C : ResizeTestTs.Collaborators} (element : ExcalidrawElement)
    (coords : BoundsTs.Coords) (crop : CropProperties) : list (string * ResizeTestTs.Line) :=
  let '(x1, y1, _, _, _, _) := coords in
  ResizeTestTs.getSelectionBorders
    (x1 + crop_x crop, y1 + crop_y crop)
    (x1 + crop_x crop + crop_width crop, y1 + crop_y crop + crop_height crop)
    (Element.x element + Element.width element / 2,
     Element.y element + Element.height element / 2)
    (ResizeTestTs.angleToDegrees (Element.angle element)).

(** The answer of a hit test counts as no hit: it is [false] or the empty
    string. *)
Definition noHit (answer : option string) : Prop :=
  answer = None \/ answer = Some ""%string.

(** ** Cursors *)

(** The eight handles of the compass, and the four cursors. *)
Definition compassHandles : list string :=
  ["n"; "s"; "w"; "e"; "nw"; "se"; "ne"; "sw"]%string.
Definition resizeCursors : list string :=
  ["ns-resize"; "nesw-resize"; "ew-resize"; "nwse-resize"]%string.

(** The element turned by [angle] more. *)
Definition turned (angle : number) (e : ExcalidrawElement) : ExcalidrawElement :=
  Element.mk (Element.obj e) (Element.id e) (Element.type e)
    (Element.x e) (Element.y e) (Element.width e) (Element.height e)
    (Element.angle e + angle) (Element.version e) (Element.index e) (Element.opacity e)
    (Element.strokeWidth e) (Element.groupIds e) (Element.frameId e) (Element.points e)
    (Element.containerId e) (Element.isMakeClippingMask e) (Element.clippingMaskId e)
    (Element.cmGroupLength e) (Element.cmeIndex e) (Element.akhonRenderKoraUchit e)
    (Element.isRenderCropWindow e) (Element.isCroppedImage e) (Element.cropProperties e).

(** * Scenes used in the examples *)

Module Scenes.

(** A scene without labels, frames and curved lines: the collaborators of
    bounds.ts answer accordingly. *)
Definition bounds : BoundsTs.Collaborators := {|
  BoundsTs.LinearElementEditor_getElementAbsoluteCoords := fun e _ _ =>
    (Element.x e, Element.y e,
     Element.x e + Element.width e, Element.y e + Element.height e,
     Element.x e + Element.width e / 2, Element.y e + Element.height e / 2);
  BoundsTs.LinearElementEditor_getBoundTextElementPosition := fun c _ _ =>
    (Element.x c, Element.y c);
  BoundsTs.LinearElementEditor_getMinMaxXYWithBoundText := fun _ _ b _ => b;
  BoundsTs.getBoundTextElement := fun _ _ => None;
  BoundsTs.getContainerElement := fun e m => Element.containerId e ≫= fun i => m !! i;
  BoundsTs.linearElementShape := fun _ =>
    BoundsTs.mkDrawable (BoundsTs.mkOpSet "path" []) [];
|}.

Definition appState : AppState :=
  AppState.mk ∅ ∅ None (mkZoom 1) "light" false 0 0 (mkFrameRendering true true) None.

Definition selecting (ids : list string) : AppState :=
  AppState.with_selection (list_to_map ((fun i => (i, true)) <$> ids)) ∅ None appState.

(** Transform handles of a 100 x 100 element: the rotation handle overlaps
    the handle of the top edge, and every point counts as on every side. *)
Definition resize : ResizeTestTs.Collaborators := {|
  ResizeTestTs.Device := unit;
  ResizeTestTs.PointerType := unit;
  ResizeTestTs.OmitSides := unit;
  ResizeTestTs.getTransformHandles := fun _ _ _ _ _ =>
    [("n"%string, Some (0, 0, 100, 10)); ("rotation"%string, Some (40, 0, 20, 20))];
  ResizeTestTs.getCropTransformHandles := fun _ _ _ _ _ => [];
  ResizeTestTs.getOmitSidesForDevice := fun _ => ();
  ResizeTestTs.canResizeFromSides := fun _ => true;
  ResizeTestTs.SIDE_RESIZING_THRESHOLD := 16;
  ResizeTestTs.angleToDegrees := fun a => a;
  ResizeTestTs.pointOnLine := fun _ _ _ => true;
  ResizeTestTs.pointRotate := fun p _ _ => p;
|}.

Definition render : RenderElementTs.Collaborators := {|
  RenderElementTs.getContainingFrame := fun _ _ => None;
  RenderElementTs.defaultAppState := appState;
  RenderElementTs.ELEMENT_READY_TO_ERASE_OPACITY := 20;
  RenderElementTs.isRightAngle := fun _ => false;
  RenderElementTs.localeCompare := fun a b =>
    match String.compare a b with
    | Lt => (-1)%Z
    | Eq => 0%Z
    | Gt => 1%Z
    end;
  RenderElementTs.innerWidth := 800;
  RenderElementTs.innerHeight := 600;
  RenderElementTs.VITE_APP_DEBUG_ENABLE_TEXT_CONTAINER_BOUNDING_BOX := None;
  RenderElementTs.hasBoundTextElement := fun _ => false;
|}.

Definition renderConfig : RenderElementTs.StaticCanvasRenderConfig :=
  RenderElementTs.mkRenderConfig ∅ false.

Definition emptyState : RenderElementTs.State := RenderElementTs.mkState ∅ ∅ ∅.

(** The scene answers with its selected elements; a copy is a new object;
    group ids are appended; indices are left as they are. *)
Definition actions (scene : list ExcalidrawElement) : ActionGroupTsx.Collaborators := {|
  ActionGroupTsx.getSelectedElements := fun selectedElementIds _ =>
    List.filter (fun e => isSet selectedElementIds (Element.id e)) scene;
  ActionGroupTsx.getSelectedGroupIds := fun s =>
    (List.filter (fun kv => kv.2) (map_to_list (AppState.selectedGroupIds s))).*1;
  ActionGroupTsx.addToGroup := fun prevGroupIds newGroupId _ => prevGroupIds ++ [newGroupId];
  ActionGroupTsx.selectGroup := fun groupId s _ =>
    (AppState.selectedElementIds s, <[groupId := true]> (AppState.selectedGroupIds s),
     AppState.editingGroupId s);
  ActionGroupTsx.newElementWith_groupIds := fun e g =>
    Element.with_groupIds (Element.obj e + 100)%positive g e;
  ActionGroupTsx.removeSelectedFromFrames := fun _ elements => elements;
  ActionGroupTsx.syncMovedIndices := fun elements _ => elements;
  ActionGroupTsx.getNonDeletedElements := fun elements => elements;
|}.

Definition rectangleA : ExcalidrawElement := Element.plain 1 "a" "rectangle" 0 0 10 10 0.
Definition rectangleB : ExcalidrawElement := Element.plain 2 "b" "rectangle" 5 5 20 20 0.
Definition ellipseC : ExcalidrawElement := Element.plain 3 "c" "ellipse" 0 0 30 30 0.
Definition diamond : ExcalidrawElement := Element.plain 4 "d" "diamond" 7 3 100 50 0.

(** Drawn from right to left: the width is negative. *)
Definition flippedRectangle : ExcalidrawElement :=
  Element.plain 5 "f" "rectangle" 0 0 (-10) 10 0.

(** Drawn up and to the left of its first point. *)
Definition freedrawUpLeft : ExcalidrawElement :=
  Element.with_points [(0, 0); (-10, -10)] (Element.plain 6 "s" "freedraw" 0 0 10 10 0).

(** A line that has its first point only. *)
Definition lineOfOnePoint : ExcalidrawElement :=
  Element.with_points [(0, 0)] (Element.plain 9 "l" "line" 3 4 0 0 0).

(** An element at version [0] and a cache entry stored under version [0]. *)
Definition versionZero : ExcalidrawElement := Element.with_version 0 rectangleA.
Definition versionZeroCache : gmap positive BoundsTs.CachedBounds :=
  {[ 1%positive := BoundsTs.mkCached (BoundsTs.Box 5 5 6 6) 0 ]}.

Definition frame : ExcalidrawElement := Element.plain 7 "fr" "frame" 0 0 100 100 0.

(** The frame at another opacity, and a rectangle inside the frame. *)
Definition frameAt (opacity : number) : ExcalidrawElement :=
  Element.mk 7 "fr" "frame" 0 0 100 100 0 1%Z "a0" opacity 1 [] None [] None
             false "" 0%Z 0%Z None None None None.
Definition framedRectangle : ExcalidrawElement :=
  Element.mk 8 "k" "rectangle" 10 10 10 10 0 1%Z "a1" 100 1 [] (Some "fr"%string) [] None
             false "" 0%Z 0%Z None None None None.

(** The renderer of a scene with frames: the containing frame of an element
    is the element that its [frameId] names. *)
Definition framed : RenderElementTs.Collaborators := {|
  RenderElementTs.getContainingFrame := fun e m => Element.frameId e ≫= fun i => m !! i;
  RenderElementTs.defaultAppState := appState;
  RenderElementTs.ELEMENT_READY_TO_ERASE_OPACITY := 20;
  RenderElementTs.isRightAngle := fun _ => false;
  RenderElementTs.localeCompare := fun a b =>
    match String.compare a b with
    | Lt => (-1)%Z
    | Eq => 0%Z
    | Gt => 1%Z
    end;
  RenderElementTs.innerWidth := 800;
  RenderElementTs.innerHeight := 600;
  RenderElementTs.VITE_APP_DEBUG_ENABLE_TEXT_CONTAINER_BOUNDING_BOX := None;
  RenderElementTs.hasBoundTextElement := fun _ => false;
|}.

(** A batch of declared size three, and a tagged element of a type without a
    branch in the draw dispatch. *)
Definition masked (o : positive) (i ty : string) (cmeIndex : Z) : ExcalidrawElement :=
  Element.assign_mask true "mask" 3 cmeIndex (Element.plain o i ty 0 0 10 10 0).
Definition masked1 : ExcalidrawElement := masked 11 "m1" "rectangle" 1.
Definition masked2 : ExcalidrawElement := masked 12 "m2" "ellipse" 2.
Definition masked3 : ExcalidrawElement := masked 13 "m3" "diamond" 3.
Definition maskedSelection : ExcalidrawElement :=
  Element.assign_mask true "lone" 1 1 (Element.plain 14 "sel" "selection" 0 0 10 10 0).

(** Images of 100 x 100: without crop coordinates, and cropped to the full
    image. *)
Definition image (p : CropProperties) : ExcalidrawElement :=
  Element.assign_crop false false false p (Element.plain 21 "img" "image" 0 0 100 100 0).
Definition imageUncropped : ExcalidrawElement := image (mkCrop 0 0 0 0).
Definition imageFull : ExcalidrawElement := image (mkCrop 0 0 100 100).

(** An image as stored before cropping existed: none of the crop properties
    is there. *)
Definition imageLegacy : ExcalidrawElement :=
  Element.plain 22 "img" "image" 0 0 100 100 0.

(** An image in crop mode: the pointer is in no transform handle, the crop
    window has its handle of the top left corner, and the device does not
    resize from the sides. *)
Definition cropping : ResizeTestTs.Collaborators := {|
  ResizeTestTs.Device := unit;
  ResizeTestTs.PointerType := unit;
  ResizeTestTs.OmitSides := unit;
  ResizeTestTs.getTransformHandles := fun _ _ _ _ _ => [];
  ResizeTestTs.getCropTransformHandles := fun _ _ _ _ _ =>
    [("nw"%string, Some (10, 10, 8, 8))];
  ResizeTestTs.getOmitSidesForDevice := fun _ => ();
  ResizeTestTs.canResizeFromSides := fun _ => false;
  ResizeTestTs.SIDE_RESIZING_THRESHOLD := 16;
  ResizeTestTs.angleToDegrees := fun a => a;
  ResizeTestTs.pointOnLine := fun _ _ _ => false;
  ResizeTestTs.pointRotate := fun p _ _ => p;
|}.

(** A rectangle turned by a quarter turn against the clock. *)
Definition turnedBack : ExcalidrawElement := turned (- (PI / 2)) rectangleA.

End Scenes.

(** * Properties *)

Ltac Rdecide :=
  repeat match goal with
  | |- context [decide ?P] =>
      lazymatch P with
      | context [decide _] => fail
      | _ => destruct (decide P); try lra
      end
  | |- context [bool_decide ?P] =>
      lazymatch P with
      | context [decide _] => fail
      | context [bool_decide _] => fail
      | _ => destruct (bool_decide_reflect P); try lra
      end
  end.

Lemma Math_min_l a b : a <= b -> Math_min a b = a.
Proof. intros; unfold Math_min; Rdecide. Qed.
Lemma Math_min_r a b : b <= a -> Math_min a b = b.
Proof. intros; unfold Math_min; Rdecide. Qed.
Lemma Math_max_l a b : b <= a -> Math_max a b = a.
Proof. intros; unfold Math_max; Rdecide. Qed.
Lemma Math_max_r a b : a <= b -> Math_max a b = b.
Proof. intros; unfold Math_max; Rdecide. Qed.

Lemma Math_min_cases a b : Math_min a b = a \/ Math_min a b = b.
Proof. unfold Math_min; destruct (decide (a <= b)); auto. Qed.
Lemma Math_max_cases a b : Math_max a b = a \/ Math_max a b = b.
Proof. unfold Math_max; destruct (decide (a <= b)); auto. Qed.

(** Evaluates [Math_min] and [Math_max] on numbers that [lra] can compare. *)
Ltac Math_eval :=
  repeat match goal with
  | |- context [Math_min ?a ?b] =>
      first [rewrite (Math_min_l a b) by lra | rewrite (Math_min_r a b) by lra]
  | |- context [Math_max ?a ?b] =>
      first [rewrite (Math_max_l a b) by lra | rewrite (Math_max_r a b) by lra]
  end.

(** ** The analytic bound of a cubic bezier segment *)

Section CubicBezier.
Import BoundsTs.


Lemma valueInRange_Some t p0 p1 p2 p3 v :
  valueInRange t p0 p1 p2 p3 = Some v <->
  exists t', t = Some t' /\ 0 <= t' <= 1 /\ v = getBezierValueForT t' p0 p1 p2 p3.
Proof.
  unfold valueInRange. destruct t as [t|].
  - destruct (bool_decide_reflect (t >= 0)), (bool_decide_reflect (t <= 1)); simpl;
      split; try (intros [= <-]; exists t; repeat split; auto; lra);
      try (intros (t' & [= <-] & Ht & ->); auto; lra); try discriminate.
  - split; [discriminate | intros (t' & [=] & _)].
Qed.

Lemma solveQuadratic_negative p0 p1 p2 p3 :
  discriminant p0 p1 p2 p3 < 0 -> solveQuadratic p0 p1 p2 p3 = None.
Proof.
  unfold discriminant, derivativeA, derivativeB, derivativeC, solveQuadratic. intros H.
  cbn zeta. destruct (bool_decide_reflect
    ((6 * (p2 - p1) - 6 * (p1 - p0)) * (6 * (p2 - p1) - 6 * (p1 - p0))
     - 4 * (3 * (p1 - p0) - 6 * (p2 - p1) + 3 * (p3 - p2)) * (3 * (p1 - p0)) >= 0)); [lra | reflexivity].
Qed.

Lemma solveQuadratic_unfold p0 p1 p2 p3 :
  discriminant p0 p1 p2 p3 >= 0 ->
  solveQuadratic p0 p1 p2 p3 =
    let a := derivativeA p0 p1 p2 p3 in
    let b := derivativeB p0 p1 p2 p3 in
    let c := derivativeC p0 p1 p2 p3 in
    let t1 := if decide (a = 0) then if decide (b = 0) then None else Some (- c / b)
              else Some ((- b + sqrt (discriminant p0 p1 p2 p3)) / (2 * a)) in
    let t2 := if decide (a = 0) then if decide (b = 0) then None else Some (- c / b)
              else Some ((- b - sqrt (discriminant p0 p1 p2 p3)) / (2 * a)) in
    Some (valueInRange t1 p0 p1 p2 p3, valueInRange t2 p0 p1 p2 p3).
Proof.
  unfold discriminant, derivativeA, derivativeB, derivativeC, solveQuadratic. intros H.
  cbn zeta. destruct (bool_decide_reflect
    ((6 * (p2 - p1) - 6 * (p1 - p0)) * (6 * (p2 - p1) - 6 * (p1 - p0))
     - 4 * (3 * (p1 - p0) - 6 * (p2 - p1) + 3 * (p3 - p2)) * (3 * (p1 - p0)) >= 0)); [|lra].
  simpl negb. cbv iota.
  destruct (decide (3 * (p1 - p0) - 6 * (p2 - p1) + 3 * (p3 - p2) = 0)); [|reflexivity].
  destruct (decide (6 * (p2 - p1) - 6 * (p1 - p0) = 0)); reflexivity.
Qed.

Lemma sqrt_discriminant_sq p0 p1 p2 p3 :
  discriminant p0 p1 p2 p3 >= 0 ->
  sqrt (discriminant p0 p1 p2 p3) * sqrt (discriminant p0 p1 p2 p3) = discriminant p0 p1 p2 p3.
Proof. intros H. apply sqrt_sqrt. lra. Qed.

Lemma elem_of_notNull v s1 s2 : v ∈ notNull (s1, s2) <-> s1 = Some v \/ s2 = Some v.
Proof.
  unfold notNull. simpl. destruct s1 as [a|], s2 as [b|]; simpl;
    rewrite ?elem_of_cons, ?elem_of_nil; split; intros H;
    repeat match goal with
           | H : _ \/ _ |- _ => destruct H
           | H : Some _ = Some _ |- _ => injection H as ->
           | H : None = Some _ |- _ => discriminate H
           | H : False |- _ => destruct H
           | H : ?a = ?b |- _ => subst
           end; auto.
Qed.

Lemma survivors_sound p0 p1 p2 p3 v :
  v ∈ survivors p0 p1 p2 p3 ->
  exists t, 0 <= t <= 1
    /\ derivativeA p0 p1 p2 p3 * t ^ 2 + derivativeB p0 p1 p2 p3 * t + derivativeC p0 p1 p2 p3 = 0
    /\ v = getBezierValueForT t p0 p1 p2 p3.
Proof.
  unfold survivors.
  destruct (Rlt_dec (discriminant p0 p1 p2 p3) 0) as [Hd|Hd].
  { rewrite solveQuadratic_negative by assumption. intros H. inversion H. }
  apply Rnot_lt_ge in Hd. rewrite solveQuadratic_unfold by assumption. cbn zeta.
  pose proof (sqrt_discriminant_sq p0 p1 p2 p3 Hd) as Hs.
  set (s := sqrt (discriminant p0 p1 p2 p3)) in *.
  unfold discriminant in Hs.
  set (a := derivativeA p0 p1 p2 p3) in *.
  set (b := derivativeB p0 p1 p2 p3) in *.
  set (c := derivativeC p0 p1 p2 p3) in *.
  rewrite elem_of_notNull.
  destruct (decide (a = 0)) as [Ha|Ha]; [destruct (decide (b = 0)) as [Hb|Hb]|].
  - intros [H|H]; apply valueInRange_Some in H as (t & [=] & _).
  - intros [H|H]; apply valueInRange_Some in H as (t & [= <-] & Ht & ->);
      (eexists; split; [exact Ht|split; [|reflexivity]]); rewrite Ha; field; assumption.
  - intros [H|H]; apply valueInRange_Some in H as (t & [= <-] & Ht & ->);
      (eexists; split; [exact Ht|split; [|reflexivity]]).
    + apply Rmult_eq_reg_l with (4 * a); [|lra]. field_simplify; [|assumption]. nra.
    + apply Rmult_eq_reg_l with (4 * a); [|lra]. field_simplify; [|assumption]. nra.
Qed.

Lemma survivors_complete p0 p1 p2 p3 t :
  derivativeA p0 p1 p2 p3 <> 0 \/ derivativeB p0 p1 p2 p3 <> 0 ->
  0 <= t <= 1 ->
  derivativeA p0 p1 p2 p3 * t ^ 2 + derivativeB p0 p1 p2 p3 * t + derivativeC p0 p1 p2 p3 = 0 ->
  getBezierValueForT t p0 p1 p2 p3 ∈ survivors p0 p1 p2 p3.
Proof.
  intros Hab Ht Hroot.
  assert (Hsq : discriminant p0 p1 p2 p3
                = (2 * derivativeA p0 p1 p2 p3 * t + derivativeB p0 p1 p2 p3) ^ 2).
  { unfold discriminant. nra. }
  assert (Hd : discriminant p0 p1 p2 p3 >= 0).
  { rewrite Hsq. apply Rle_ge, pow2_ge_0. }
  unfold survivors. rewrite solveQuadratic_unfold by assumption. cbn zeta.
  rewrite elem_of_notNull.
  set (a := derivativeA p0 p1 p2 p3) in *.
  set (b := derivativeB p0 p1 p2 p3) in *.
  set (c := derivativeC p0 p1 p2 p3) in *.
  destruct (decide (a = 0)) as [Ha|Ha]; [destruct (decide (b = 0)) as [Hb|Hb]|].
  - destruct Hab; contradiction.
  - left. apply valueInRange_Some. exists t. split; [|split; [exact Ht|reflexivity]].
    f_equal. rewrite Ha in Hroot. field_simplify_eq; [|assumption]. lra.
  - destruct (Rle_dec 0 (2 * a * t + b)) as [Hpos|Hneg].
    + left. apply valueInRange_Some. exists t. split; [|split; [exact Ht|reflexivity]].
      f_equal. rewrite Hsq. rewrite <- Rsqr_pow2, sqrt_Rsqr by assumption.
      field. assumption.
    + right. apply valueInRange_Some. exists t. split; [|split; [exact Ht|reflexivity]].
      f_equal. rewrite Hsq.
      replace ((2 * a * t + b) ^ 2) with (Rsqr (- (2 * a * t + b))) by (unfold Rsqr; ring).
      rewrite sqrt_Rsqr by lra. field. assumption.
Qed.

Lemma Math_min_le_l a b : Math_min a b <= a.
Proof. unfold Math_min; Rdecide. Qed.
Lemma Math_min_le_r a b : Math_min a b <= b.
Proof. unfold Math_min; Rdecide. Qed.
Lemma Math_max_ge_l a b : a <= Math_max a b.
Proof. unfold Math_max; Rdecide. Qed.
Lemma Math_max_ge_r a b : b <= Math_max a b.
Proof. unfold Math_max; Rdecide. Qed.

Lemma Math_min_spread_isMinOf xs : forall m, isMinOf (Math_min_spread m xs) (m :: xs).
Proof.
  unfold Math_min_spread, isMinOf.
  induction xs as [|x xs IH]; intros m; simpl.
  - split; [apply list_elem_of_here|]. intros v Hv. apply list_elem_of_singleton in Hv. lra.
  - destruct (IH (Math_min m x)) as [Hin Hle]. split.
    + apply elem_of_cons in Hin as [->|Hin].
      * unfold Math_min. destruct (decide (m <= x)); rewrite !elem_of_cons; auto.
      * rewrite !elem_of_cons; auto.
    + intros v Hv. rewrite !elem_of_cons in Hv.
      assert (Hm : foldl Math_min (Math_min m x) xs <= Math_min m x)
        by (apply Hle, list_elem_of_here).
      pose proof (Math_min_le_l m x). pose proof (Math_min_le_r m x).
      destruct Hv as [->|[->|Hv]]; [lra | lra |].
      apply Hle. rewrite elem_of_cons; auto.
Qed.

Lemma Math_max_spread_isMaxOf xs : forall m, isMaxOf (Math_max_spread m xs) (m :: xs).
Proof.
  unfold Math_max_spread, isMaxOf.
  induction xs as [|x xs IH]; intros m; simpl.
  - split; [apply list_elem_of_here|]. intros v Hv. apply list_elem_of_singleton in Hv. lra.
  - destruct (IH (Math_max m x)) as [Hin Hle]. split.
    + apply elem_of_cons in Hin as [->|Hin].
      * unfold Math_max. destruct (decide (m <= x)); rewrite !elem_of_cons; auto.
      * rewrite !elem_of_cons; auto.
    + intros v Hv. rewrite !elem_of_cons in Hv.
      assert (Hm : Math_max m x <= foldl Math_max (Math_max m x) xs)
        by (apply Hle, list_elem_of_here).
      pose proof (Math_max_ge_l m x). pose proof (Math_max_ge_r m x).
      destruct Hv as [->|[->|Hv]]; [lra | lra |].
      apply Hle. rewrite elem_of_cons; auto.
Qed.

Lemma getCubicBezierCurveBound_spread p0 p1 p2 p3 :
  getCubicBezierCurveBound p0 p1 p2 p3 =
    (Math_min_spread p0.1 (p3.1 :: survivors p0.1 p1.1 p2.1 p3.1),
     Math_min_spread p0.2 (p3.2 :: survivors p0.2 p1.2 p2.2 p3.2),
     Math_max_spread p0.1 (p3.1 :: survivors p0.1 p1.1 p2.1 p3.1),
     Math_max_spread p0.2 (p3.2 :: survivors p0.2 p1.2 p2.2 p3.2)).
Proof.
  unfold getCubicBezierCurveBound, survivors.
  destruct (solveQuadratic p0.1 p1.1 p2.1 p3.1), (solveQuadratic p0.2 p1.2 p2.2 p3.2);
    reflexivity.
Qed.

Lemma valueInRange_in t p0 p1 p2 p3 :
  0 <= t <= 1 -> valueInRange (Some t) p0 p1 p2 p3 = Some (getBezierValueForT t p0 p1 p2 p3).
Proof.
  intros Ht. unfold valueInRange.
  destruct (bool_decide_reflect (t >= 0)), (bool_decide_reflect (t <= 1)); simpl;
    try reflexivity; lra.
Qed.

Lemma survivors_example_x : survivors 0 0 100 100 = [0; 100].
Proof.
  assert (Hd : discriminant 0 0 100 100 = Rsqr 600)
    by (unfold discriminant, derivativeA, derivativeB, derivativeC, Rsqr; lra).
  unfold survivors. rewrite solveQuadratic_unfold by (rewrite Hd; unfold Rsqr; lra).
  cbn zeta. rewrite Hd, sqrt_Rsqr by lra.
  unfold derivativeA, derivativeB, derivativeC.
  destruct (decide (3 * (0 - 0) - 6 * (100 - 0) + 3 * (100 - 100) = 0)) as [H|_]; [lra|].
  replace ((- (6 * (100 - 0) - 6 * (0 - 0)) + 600)
           / (2 * (3 * (0 - 0) - 6 * (100 - 0) + 3 * (100 - 100)))) with 0 by lra.
  replace ((- (6 * (100 - 0) - 6 * (0 - 0)) - 600)
           / (2 * (3 * (0 - 0) - 6 * (100 - 0) + 3 * (100 - 100)))) with 1 by lra.
  rewrite !valueInRange_in by lra. unfold notNull, getBezierValueForT. simpl.
  repeat f_equal; lra.
Qed.

Lemma survivors_example_y : survivors 0 50 50 0 = [37.5; 37.5].
Proof.
  assert (Hd : discriminant 0 50 50 0 >= 0)
    by (unfold discriminant, derivativeA, derivativeB, derivativeC; lra).
  unfold survivors. rewrite solveQuadratic_unfold by assumption.
  cbn zeta. unfold derivativeA, derivativeB, derivativeC.
  destruct (decide (3 * (50 - 0) - 6 * (50 - 50) + 3 * (0 - 50) = 0)) as [_|H]; [|lra].
  destruct (decide (6 * (50 - 50) - 6 * (50 - 0) = 0)) as [H|_]; [lra|].
  replace (- (3 * (50 - 0)) / (6 * (50 - 50) - 6 * (50 - 0))) with 0.5 by lra.
  rewrite !valueInRange_in by lra. unfold notNull, getBezierValueForT. simpl.
  repeat f_equal; lra.
Qed.

Lemma bound_example :
  getCubicBezierCurveBound (0, 0) (0, 50) (100, 50) (100, 0) = (0, 0, 100, 37.5).
Proof.
  rewrite getCubicBezierCurveBound_spread. simpl fst. simpl snd.
  rewrite survivors_example_x, survivors_example_y.
  unfold Math_min_spread, Math_max_spread. simpl.
  Math_eval. repeat f_equal; lra.
Qed.

(** The bound in exact arithmetic.  On each axis [solveQuadratic] works on
    the quadratic [a t^2 + b t + c] with [a = 3i - 6j + 3k], [b = 6j - 6i], [c = 3i]
    ([i = P1 - P0], [j = P2 - P1], [k = P3 - P2]): it gives up when the
    discriminant is negative; every value it keeps is the Bernstein cubic at a
    root of the quadratic within [[0, 1]], and it keeps the value at every
    such root (when the quadratic is not constant).  The bound takes the
    least and the greatest of these values and the two endpoints.  For the
    segment (0,0), (0,50), (100,50), (100,0) the bound is [[0, 0, 100, 37.5]]:
    its Y-range holds the inner maximum 37.5. *)
Theorem cubic_bezier_bound_analytic :
  (forall p0 p1 p2 p3 : number,
      (discriminant p0 p1 p2 p3 < 0 -> solveQuadratic p0 p1 p2 p3 = None)
      /\ (discriminant p0 p1 p2 p3 >= 0 -> is_Some (solveQuadratic p0 p1 p2 p3))
      /\ (forall v, v ∈ survivors p0 p1 p2 p3 ->
            exists t, rootInRange p0 p1 p2 p3 t /\ v = getBezierValueForT t p0 p1 p2 p3)
      /\ (derivativeA p0 p1 p2 p3 <> 0 \/ derivativeB p0 p1 p2 p3 <> 0 ->
          forall t, rootInRange p0 p1 p2 p3 t ->
                    getBezierValueForT t p0 p1 p2 p3 ∈ survivors p0 p1 p2 p3))
  /\ (forall p0 p1 p2 p3 : Point,
        exists minX minY maxX maxY,
          getCubicBezierCurveBound p0 p1 p2 p3 = (minX, minY, maxX, maxY)
          /\ isMinOf minX (p0.1 :: p3.1 :: survivors p0.1 p1.1 p2.1 p3.1)
          /\ isMinOf minY (p0.2 :: p3.2 :: survivors p0.2 p1.2 p2.2 p3.2)
          /\ isMaxOf maxX (p0.1 :: p3.1 :: survivors p0.1 p1.1 p2.1 p3.1)
          /\ isMaxOf maxY (p0.2 :: p3.2 :: survivors p0.2 p1.2 p2.2 p3.2))
  /\ getCubicBezierCurveBound (0, 0) (0, 50) (100, 50) (100, 0) = (0, 0, 100, 37.5).
Proof.
  split; [|split].
  - intros p0 p1 p2 p3. split; [apply solveQuadratic_negative|].
    split; [intros H; rewrite solveQuadratic_unfold by assumption; eauto|].
    split.
    + intros v Hv. destruct (survivors_sound _ _ _ _ _ Hv) as (t & Ht & Hroot & ->).
      exists t. split; [split; assumption | reflexivity].
    + intros Hab t [Ht Hroot]. apply survivors_complete; assumption.
  - intros p0 p1 p2 p3. rewrite getCubicBezierCurveBound_spread.
    do 4 eexists. split; [reflexivity|].
    repeat split; first [apply Math_min_spread_isMinOf | apply Math_max_spread_isMaxOf].
  - apply bound_example.
Qed.

Lemma survivors_flat_arch : survivors 0 0.3 0.4 0.3 = [0.3375; 0.3375].
Proof.
  assert (Hd : discriminant 0 0.3 0.4 0.3 >= 0)
    by (unfold discriminant, derivativeA, derivativeB, derivativeC; lra).
  unfold survivors. rewrite solveQuadratic_unfold by assumption.
  cbn zeta. unfold derivativeA, derivativeB, derivativeC.
  destruct (decide (3 * (0.3 - 0) - 6 * (0.4 - 0.3) + 3 * (0.3 - 0.4) = 0)) as [_|H];
    [|lra].
  destruct (decide (6 * (0.4 - 0.3) - 6 * (0.3 - 0) = 0)) as [H|_]; [lra|].
  replace (- (3 * (0.3 - 0)) / (6 * (0.4 - 0.3) - 6 * (0.3 - 0))) with 0.75 by lra.
  rewrite !valueInRange_in by lra. unfold notNull, getBezierValueForT. simpl.
  repeat f_equal; lra.
Qed.

Lemma survivors_constant : survivors 0 0 0 0 = [].
Proof.
  assert (Hd : discriminant 0 0 0 0 >= 0)
    by (unfold discriminant, derivativeA, derivativeB, derivativeC; lra).
  unfold survivors. rewrite solveQuadratic_unfold by assumption.
  cbn zeta. unfold derivativeA, derivativeB, derivativeC.
  destruct (decide (3 * (0 - 0) - 6 * (0 - 0) + 3 * (0 - 0) = 0)) as [_|H]; [|lra].
  destruct (decide (6 * (0 - 0) - 6 * (0 - 0) = 0)) as [_|H]; [|lra].
  reflexivity.
Qed.

End CubicBezier.

Section DoublePrecision.
Import PrimFloat.
#[local] Set Warnings "-inexact-float".

(** C2.  The bound loses a root to rounding.  The segment with the
    ordinates 0, 0.3, 0.4, 0.3 has the leading coefficient [a = 0] and the
    root [t = 0.75], where the curve reaches 0.3375: in exact arithmetic the
    bound is [[0, 0, 0, 0.3375]].  On doubles [a] is rounded to a negative
    number of the order of [1e-16], the quadratic formula is taken, its
    first quotient falls outside [[0, 1]] and its second is 0.5714...: the
    only value kept is below 0.32, and so is the upper bound, while the curve
    computed at [t = 0.75] is above 0.33.  The example of the segment (0,0),
    (0,50), (100,50), (100,0) is exact on doubles: [[0, 0, 100, 37.5]]. *)
Theorem cubic_bezier_bound_loses_root :
  BoundsTs.getCubicBezierCurveBound (0, 0) (0, 0.3) (0, 0.4) (0, 0.3) = (0, 0, 0, 0.3375)
  /\ (exists kept,
        Float64.solveQuadratic 0 0.3 0.4 0.3 = Some (None, Some kept)
        /\ (kept <? 0.32)%float = true)
  /\ (exists minX minY maxX maxY,
        Float64.getCubicBezierCurveBound (0, 0)%float (0, 0.3)%float (0, 0.4)%float
                                         (0, 0.3)%float
        = (minX, minY, maxX, maxY)
        /\ (maxY <? 0.32)%float = true
        /\ (0.33 <? Float64.getBezierValueForT 0.75 0 0.3 0.4 0.3)%float = true)
  /\ Float64.getCubicBezierCurveBound (0, 0)%float (0, 50)%float (100, 50)%float
                                      (100, 0)%float
     = (0, 0, 100, 37.5)%float.
Proof.
  split; [|split; [|split]].
  - rewrite getCubicBezierCurveBound_spread. simpl fst. simpl snd.
    rewrite survivors_constant, survivors_flat_arch.
    unfold BoundsTs.Math_min_spread, BoundsTs.Math_max_spread. simpl.
    Math_eval. repeat f_equal; lra.
  - eexists. split; vm_compute; reflexivity.
  - do 4 eexists. split; [vm_compute; reflexivity|]. split; vm_compute; reflexivity.
  - vm_compute. reflexivity.
Qed.

End DoublePrecision.

(** ** The bounds cache *)

Section BoundsProperties.
Import BoundsTs.


Section BoundsCache.
Context `{C : Collaborators}.

Lemma cacheHit_iff (cachedBounds : option CachedBounds) element :
  cacheHit cachedBounds element = true <->
  exists cached, cachedBounds = Some cached
    /\ cached_version cached <> 0%Z
    /\ cached_version cached = Element.version element
    /\ isBoundToContainer element = false.
Proof.
  unfold cacheHit, truthy_int. destruct cachedBounds as [cached|].
  - rewrite !andb_true_iff, !bool_decide_eq_true, negb_true_iff. split.
    + intros [[? ?] ?]. exists cached. auto.
    + intros (? & [= <-] & ? & ? & ?). auto.
  - split; [discriminate | intros (? & [=] & _)].
Qed.

Lemma getBounds_hit boundsCache element elementsMap cached :
  boundsCache !! Element.obj element = Some cached ->
  cacheHit (Some cached) element = true ->
  getBounds boundsCache element elementsMap = (cached_bounds cached, boundsCache).
Proof. intros Hc Hh. unfold getBounds. rewrite Hc, Hh. reflexivity. Qed.

Lemma getBounds_miss boundsCache element elementsMap :
  cacheHit (boundsCache !! Element.obj element) element = false ->
  getBounds boundsCache element elementsMap =
    (calculateBounds element elementsMap,
     <[Element.obj element :=
         mkCached (calculateBounds element elementsMap) (Element.version element)]> boundsCache).
Proof.
  intros Hh. unfold getBounds. destruct (boundsCache !! Element.obj element) as [cached|] eqn:Hc.
  - rewrite Hh. reflexivity.
  - reflexivity.
Qed.

(** After any call the entry of the element carries its version. *)
Lemma getBounds_entry boundsCache element elementsMap :
  exists cached,
    (getBounds boundsCache element elementsMap).2 !! Element.obj element = Some cached
    /\ cached_version cached = Element.version element
    /\ cached_bounds cached = (getBounds boundsCache element elementsMap).1.
Proof.
  destruct (cacheHit (boundsCache !! Element.obj element) element) eqn:Hh.
  - pose proof Hh as Hh'. apply cacheHit_iff in Hh' as (cached & Hc & _ & Hv & _).
    rewrite Hc in Hh. rewrite (getBounds_hit _ _ _ cached Hc Hh). simpl. eauto.
  - rewrite getBounds_miss by assumption. simpl. rewrite lookup_insert_eq. eauto.
Qed.


(** C1 (as amended).  [getBounds] returns the cached bounds, and leaves the
    cache alone, exactly when the cache holds an entry for the element whose
    stored version is not zero and equals the version of the element, and the
    element is not a text label bound to a container; in every other case it
    computes the bounds and stores them under the version of the element.
    Hence a second call on an element that has not changed (of a version
    other than zero, not a label) returns what the first call returned, and a
    call after the version went up returns freshly computed bounds. *)
Theorem getBounds_cache_freshness boundsCache element elementsMap :
  (forall cached, cachedFresh boundsCache element cached ->
     getBounds boundsCache element elementsMap = (cached_bounds cached, boundsCache))
  /\ ((forall cached, ~ cachedFresh boundsCache element cached) ->
      getBounds boundsCache element elementsMap =
        (calculateBounds element elementsMap,
         <[Element.obj element :=
             mkCached (calculateBounds element elementsMap) (Element.version element)]>
           boundsCache))
  /\ (Element.version element <> 0%Z -> isBoundToContainer element = false ->
      forall elementsMap',
        getBounds (getBounds boundsCache element elementsMap).2 element elementsMap'
        = getBounds boundsCache element elementsMap)
  /\ (forall mutated elementsMap',
        Element.obj mutated = Element.obj element ->
        (Element.version element < Element.version mutated)%Z ->
        (getBounds (getBounds boundsCache element elementsMap).2 mutated elementsMap').1
        = calculateBounds mutated elementsMap').
Proof.
  split; [|split; [|split]].
  - intros cached (Hc & Hz & Hv & Hl). apply getBounds_hit; [exact Hc|].
    apply cacheHit_iff. exists cached. auto.
  - intros Hno. apply getBounds_miss.
    destruct (cacheHit (boundsCache !! Element.obj element) element) eqn:Hh; [|reflexivity].
    apply cacheHit_iff in Hh as (cached & Hc). destruct (Hno cached). exact Hc.
  - intros Hv Hl elementsMap'.
    destruct (getBounds_entry boundsCache element elementsMap) as (cached & Hc & Hcv & Hcb).
    rewrite (getBounds_hit _ _ elementsMap' cached Hc).
    + rewrite Hcb. symmetry. apply surjective_pairing.
    + apply cacheHit_iff. exists cached. repeat split; auto. congruence.
  - intros mutated elementsMap' Ho Hv.
    destruct (getBounds_entry boundsCache element elementsMap) as (cached & Hc & Hcv & Hcb).
    rewrite getBounds_miss; [reflexivity|].
    rewrite Ho, Hc. destruct (cacheHit (Some cached) mutated) eqn:Hh; [|reflexivity].
    apply cacheHit_iff in Hh as (cached' & [= <-] & _ & Hv' & _). lia.
Qed.

End BoundsCache.



Lemma rotate_0 x y cx cy : rotate x y cx cy 0 = (x, y).
Proof. unfold rotate. rewrite cos_0, sin_0. f_equal; ring. Qed.

Lemma Math_hypot_0_r a : Math_hypot (a * 1) 0 = Rabs a.
Proof.
  unfold Math_hypot. replace (a * 1 * (a * 1) + 0 * 0) with (Rsqr a)
    by (unfold Rsqr; ring).
  apply sqrt_Rsqr_abs.
Qed.

Section UnrotatedBounds.
Context `{C : Collaborators}.

Lemma getElementAbsoluteCoords_ownBox element elementsMap b :
  hasOwnBox element elementsMap ->
  getElementAbsoluteCoords element elementsMap b =
    Some (Element.x element, Element.y element,
          Element.x element + Element.width element,
          Element.y element + Element.height element,
          Element.x element + Element.width element / 2,
          Element.y element + Element.height element / 2).
Proof.
  intros (Hf & Hl & Ht). unfold getElementAbsoluteCoords. rewrite Hf, Hl.
  destruct (isTextElement element); [|reflexivity].
  destruct (getContainerElement element elementsMap) as [container|] eqn:Hc; [|reflexivity].
  rewrite (Ht eq_refl container eq_refl). reflexivity.
Qed.

Lemma calculateBounds_angle_0 element elementsMap :
  hasOwnBox element elementsMap ->
  Element.angle element = 0 ->
  calculateBounds element elementsMap = cornerRectangle element.
Proof.
  intros Hown Ha. unfold calculateBounds.
  rewrite getElementAbsoluteCoords_ownBox by assumption.
  destruct Hown as (Hf & Hl & _). rewrite Hf, Hl, Ha.
  unfold cornerRectangle.
  set (x := Element.x element). set (y := Element.y element).
  set (w := Element.width element). set (h := Element.height element).
  assert (Hcases : (0 <= w \/ w < 0) /\ (0 <= h \/ h < 0)) by (split; lra).
  destruct (bool_decide (Element.type element = "diamond"%string));
    [|destruct (bool_decide (Element.type element = "ellipse"%string))];
    cbn zeta; rewrite ?rotate_0, ?cos_0, ?sin_0; unfold Math_min4, Math_max4.
  - destruct Hcases as [[Hw|Hw] [Hh|Hh]]; Math_eval; f_equal; lra.
  - rewrite !Rmult_0_r, !Math_hypot_0_r.
    destruct Hcases as [[Hw|Hw] [Hh|Hh]];
      try (rewrite (Rabs_left ((x + w - x) / 2)) by lra);
      try (rewrite (Rabs_left ((y + h - y) / 2)) by lra);
      try (rewrite (Rabs_pos_eq ((x + w - x) / 2)) by lra);
      try (rewrite (Rabs_pos_eq ((y + h - y) / 2)) by lra);
      Math_eval; f_equal; lra.
  - destruct Hcases as [[Hw|Hw] [Hh|Hh]]; Math_eval; f_equal; lra.
Qed.

(** C5 (as amended).  An element that takes its coordinates from its own box
    (any type but freedraw, line and arrow; not a text on an arrow), at angle
    [0], has for bounds its corner rectangle with the corners in order,
    [[min(x, x + width), min(y, y + height), max(x, x + width),
    max(y, y + height)]]; with a width and a height that are not negative
    this is [[x, y, x + width, y + height]].  [getBounds] returns it when the
    cache has no entry of the element. *)
Theorem calculateBounds_unrotated element elementsMap :
  hasOwnBox element elementsMap ->
  Element.angle element = 0 ->
  calculateBounds element elementsMap = cornerRectangle element
  /\ (0 <= Element.width element -> 0 <= Element.height element ->
      calculateBounds element elementsMap
      = Box (Element.x element) (Element.y element)
            (Element.x element + Element.width element)
            (Element.y element + Element.height element))
  /\ (forall boundsCache : gmap positive CachedBounds,
        boundsCache !! Element.obj element = None ->
        (getBounds boundsCache element elementsMap).1 = cornerRectangle element).
Proof.
  intros Hown Ha. pose proof (calculateBounds_angle_0 element elementsMap Hown Ha) as Hc.
  split; [exact Hc|]. split.
  - intros Hw Hh. rewrite Hc. unfold cornerRectangle. Math_eval. reflexivity.
  - intros boundsCache Hnone. unfold getBounds. rewrite Hnone. exact Hc.
Qed.

End UnrotatedBounds.

Lemma hasOwnBox_plain o i ty x y w h a m :
  ty <> "freedraw"%string -> ty <> "arrow"%string -> ty <> "line"%string ->
  ty <> "text"%string ->
  hasOwnBox (C := Scenes.bounds) (Element.plain o i ty x y w h a) m.
Proof.
  intros Hf Ha Hl Ht. unfold hasOwnBox, isFreeDrawElement, isLinearElement, isTextElement.
  simpl. rewrite !bool_decide_eq_false_2 by assumption. repeat split; discriminate.
Qed.

(** The diamond of the specification: width 100, height 50, angle 0. *)
Lemma calculateBounds_diamond_100_50 `{C : Collaborators} o i x y m :
  calculateBounds (Element.plain o i "diamond" x y 100 50 0) m
  = Box x y (x + 100) (y + 50).
Proof.
  rewrite calculateBounds_angle_0; [|repeat split; try reflexivity; discriminate|reflexivity].
  unfold cornerRectangle. simpl. Math_eval. reflexivity.
Qed.

(** C5, witness: the diamond at (7, 3). *)
Lemma calculateBounds_unrotated_witness :
  hasOwnBox (C := Scenes.bounds) Scenes.diamond ∅
  /\ Element.angle Scenes.diamond = 0
  /\ calculateBounds (C := Scenes.bounds) Scenes.diamond ∅ = Box 7 3 (7 + 100) (3 + 50).
Proof.
  assert (Hown : hasOwnBox (C := Scenes.bounds) Scenes.diamond ∅)
    by (apply hasOwnBox_plain; discriminate).
  split; [exact Hown|]. split; [reflexivity|].
  destruct (calculateBounds_unrotated (C := Scenes.bounds) Scenes.diamond ∅ Hown eq_refl)
    as (_ & Hbox & _).
  apply Hbox; simpl; lra.
Defined.

Lemma getBoundsFromPoints_upLeft :
  getBoundsFromPoints [(0, 0); (-10, -10)] = Box (-10) (-10) 0 0.
Proof. unfold getBoundsFromPoints. simpl. Math_eval. reflexivity. Qed.

Lemma calculateBounds_freedrawUpLeft :
  calculateBounds (C := Scenes.bounds) Scenes.freedrawUpLeft ∅ = Box (-10) (-10) 0 0.
Proof.
  unfold calculateBounds, getElementAbsoluteCoords, getFreeDrawElementAbsoluteCoords.
  change (isFreeDrawElement Scenes.freedrawUpLeft) with true. cbv iota.
  change (Element.points Scenes.freedrawUpLeft) with [(0, 0); (-10, -10)].
  rewrite getBoundsFromPoints_upLeft. cbv iota zeta.
  change (Element.angle Scenes.freedrawUpLeft) with 0.
  simpl List.map. rewrite !rotate_0.
  replace (getBoundsFromPoints _) with (Box (-10) (-10) 0 0)
    by (symmetry; apply getBoundsFromPoints_upLeft).
  simpl. f_equal; lra.
Qed.

Lemma calculateBounds_flippedRectangle :
  calculateBounds (C := Scenes.bounds) Scenes.flippedRectangle ∅ = Box (-10) 0 0 10.
Proof.
  rewrite calculateBounds_angle_0;
    [|apply hasOwnBox_plain; discriminate|reflexivity].
  unfold cornerRectangle. simpl. Math_eval. f_equal; lra.
Qed.

(** C5, counterexample: at angle [0] the bounds of a rectangle drawn from
    right to left, and of a freedraw element drawn up and to the left, are not
    [[x, y, x + width, y + height]]. *)
Lemma calculateBounds_unrotated_counterexample :
  (Element.angle Scenes.flippedRectangle = 0
   /\ (getBounds (C := Scenes.bounds) ∅ Scenes.flippedRectangle ∅).1 = Box (-10) 0 0 10
   /\ (getBounds (C := Scenes.bounds) ∅ Scenes.flippedRectangle ∅).1
      <> Box (Element.x Scenes.flippedRectangle) (Element.y Scenes.flippedRectangle)
             (Element.x Scenes.flippedRectangle + Element.width Scenes.flippedRectangle)
             (Element.y Scenes.flippedRectangle + Element.height Scenes.flippedRectangle))
  /\ (Element.angle Scenes.freedrawUpLeft = 0
      /\ (getBounds (C := Scenes.bounds) ∅ Scenes.freedrawUpLeft ∅).1 = Box (-10) (-10) 0 0
      /\ (getBounds (C := Scenes.bounds) ∅ Scenes.freedrawUpLeft ∅).1
         <> Box (Element.x Scenes.freedrawUpLeft) (Element.y Scenes.freedrawUpLeft)
                (Element.x Scenes.freedrawUpLeft + Element.width Scenes.freedrawUpLeft)
                (Element.y Scenes.freedrawUpLeft + Element.height Scenes.freedrawUpLeft)).
Proof.
  assert (H1 : (getBounds (C := Scenes.bounds) ∅ Scenes.flippedRectangle ∅).1
               = Box (-10) 0 0 10).
  { unfold getBounds. rewrite lookup_empty. apply calculateBounds_flippedRectangle. }
  assert (H2 : (getBounds (C := Scenes.bounds) ∅ Scenes.freedrawUpLeft ∅).1
               = Box (-10) (-10) 0 0).
  { unfold getBounds. rewrite lookup_empty. apply calculateBounds_freedrawUpLeft. }
  repeat split; try assumption.
  - rewrite H1. simpl. intros [= H _ _]. lra.
  - rewrite H2. simpl. intros [= H _ _ _]. lra.
Qed.

Lemma calculateBounds_rectangle `{C : Collaborators} (element : ExcalidrawElement) m :
  Element.type element = "rectangle"%string ->
  Element.angle element = 0 ->
  0 <= Element.width element -> 0 <= Element.height element ->
  calculateBounds element m
  = Box (Element.x element) (Element.y element)
        (Element.x element + Element.width element)
        (Element.y element + Element.height element).
Proof.
  intros Hty Ha Hw Hh. rewrite calculateBounds_angle_0; [| |exact Ha].
  - unfold cornerRectangle. Math_eval. reflexivity.
  - unfold hasOwnBox, isFreeDrawElement, isLinearElement, isTextElement. rewrite Hty.
    repeat split; discriminate.
Qed.

(** C1, witness: a second call on an unchanged rectangle. *)
Lemma getBounds_cache_freshness_witness :
  Element.version Scenes.rectangleA <> 0%Z
  /\ isBoundToContainer Scenes.rectangleA = false
  /\ getBounds (C := Scenes.bounds)
       (getBounds (C := Scenes.bounds) ∅ Scenes.rectangleA ∅).2 Scenes.rectangleA ∅
     = getBounds (C := Scenes.bounds) ∅ Scenes.rectangleA ∅.
Proof.
  assert (Hv : Element.version Scenes.rectangleA <> 0%Z) by (simpl; lia).
  assert (Hl : isBoundToContainer Scenes.rectangleA = false) by reflexivity.
  split; [exact Hv|]. split; [exact Hl|].
  destruct (getBounds_cache_freshness (C := Scenes.bounds) ∅ Scenes.rectangleA ∅)
    as (_ & _ & Htwice & _).
  apply Htwice; assumption.
Defined.

(** C1, counterexample: the cache holds an entry of the element, stored under
    the version of the element, and the element is no label; the version is
    [0], and [getBounds] does not return the cached bounds [[5, 5, 6, 6]] but
    computes [[0, 0, 10, 10]]. *)
Lemma getBounds_version_zero_counterexample :
  exists cached,
    Scenes.versionZeroCache !! Element.obj Scenes.versionZero = Some cached
    /\ cached_version cached = Element.version Scenes.versionZero
    /\ isBoundToContainer Scenes.versionZero = false
    /\ (getBounds (C := Scenes.bounds) Scenes.versionZeroCache Scenes.versionZero ∅).1
       = Box 0 0 (0 + 10) (0 + 10)
    /\ (getBounds (C := Scenes.bounds) Scenes.versionZeroCache Scenes.versionZero ∅).1
       <> cached_bounds cached.
Proof.
  exists (mkCached (Box 5 5 6 6) 0).
  assert (Hg : (getBounds (C := Scenes.bounds) Scenes.versionZeroCache Scenes.versionZero ∅).1
               = Box 0 0 (0 + 10) (0 + 10)).
  { rewrite getBounds_miss by reflexivity. simpl fst.
    apply (calculateBounds_rectangle (C := Scenes.bounds) Scenes.versionZero);
      simpl; first [reflexivity | lra]. }
  split; [reflexivity|]. split; [reflexivity|]. split; [reflexivity|].
  split; [exact Hg|]. rewrite Hg. simpl. intros [= H _ _ _]. lra.
Qed.





Lemma wellFormed_cons e l : wellFormed (e :: l) -> wellFormed l.
Proof. intros H e1 e2 H1 H2. apply H; apply elem_of_cons; auto. Qed.





Lemma isMinOf_cons m x l : isMinOf m l -> isMinOf (Math_min m x) (l ++ [x]).
Proof.
  intros [Hin Hle]. split.
  - apply elem_of_app. destruct (Math_min_cases m x) as [-> | ->]; [auto|].
    right. apply list_elem_of_here.
  - intros v Hv. apply elem_of_app in Hv as [Hv|Hv].
    + pose proof (Hle v Hv). pose proof (Math_min_le_l m x). lra.
    + apply list_elem_of_singleton in Hv as ->. apply Math_min_le_r.
Qed.

Lemma isMaxOf_cons m x l : isMaxOf m l -> isMaxOf (Math_max m x) (l ++ [x]).
Proof.
  intros [Hin Hle]. split.
  - apply elem_of_app. destruct (Math_max_cases m x) as [-> | ->]; [auto|].
    right. apply list_elem_of_here.
  - intros v Hv. apply elem_of_app in Hv as [Hv|Hv].
    + pose proof (Hle v Hv). pose proof (Math_max_ge_l m x). lra.
    + apply list_elem_of_singleton in Hv as ->. apply Math_max_ge_r.
Qed.

Lemma isMinOf_singleton x : isMinOf x [x].
Proof. split; [apply list_elem_of_here|]. intros v ->%list_elem_of_singleton. lra. Qed.
Lemma isMaxOf_singleton x : isMaxOf x [x].
Proof. split; [apply list_elem_of_here|]. intros v ->%list_elem_of_singleton. lra. Qed.

(** The reduction over finite boxes, started on a finite box that is the
    union of the boxes [done], is the union of all the boxes. *)
Lemma foldl_accumulate_finite (boxes : list (number * number * number * number)) :
  forall done X1 Y1 X2 Y2,
    isMinOf X1 (done.*1.*1.*1) -> isMinOf Y1 (done.*1.*1.*2) ->
    isMaxOf X2 (done.*1.*2) -> isMaxOf Y2 (done.*2) ->
    exists X1' Y1' X2' Y2',
      foldl accumulate (Box X1 Y1 X2 Y2) (toBox <$> boxes) = Box X1' Y1' X2' Y2'
      /\ isMinOf X1' ((done ++ boxes).*1.*1.*1) /\ isMinOf Y1' ((done ++ boxes).*1.*1.*2)
      /\ isMaxOf X2' ((done ++ boxes).*1.*2) /\ isMaxOf Y2' ((done ++ boxes).*2).
Proof.
  induction boxes as [|[[[x1 y1] x2] y2] boxes IH]; intros done X1 Y1 X2 Y2 H1 H2 H3 H4.
  - simpl. rewrite app_nil_r. eauto 10.
  - simpl.
    destruct (IH (done ++ [(x1, y1, x2, y2)]) (Math_min X1 x1) (Math_min Y1 y1)
                 (Math_max X2 x2) (Math_max Y2 y2)) as (X1' & Y1' & X2' & Y2' & Hf & H');
      try (rewrite !fmap_app; simpl;
           first [by apply isMinOf_cons | by apply isMaxOf_cons]).
    rewrite <- app_assoc in H'. simpl in H'. eauto 10.
Qed.

Lemma foldl_accumulate_union (boxes : list (number * number * number * number)) :
  boxes <> [] ->
  exists X1 Y1 X2 Y2,
    foldl accumulate InfBox (toBox <$> boxes) = Box X1 Y1 X2 Y2
    /\ isMinOf X1 (boxes.*1.*1.*1) /\ isMinOf Y1 (boxes.*1.*1.*2)
    /\ isMaxOf X2 (boxes.*1.*2) /\ isMaxOf Y2 (boxes.*2).
Proof.
  destruct boxes as [|[[[x1 y1] x2] y2] boxes]; [congruence|]. intros _. simpl.
  apply (foldl_accumulate_finite boxes [(x1, y1, x2, y2)]); simpl;
    first [apply isMinOf_singleton | apply isMaxOf_singleton].
Qed.

Section CommonBounds.
Context `{C : Collaborators}.

Lemma getBounds_fst_lookup c1 c2 e m :
  c1 !! Element.obj e = c2 !! Element.obj e -> (getBounds c1 e m).1 = (getBounds c2 e m).1.
Proof.
  intros H. unfold getBounds. rewrite H.
  destruct (c2 !! Element.obj e); [destruct (cacheHit _ _)|]; reflexivity.
Qed.

Lemma getBounds_snd_other c e m o :
  o <> Element.obj e -> (getBounds c e m).2 !! o = c !! o.
Proof.
  intros H. unfold getBounds.
  destruct (c !! Element.obj e); [destruct (cacheHit _ _)|]; simpl;
    rewrite ?lookup_insert_ne by congruence; reflexivity.
Qed.

Lemma getBounds_again c e m :
  (getBounds (getBounds c e m).2 e m).1 = (getBounds c e m).1.
Proof.
  destruct (cacheHit (c !! Element.obj e) e) eqn:Hh.
  - pose proof Hh as (cached & Hc & _)%cacheHit_iff. rewrite Hc in Hh.
    rewrite (getBounds_hit c e m cached Hc Hh). simpl.
    rewrite (getBounds_hit c e m cached Hc Hh). reflexivity.
  - rewrite (getBounds_miss c e m Hh). simpl. unfold getBounds.
    rewrite lookup_insert_eq. destruct (cacheHit (Some _) e); reflexivity.
Qed.

Lemma commonBoundsStep_eq m acc cache a :
  commonBoundsStep m (acc, cache) a
  = (accumulate acc (getBounds cache a m).1, (getBounds cache a m).2).
Proof.
  unfold commonBoundsStep, getElementBounds. simpl.
  destruct (getBounds cache a m); reflexivity.
Qed.

Lemma foldl_commonBoundsStep cache0 m (l : list ExcalidrawElement) :
  forall acc cache,
    (forall e1 e2, e1 ∈ l -> e2 ∈ l -> Element.obj e1 = Element.obj e2 -> e1 = e2) ->
    (forall e, e ∈ l -> (getBounds cache e m).1 = (getBounds cache0 e m).1) ->
    (foldl (commonBoundsStep m) (acc, cache) l).1
    = foldl accumulate acc ((fun e => (getElementBounds cache0 e m).1) <$> l).
Proof.
  induction l as [|a l IH]; intros acc cache Hobj Hinv; [reflexivity|].
  rewrite fmap_cons. cbn [foldl]. rewrite commonBoundsStep_eq, IH.
  - unfold getElementBounds. rewrite <- Hinv by apply list_elem_of_here. reflexivity.
  - intros e1 e2 H1 H2. apply Hobj; apply elem_of_cons; auto.
  - intros e He.
    destruct (decide (Element.obj e = Element.obj a)) as [Heq|Hne].
    + assert (e = a) as ->
        by (apply Hobj; [apply elem_of_cons; auto | apply list_elem_of_here | exact Heq]).
      rewrite getBounds_again. apply Hinv, list_elem_of_here.
    + rewrite <- (Hinv e) by (apply elem_of_cons; auto).
      apply getBounds_fst_lookup, getBounds_snd_other. assumption.
Qed.

Lemma getCommonBounds_fold cache (l : list ExcalidrawElement) :
  l <> [] -> wellFormed l ->
  (getCommonBounds cache l).1
  = foldl accumulate InfBox ((fun e => (getElementBounds cache e (arrayToMap l)).1) <$> l).
Proof.
  intros Hne Hwf. unfold getCommonBounds. destruct l as [|a l]; [congruence|].
  apply foldl_commonBoundsStep.
  - intros e1 e2 H1 H2 Ho. apply Hwf; auto.
  - reflexivity.
Qed.



End CommonBounds.

Lemma wellFormed_pair (a b : ExcalidrawElement) :
  Element.obj a <> Element.obj b -> Element.id a <> Element.id b -> wellFormed [a; b].
Proof.
  intros Ho Hi e1 e2 H1 H2 H.
  apply elem_of_cons in H1 as [->|H1]; apply elem_of_cons in H2 as [->|H2];
    try apply list_elem_of_singleton in H1 as ->;
    try apply list_elem_of_singleton in H2 as ->;
    try reflexivity; destruct H; congruence.
Qed.


(** The union of the rectangles [[0, 0, 10, 10]] and [[5, 5, 25, 25]]. *)
Example getCommonBounds_two_rectangles :
  (getCommonBounds (C := Scenes.bounds) ∅ [Scenes.rectangleA; Scenes.rectangleB]).1
  = Box 0 0 25 25.
Proof.
  rewrite getCommonBounds_fold by (first [discriminate | apply wellFormed_pair; discriminate]).
  unfold getElementBounds, getBounds. simpl. rewrite !lookup_empty.
  rewrite !(calculateBounds_rectangle (C := Scenes.bounds)) by (simpl; first [reflexivity | lra]).
  simpl. Math_eval. f_equal; lra.
Qed.

End BoundsProperties.

(** ** Transform handles *)


Section ResizeTest.
Import ResizeTestTs.
Context `{B : BoundsTs.Collaborators} `{C : Collaborators}.

Lemma isInsideTransformHandle_iff h0 h1 h2 h3 x y :
  isInsideTransformHandle (h0, h1, h2, h3) x y = true
  <-> h0 <= x <= h0 + h2 /\ h1 <= y <= h1 + h3.
Proof.
  unfold isInsideTransformHandle. rewrite !andb_true_iff, !bool_decide_eq_true. lra.
Qed.


(** C3.  For a selected element whose rotation handle exists and holds the
    pointer, [resizeTest] answers ["rotation"], whatever the other handles,
    the crop handles and the side tests would answer: the rotation test comes
    first. *)
Theorem resizeTest_rotation_first element elementsMap appState x y zoom pointerType device
    (rotationTransformHandle : TransformHandle) :
  isSet (AppState.selectedElementIds appState) (Element.id element) = true ->
  rotationOf (getTransformHandles element zoom elementsMap pointerType
                                  (getOmitSidesForDevice device))
    = Some rotationTransformHandle ->
  isInsideTransformHandle rotationTransformHandle x y = true ->
  resizeTest element elementsMap appState x y zoom pointerType device
    = Some "rotation"%string.
Proof.
  intros Hsel Hrot Hin. unfold resizeTest. rewrite Hsel, Hrot, Hin. reflexivity.
Qed.

End ResizeTest.

(** C3, witness: the pointer (50, 5) is in the rotation handle, in the handle
    of the top edge, and on every side. *)
Lemma resizeTest_rotation_first_witness :
  isSet (AppState.selectedElementIds (Scenes.selecting ["a"%string]))
        (Element.id Scenes.rectangleA) = true
  /\ ResizeTestTs.rotationOf
       (ResizeTestTs.getTransformHandles (Collaborators := Scenes.resize)
          Scenes.rectangleA (mkZoom 1) ∅ () ())
     = Some (40, 0, 20, 20)
  /\ ResizeTestTs.isInsideTransformHandle (40, 0, 20, 20) 50 5 = true
  /\ ResizeTestTs.keysInside
       (ResizeTestTs.restOf
          (ResizeTestTs.getTransformHandles (Collaborators := Scenes.resize)
             Scenes.rectangleA (mkZoom 1) ∅ () ())) 50 5 = ["n"%string]
  /\ ResizeTestTs.pointOnLine (Collaborators := Scenes.resize) (50, 5) ((0, 0), (100, 0)) 16
     = true
  /\ ResizeTestTs.resizeTest (B := Scenes.bounds) (C := Scenes.resize)
       Scenes.rectangleA ∅ (Scenes.selecting ["a"%string]) 50 5 (mkZoom 1) () ()
     = Some "rotation"%string.
Proof.
  assert (Hsel : isSet (AppState.selectedElementIds (Scenes.selecting ["a"%string]))
                       (Element.id Scenes.rectangleA) = true) by reflexivity.
  assert (Hin : forall a b c d : number,
             a <= 50 <= a + c -> b <= 5 <= b + d ->
             ResizeTestTs.isInsideTransformHandle (a, b, c, d) 50 5 = true).
  { intros a b c d Ha Hb. unfold ResizeTestTs.isInsideTransformHandle.
    rewrite !bool_decide_eq_true_2 by lra. reflexivity. }
  split; [exact Hsel|]. split; [reflexivity|]. split; [apply Hin; lra|].
  split.
  { change (ResizeTestTs.restOf _) with [("n"%string, Some ((0, 0, 100, 10) : ResizeTestTs.TransformHandle))].
    unfold ResizeTestTs.keysInside. cbn [List.filter snd]. rewrite Hin by lra. reflexivity. }
  split; [reflexivity|].
  apply (resizeTest_rotation_first (B := Scenes.bounds) (C := Scenes.resize)
           Scenes.rectangleA ∅ (Scenes.selecting ["a"%string]) 50 5 (mkZoom 1) () ()
           (40, 0, 20, 20) Hsel eq_refl).
  apply Hin; lra.
Defined.

(** ** The draw dispatch, the raster cache and the clipping-mask compositor *)


Section Render.
Import RenderElementTs.
Context `{B : BoundsTs.Collaborators} `{C : Collaborators}.

Lemma drawElementOnCanvas_Ok element :
  is_Ok (drawElementOnCanvas element) = true <-> Element.type element ∈ drawableTypes.
Proof.
  unfold drawElementOnCanvas, isTextElement, drawableTypes.
  rewrite !elem_of_cons, elem_of_nil.
  repeat match goal with
         | |- context [bool_decide (?a = ?b)] =>
             destruct (bool_decide_reflect (a = b)); simpl; [tauto|]
         end.
  split; [discriminate|]. tauto.
Qed.

Lemma drawElementOnCanvas_Throw element :
  Element.type element ∉ drawableTypes ->
  drawElementOnCanvas element = Throw ("Unimplemented type " +:+ Element.type element).
Proof.
  intros Hn. pose proof (drawElementOnCanvas_Ok element) as H.
  unfold drawElementOnCanvas, isTextElement in *.
  repeat match goal with
         | |- context [bool_decide (?a = ?b)] =>
             destruct (bool_decide_reflect (a = b)); simpl in *;
             [exfalso; apply Hn, H; reflexivity|]
         end.
  reflexivity.
Qed.

Lemma shouldRegenerate_iff element elementsMap zoom appState prev :
  shouldRegenerate element elementsMap zoom appState prev = true <->
    prev = None
    \/ (exists p, prev = Some p /\ ewc_zoomValue p <> zoom_value zoom
                  /\ AppState.shouldCacheIgnoreZoom appState = false)
    \/ (exists p, prev = Some p /\ ewc_theme p <> AppState.theme appState)
    \/ (exists p, prev = Some p
                  /\ ewc_boundTextElementVersion p
                     <> currentBoundTextElementVersion element elementsMap)
    \/ (exists p, prev = Some p
                  /\ ewc_containingFrameOpacity p
                     <> currentContainingFrameOpacity element elementsMap)
    \/ Element.akhonRenderKoraUchit element = Some true.
Proof.
  unfold shouldRegenerate, akhonRenderKoraUchit.
  destruct prev as [p|].
  - rewrite !orb_true_iff, andb_true_iff, negb_true_iff, !bool_decide_eq_true. split.
    + intros [H|[[[[H1 H2]|H]|H]|H]].
      * do 5 right. destruct (Element.akhonRenderKoraUchit element) as [[]|]; congruence.
      * right; left. eauto.
      * do 2 right; left. eauto.
      * do 3 right; left. eauto.
      * do 4 right; left. eauto.
    + intros [H|[(q & [= <-] & H1 & H2)|[(q & [= <-] & H)|[(q & [= <-] & H)|[(q & [= <-] & H)|H]]]]];
        [discriminate| | | | |]; auto 10.
      left. rewrite H. reflexivity.
  - rewrite orb_true_r. split; auto.
Qed.

Lemma generateElementWithCanvas_regenerate element elementsMap renderConfig appState cache :
  shouldRegenerate element elementsMap (currentZoom renderConfig appState) appState
                   (cache !! Element.obj element) = true ->
  generateElementWithCanvas element elementsMap renderConfig appState cache =
    match generateElementCanvas element elementsMap (currentZoom renderConfig appState)
                                appState with
    | Ok elementWithCanvas =>
        (Ok elementWithCanvas, <[Element.obj element := elementWithCanvas]> cache)
    | Throw msg => (Throw msg, cache)
    end.
Proof.
  intros H. unfold generateElementWithCanvas. fold (currentZoom renderConfig appState).
  rewrite H. reflexivity.
Qed.

Lemma generateElementWithCanvas_cached element elementsMap renderConfig appState cache :
  shouldRegenerate element elementsMap (currentZoom renderConfig appState) appState
                   (cache !! Element.obj element) = false ->
  exists prev, cache !! Element.obj element = Some prev
    /\ generateElementWithCanvas element elementsMap renderConfig appState cache
       = (Ok prev, cache).
Proof.
  intros H. unfold generateElementWithCanvas. fold (currentZoom renderConfig appState).
  rewrite H. destruct (cache !! Element.obj element) as [prev|] eqn:Hp.
  - eauto.
  - unfold shouldRegenerate in H. rewrite orb_true_r in H. discriminate.
Qed.

Lemma generateElementCanvas_Ok element elementsMap zoom appState :
  Element.type element ∈ drawableTypes ->
  exists canvas,
    generateElementCanvas element elementsMap zoom appState
    = Ok (mkWithCanvas element canvas (AppState.theme appState) (zoom_value zoom)
            (currentBoundTextElementVersion element elementsMap)
            (currentContainingFrameOpacity element elementsMap)).
Proof.
  intros H. apply drawElementOnCanvas_Ok in H. unfold generateElementCanvas.
  destruct (drawElementOnCanvas element) as [canvas|]; [|discriminate]. eauto.
Qed.

Lemma generateElementWithCanvas_Ok element elementsMap renderConfig appState cache :
  Element.type element ∈ drawableTypes ->
  exists elementWithCanvas cache',
    generateElementWithCanvas element elementsMap renderConfig appState cache
    = (Ok elementWithCanvas, cache').
Proof.
  intros H.
  destruct (shouldRegenerate element elementsMap (currentZoom renderConfig appState) appState
                             (cache !! Element.obj element)) eqn:Hr.
  - rewrite generateElementWithCanvas_regenerate by assumption.
    destruct (generateElementCanvas_Ok element elementsMap
                (currentZoom renderConfig appState) appState H) as (canvas & ->). eauto.
  - destruct (generateElementWithCanvas_cached _ _ _ _ _ Hr) as (prev & _ & ->). eauto.
Qed.

Lemma elem_of_recognizedTypes t :
  t ∈ recognizedTypes <-> t ∈ drawableTypes \/ t = "frame"%string \/ t = "magicframe"%string.
Proof.
  unfold recognizedTypes. rewrite elem_of_app, !elem_of_cons, elem_of_nil. tauto.
Qed.

Lemma unconditionalRenderElement_Throw element elementsMap allElementsMap context
    renderConfig appState st :
  Element.type element ∉ recognizedTypes ->
  unconditionalRenderElement element elementsMap allElementsMap context renderConfig appState st
  = (Throw ("Unimplemented type " +:+ Element.type element),
     set_globalAlpha (getRenderOpacity element (getContainingFrame element elementsMap)
                                       (elementsPendingErasure renderConfig)) context,
     st).
Proof.
  intros Hn. unfold unconditionalRenderElement.
  repeat match goal with
         | |- context [bool_decide (?a = ?b)] =>
             destruct (bool_decide_reflect (a = b)) as [Heq|?]; simpl;
             [exfalso; apply Hn; rewrite Heq; unfold recognizedTypes, drawableTypes;
              rewrite elem_of_app, !elem_of_cons; tauto|]
         end.
  reflexivity.
Qed.

Lemma unconditionalRenderElement_Ok element elementsMap allElementsMap context
    renderConfig appState st :
  Element.type element ∈ recognizedTypes ->
  exists context' cache',
    unconditionalRenderElement element elementsMap allElementsMap context renderConfig appState st
    = (Ok (), context', set_cache cache' st).
Proof.
  intros Hin. destruct st as [cache masked images]. unfold unconditionalRenderElement.
  destruct (bool_decide_reflect (Element.type element = "magicframe"%string)) as [Hm|Hm];
    [simpl; eexists _, cache; reflexivity|].
  destruct (bool_decide_reflect (Element.type element = "frame"%string)) as [Hf|Hf];
    [simpl; eexists _, cache; reflexivity|].
  assert (Hd : Element.type element ∈ drawableTypes).
  { apply elem_of_recognizedTypes in Hin. tauto. }
  destruct (generateElementWithCanvas_Ok element elementsMap (Some renderConfig) appState
              cache Hd) as (ewc & cache' & Hg).
  simpl orb. cbv iota. simpl elementWithCanvasCache. rewrite Hg.
  destruct (bool_decide_reflect (Element.type element = "freedraw"%string)) as [Hfd|Hfd];
    [eauto|].
  match goal with |- context [if ?b then _ else _] => destruct b eqn:Hb end; [eauto|].
  exfalso. unfold drawableTypes in Hd. rewrite !elem_of_cons, elem_of_nil in Hd.
  rewrite !orb_false_iff, !bool_decide_eq_false in Hb. tauto.
Qed.

Lemma insertSorted_Permutation {A} (compare : A -> A -> Z) a l :
  Permutation (insertSorted compare a l) (a :: l).
Proof.
  induction l as [|b l IH]; simpl; [reflexivity|].
  destruct (bool_decide _); [|reflexivity].
  rewrite IH. apply perm_swap.
Qed.

Lemma sort_Permutation {A} (compare : A -> A -> Z) (l : list A) :
  Permutation (sort compare l) l.
Proof.
  unfold sort. enough (forall acc, Permutation (foldl (fun acc a => insertSorted compare a acc) acc l) (acc ++ l)) as H by apply (H []).
  induction l as [|a l IH]; intros acc; simpl.
  - rewrite app_nil_r. reflexivity.
  - rewrite IH, insertSorted_Permutation. simpl. apply Permutation_middle.
Qed.

Lemma drawMasked_Ok cmGroupLength (maskedElements : list ExcalidrawElement) :
  forall index elementsMap allElementsMap tempCtx renderConfig appState st,
    (forall m, m ∈ maskedElements -> Element.type m ∈ recognizedTypes) ->
    exists tempCtx' cache',
      drawMasked cmGroupLength index maskedElements elementsMap allElementsMap tempCtx
                 renderConfig appState st
      = (Ok (), tempCtx', set_cache cache' st).
Proof.
  induction maskedElements as [|m l IH]; intros index elementsMap allElementsMap tempCtx
    renderConfig appState st Hall.
  - simpl. exists tempCtx, (elementWithCanvasCache st). destruct st; reflexivity.
  - simpl.
    match goal with
    | |- context [unconditionalRenderElement m elementsMap allElementsMap ?c _ _ _] =>
        destruct (unconditionalRenderElement_Ok m elementsMap allElementsMap c
                    renderConfig appState st) as (c' & cache' & ->)
    end; [apply Hall, list_elem_of_here|].
    destruct (IH (index + 1)%Z elementsMap allElementsMap c' renderConfig appState
                 (set_cache cache' st)) as (c'' & cache'' & ->).
    { intros m' Hm'. apply Hall, elem_of_cons. auto. }
    exists c'', cache''. destruct st; reflexivity.
Qed.

Lemma drawMasked_Throw cmGroupLength (maskedElements : list ExcalidrawElement) :
  forall index elementsMap allElementsMap tempCtx renderConfig appState st,
    (exists m, m ∈ maskedElements /\ Element.type m ∉ recognizedTypes) ->
    exists msg tempCtx' cache',
      drawMasked cmGroupLength index maskedElements elementsMap allElementsMap tempCtx
                 renderConfig appState st
      = (Throw msg, tempCtx', set_cache cache' st).
Proof.
  induction maskedElements as [|m l IH]; intros index elementsMap allElementsMap tempCtx
    renderConfig appState st (bad & Hbad & Hty).
  - inversion Hbad.
  - simpl. destruct (decide (Element.type m ∈ recognizedTypes)) as [Hok|Hno].
    + match goal with
      | |- context [unconditionalRenderElement m elementsMap allElementsMap ?c _ _ _] =>
          destruct (unconditionalRenderElement_Ok m elementsMap allElementsMap c
                      renderConfig appState st Hok) as (c' & cache' & ->)
      end.
      destruct (IH (index + 1)%Z elementsMap allElementsMap c' renderConfig appState
                   (set_cache cache' st)) as (msg & c'' & cache'' & ->).
      { exists bad. split; [|assumption]. apply elem_of_cons in Hbad as [->|?];
          [contradiction|assumption]. }
      exists msg, c'', cache''. destruct st; reflexivity.
    + rewrite unconditionalRenderElement_Throw by assumption.
      eexists _, _, (elementWithCanvasCache st). destruct st; reflexivity.
Qed.

Lemma renderElement_accumulates element elementsMap allElementsMap context renderConfig
    appState st :
  isMaskTagged element = true ->
  Z.of_nat (length (accumulatedWith st element)) <> Element.cmGroupLength element ->
  renderElement element elementsMap allElementsMap context renderConfig appState st
  = (Ok (), context,
     set_masked (<[Element.clippingMaskId element := accumulatedWith st element]>
                   (maskedElementsMap st)) st).
Proof.
  intros Ht Hn. unfold renderElement. rewrite Ht. fold (accumulatedWith st element).
  simpl maskedElementsMap.
  destruct (bool_decide_reflect
              (Z.of_nat (length (accumulatedWith st element)) = Element.cmGroupLength element));
    [contradiction|reflexivity].
Qed.

Lemma renderElement_completes element elementsMap allElementsMap context renderConfig
    appState st :
  isMaskTagged element = true ->
  Z.of_nat (length (accumulatedWith st element)) = Element.cmGroupLength element ->
  (forall m, m ∈ accumulatedWith st element -> Element.type m ∈ recognizedTypes) ->
  exists tempCanvas cache',
    renderElement element elementsMap allElementsMap context renderConfig appState st
    = (Ok (),
       issue (DrawImage tempCanvas
                (Math_floor (innerWidth / zoom_value (AppState.zoom appState)))
                (Math_floor (innerHeight / zoom_value (AppState.zoom appState))))
             context,
       mkState cache'
               (delete (Element.clippingMaskId element) (maskedElementsMap st))
               (<[Element.clippingMaskId element := tempCanvas]> (documentImages st))).
Proof.
  intros Ht Hn Hall. unfold renderElement. rewrite Ht. fold (accumulatedWith st element).
  simpl maskedElementsMap.
  destruct (bool_decide_reflect
              (Z.of_nat (length (accumulatedWith st element)) = Element.cmGroupLength element));
    [|contradiction].
  fold byIndex.
  match goal with
  | |- context [drawMasked ?n ?i ?l ?em ?am ?c ?rc ?a ?s] =>
      destruct (drawMasked_Ok n l i em am c rc a s) as (tempCtx & cache' & ->)
  end.
  { intros m Hm. apply Hall. by rewrite <- (sort_Permutation byIndex). }
  exists (commands tempCtx), cache'. destruct st as [cache masked images]. simpl.
  unfold set_masked, set_images. simpl. rewrite !delete_insert_eq. reflexivity.
Qed.

Lemma renderElement_throws element elementsMap allElementsMap context renderConfig
    appState st :
  isMaskTagged element = true ->
  Z.of_nat (length (accumulatedWith st element)) = Element.cmGroupLength element ->
  (exists m, m ∈ accumulatedWith st element /\ Element.type m ∉ recognizedTypes) ->
  exists msg cache',
    renderElement element elementsMap allElementsMap context renderConfig appState st
    = (Throw msg, context,
       mkState cache'
               (<[Element.clippingMaskId element := sort byIndex (accumulatedWith st element)]>
                  (maskedElementsMap st))
               (documentImages st)).
Proof.
  intros Ht Hn (bad & Hbad & Hty). unfold renderElement. rewrite Ht.
  fold (accumulatedWith st element). simpl maskedElementsMap.
  destruct (bool_decide_reflect
              (Z.of_nat (length (accumulatedWith st element)) = Element.cmGroupLength element));
    [|contradiction].
  fold byIndex.
  match goal with
  | |- context [drawMasked ?n ?i ?l ?em ?am ?c ?rc ?a ?s] =>
      destruct (drawMasked_Throw n l i em am c rc a s) as (msg & tempCtx & cache' & ->)
  end.
  { exists bad. split; [|assumption]. by rewrite (sort_Permutation byIndex). }
  exists msg, cache'. destruct st as [cache masked images]. simpl.
  unfold set_masked. simpl. rewrite insert_insert_eq. reflexivity.
Qed.

Lemma renderElements_app l1 l2 elementsMap allElementsMap context renderConfig appState st :
  renderElements (l1 ++ l2) elementsMap allElementsMap context renderConfig appState st =
    match renderElements l1 elementsMap allElementsMap context renderConfig appState st with
    | (Ok _, context, st) =>
        renderElements l2 elementsMap allElementsMap context renderConfig appState st
    | (Throw msg, context, st) => (Throw msg, context, st)
    end.
Proof.
  revert context st. induction l1 as [|a l1 IH]; intros context st; simpl; [reflexivity|].
  destruct (renderElement a elementsMap allElementsMap context renderConfig appState st)
    as [[[[]|msg] context'] st']; [apply IH|reflexivity].
Qed.

(** While fewer members than declared have arrived, nothing reaches the
    context and the members pile up. *)
Lemma renderElements_incomplete clippingMaskId cmGroupLength (batch : list ExcalidrawElement) :
  forall elementsMap allElementsMap context renderConfig appState st,
    (forall m, m ∈ batch -> memberOf clippingMaskId cmGroupLength m) ->
    (Z.of_nat (length (default [] (maskedElementsMap st !! clippingMaskId)) + length batch)
     < cmGroupLength)%Z ->
    exists st',
      renderElements batch elementsMap allElementsMap context renderConfig appState st
      = (Ok (), context, st')
      /\ default [] (maskedElementsMap st' !! clippingMaskId)
         = default [] (maskedElementsMap st !! clippingMaskId) ++ batch
      /\ documentImages st' = documentImages st.
Proof.
  induction batch as [|a batch IH]; intros elementsMap allElementsMap context renderConfig
    appState st Hmem Hlt.
  - simpl. exists st. rewrite app_nil_r. auto.
  - destruct (Hmem a (list_elem_of_here _ _)) as (Ht & Hid & Hlen).
    simpl. rewrite renderElement_accumulates; [|assumption|].
    2:{ unfold accumulatedWith. rewrite Hid, Hlen, length_app. simpl in *. lia. }
    unfold accumulatedWith. rewrite Hid.
    set (st1 := set_masked _ st).
    destruct (IH elementsMap allElementsMap context renderConfig appState st1)
      as (st' & Hrun & Hacc & Himg).
    { intros m Hm. apply Hmem, elem_of_cons. auto. }
    { subst st1. simpl. rewrite lookup_insert_eq. simpl. rewrite length_app. simpl in *. lia. }
    exists st'. split; [exact Hrun|]. split; [|rewrite Himg; reflexivity].
    rewrite Hacc. subst st1. simpl. rewrite lookup_insert_eq. simpl.
    rewrite <- app_assoc. reflexivity.
Qed.

(** The batch arrives in full: nothing is drawn before its last member, and
    the last member draws the composite once and clears the entry. *)
Lemma renderElements_complete clippingMaskId (batch : list ExcalidrawElement)
    (lastMember : ExcalidrawElement) elementsMap allElementsMap context renderConfig
    appState st :
  (forall m, m ∈ batch ++ [lastMember] ->
             memberOf clippingMaskId (Z.of_nat (length (batch ++ [lastMember]))) m
             /\ Element.type m ∈ recognizedTypes) ->
  maskedElementsMap st !! clippingMaskId = None ->
  exists st0 tempCanvas winw winh st',
    renderElements batch elementsMap allElementsMap context renderConfig appState st
    = (Ok (), context, st0)
    /\ renderElements (batch ++ [lastMember]) elementsMap allElementsMap context
                      renderConfig appState st
       = (Ok (), issue (DrawImage tempCanvas winw winh) context, st')
    /\ maskedElementsMap st' !! clippingMaskId = None.
Proof.
  intros Hmem Hnone.
  destruct (renderElements_incomplete clippingMaskId
              (Z.of_nat (length (batch ++ [lastMember]))) batch
              elementsMap allElementsMap context renderConfig appState st)
    as (st0 & Hrun & Hacc & _).
  { intros m Hm. apply Hmem, elem_of_app. auto. }
  { rewrite Hnone, length_app. simpl. lia. }
  rewrite Hnone in Hacc. simpl in Hacc.
  destruct (Hmem lastMember) as ((Ht & Hid & Hlen) & _);
    [apply elem_of_app; right; apply list_elem_of_here|].
  assert (Hwith : accumulatedWith st0 lastMember = batch ++ [lastMember]).
  { unfold accumulatedWith. rewrite Hid, Hacc. reflexivity. }
  destruct (renderElement_completes lastMember elementsMap allElementsMap context
              renderConfig appState st0 Ht) as (tempCanvas & cache' & Hlast).
  { rewrite Hwith. symmetry. exact Hlen. }
  { rewrite Hwith. intros m Hm. apply Hmem, Hm. }
  exists st0. eexists tempCanvas, _, _, _. split; [exact Hrun|].
  rewrite renderElements_app, Hrun. simpl. rewrite Hlast. split; [reflexivity|].
  simpl. rewrite Hid. apply lookup_delete_eq.
Qed.

(** C8.  An element whose type is none of rectangle, iframe, embeddable,
    diamond, ellipse, arrow, line, freedraw, image, text, frame, magicframe
    makes both [drawElementOnCanvas] and [unconditionalRenderElement] throw.
    [unconditionalRenderElement] returns for each of the twelve types: it
    draws a frame or a magicframe on its own branch, and hands the ten other
    types to [drawElementOnCanvas] (through [generateElementCanvas]), which
    returns for each of these ten, the types of its own dispatch. *)
Theorem draw_dispatch_raises element elementsMap allElementsMap context renderConfig
    appState st :
  (is_Ok (drawElementOnCanvas element) = true <-> Element.type element ∈ drawableTypes)
  /\ (is_Ok (unconditionalRenderElement element elementsMap allElementsMap context
                                        renderConfig appState st).1.1 = true
      <-> Element.type element ∈ recognizedTypes)
  /\ (Element.type element ∉ recognizedTypes ->
      drawElementOnCanvas element
      = Throw ("Unimplemented type " +:+ Element.type element)
      /\ (unconditionalRenderElement element elementsMap allElementsMap context
                                     renderConfig appState st).1.1
         = Throw ("Unimplemented type " +:+ Element.type element)).
Proof.
  split; [apply drawElementOnCanvas_Ok|]. split.
  - split.
    + intros Hok. destruct (decide (Element.type element ∈ recognizedTypes)) as [H|H];
        [exact H|]. rewrite unconditionalRenderElement_Throw in Hok by assumption.
      discriminate.
    + intros Hin.
      destruct (unconditionalRenderElement_Ok element elementsMap allElementsMap context
                  renderConfig appState st Hin) as (context' & cache' & ->). reflexivity.
  - intros Hn. split.
    + apply drawElementOnCanvas_Throw. intros Hd. apply Hn, elem_of_recognizedTypes. auto.
    + rewrite unconditionalRenderElement_Throw by assumption. reflexivity.
Qed.

(** The condition of [generateElementWithCanvas], with the current bound
    text version and the current containing frame opacity as the function
    computes them ([?.version || null], [?.opacity || 100]): it generates a
    canvas, and stores it in the cache, exactly when there is no entry for the
    element; or the zoom of the entry differs from the current zoom and
    [shouldCacheIgnoreZoom] is off; or the theme of the entry differs from the
    current theme; or the bound text version of the entry differs from the
    computed one; or the containing frame opacity of the entry differs from
    the computed one; or the flag [akhonRenderKoraUchit] of the element is
    set.  Otherwise it returns the entry and leaves the cache as it is. *)
Theorem generateElementWithCanvas_regenerates element elementsMap renderConfig appState
    (cache : ElementWithCanvasCache) :
  let zoom := currentZoom renderConfig appState in
  let prev := cache !! Element.obj element in
  let regenerate :=
    prev = None
    \/ (exists p, prev = Some p /\ ewc_zoomValue p <> zoom_value zoom
                  /\ AppState.shouldCacheIgnoreZoom appState = false)
    \/ (exists p, prev = Some p /\ ewc_theme p <> AppState.theme appState)
    \/ (exists p, prev = Some p
                  /\ ewc_boundTextElementVersion p
                     <> currentBoundTextElementVersion element elementsMap)
    \/ (exists p, prev = Some p
                  /\ ewc_containingFrameOpacity p
                     <> currentContainingFrameOpacity element elementsMap)
    \/ Element.akhonRenderKoraUchit element = Some true in
  (regenerate ->
   generateElementWithCanvas element elementsMap renderConfig appState cache =
     match generateElementCanvas element elementsMap zoom appState with
     | Ok elementWithCanvas =>
         (Ok elementWithCanvas, <[Element.obj element := elementWithCanvas]> cache)
     | Throw msg => (Throw msg, cache)
     end)
  /\ (~ regenerate ->
      exists p, prev = Some p
        /\ generateElementWithCanvas element elementsMap renderConfig appState cache
           = (Ok p, cache)).
Proof.
  intros zoom prev regenerate.
  pose proof (shouldRegenerate_iff element elementsMap zoom appState prev) as Hiff.
  fold regenerate in Hiff. split.
  - intros Hr. apply generateElementWithCanvas_regenerate. apply Hiff. exact Hr.
  - intros Hn. apply generateElementWithCanvas_cached. fold zoom prev.
    apply not_true_is_false. intros Hs. apply Hn, Hiff, Hs.
Qed.

(** C4 (as amended).  A call of [renderElement] on a mask-tagged element is a
    step of the accumulation.  While the number of accumulated members differs
    from the declared size of the element, the step draws nothing on the main
    context and keeps the element.  When the number reaches the declared size
    and every member has a recognized type, the step draws the composite on
    the main context once, and removes the entry of the batch; when a member
    has an unrecognized type the step throws, draws nothing on the main
    context and keeps the entry.  A run of members that stays below the
    declared size draws nothing; a batch that arrives in full draws nothing
    before its last member. *)
Theorem clipping_mask_batch elementsMap allElementsMap context renderConfig appState :
  (forall element st,
      isMaskTagged element = true ->
      (Z.of_nat (length (accumulatedWith st element)) <> Element.cmGroupLength element ->
       renderElement element elementsMap allElementsMap context renderConfig appState st
       = (Ok (), context,
          set_masked (<[Element.clippingMaskId element := accumulatedWith st element]>
                        (maskedElementsMap st)) st))
      /\ (Z.of_nat (length (accumulatedWith st element)) = Element.cmGroupLength element ->
          (forall m, m ∈ accumulatedWith st element -> Element.type m ∈ recognizedTypes) ->
          exists tempCanvas cache',
            renderElement element elementsMap allElementsMap context renderConfig appState st
            = (Ok (),
               issue (DrawImage tempCanvas
                        (Math_floor (innerWidth / zoom_value (AppState.zoom appState)))
                        (Math_floor (innerHeight / zoom_value (AppState.zoom appState))))
                     context,
               mkState cache'
                       (delete (Element.clippingMaskId element) (maskedElementsMap st))
                       (<[Element.clippingMaskId element := tempCanvas]>
                          (documentImages st))))
      /\ (Z.of_nat (length (accumulatedWith st element)) = Element.cmGroupLength element ->
          (exists m, m ∈ accumulatedWith st element
                     /\ Element.type m ∉ recognizedTypes) ->
          exists msg cache',
            renderElement element elementsMap allElementsMap context renderConfig appState st
            = (Throw msg, context,
               mkState cache'
                       (<[Element.clippingMaskId element :=
                            sort byIndex (accumulatedWith st element)]>
                          (maskedElementsMap st))
                       (documentImages st))))
  /\ (forall clippingMaskId cmGroupLength (batch : list ExcalidrawElement) st,
        (forall m, m ∈ batch -> memberOf clippingMaskId cmGroupLength m) ->
        (Z.of_nat (length (default [] (maskedElementsMap st !! clippingMaskId))
                   + length batch) < cmGroupLength)%Z ->
        exists st',
          renderElements batch elementsMap allElementsMap context renderConfig appState st
          = (Ok (), context, st')
          /\ default [] (maskedElementsMap st' !! clippingMaskId)
             = default [] (maskedElementsMap st !! clippingMaskId) ++ batch
          /\ documentImages st' = documentImages st)
  /\ (forall clippingMaskId (batch : list ExcalidrawElement) lastMember st,
        (forall m, m ∈ batch ++ [lastMember] ->
                   memberOf clippingMaskId (Z.of_nat (length (batch ++ [lastMember]))) m
                   /\ Element.type m ∈ recognizedTypes) ->
        maskedElementsMap st !! clippingMaskId = None ->
        exists st0 tempCanvas winw winh st',
          renderElements batch elementsMap allElementsMap context renderConfig appState st
          = (Ok (), context, st0)
          /\ renderElements (batch ++ [lastMember]) elementsMap allElementsMap context
                            renderConfig appState st
             = (Ok (), issue (DrawImage tempCanvas winw winh) context, st')
          /\ maskedElementsMap st' !! clippingMaskId = None).
Proof.
  split; [|split].
  - intros element st Ht. split; [|split].
    + apply renderElement_accumulates; assumption.
    + apply renderElement_completes; assumption.
    + apply renderElement_throws; assumption.
  - intros clippingMaskId cmGroupLength batch st Hmem Hlt.
    apply (renderElements_incomplete clippingMaskId cmGroupLength); assumption.
  - intros clippingMaskId batch lastMember st Hmem Hnone.
    apply (renderElements_complete clippingMaskId); assumption.
Qed.

End Render.

(** C6.  The cache misses a change of the containing frame opacity to [0].
    A rectangle inside a frame of opacity 100 is rendered from an empty
    cache: the canvas is generated and stored, with the theme, the zoom, no
    bound text version and the frame opacity 100.  The frame is then made
    transparent, opacity 0, which differs from the opacity of the entry; the
    function reads [0 || 100], finds the 100 of the entry, and returns the
    entry without generating anything, while [getRenderOpacity] ([?? 100])
    does see the opacity 0.  A change to the opacity 50 does regenerate. *)
Theorem generateElementWithCanvas_frame_opacity :
  let generate elementsMap cache :=
    RenderElementTs.generateElementWithCanvas (B := Scenes.bounds) (C := Scenes.framed)
      Scenes.framedRectangle elementsMap (Some Scenes.renderConfig) Scenes.appState cache in
  let scene (opacity : number) : ElementsMap := {[ "fr"%string := Scenes.frameAt opacity ]} in
  let entry (opacity : number) :=
    RenderElementTs.mkWithCanvas Scenes.framedRectangle RenderElementTs.DrawnRectangle
                                 "light" 1 None opacity in
  generate (scene 100) ∅ = (Ok (entry 100), {[ 8%positive := entry 100 ]})
  /\ RenderElementTs.getContainingFrame (Collaborators := Scenes.framed)
       Scenes.framedRectangle (scene 0) = Some (Scenes.frameAt 0)
  /\ Element.opacity (Scenes.frameAt 0)
     <> RenderElementTs.ewc_containingFrameOpacity (entry 100)
  /\ generate (scene 0) {[ 8%positive := entry 100 ]}
     = (Ok (entry 100), {[ 8%positive := entry 100 ]})
  /\ RenderElementTs.getRenderOpacity (C := Scenes.framed) Scenes.framedRectangle
       (Some (Scenes.frameAt 0)) ∅ = 0
  /\ generate (scene 50) {[ 8%positive := entry 100 ]}
     = (Ok (entry 50), {[ 8%positive := entry 50 ]}).
Proof.
  intros generate scene entry.
  assert (Hframe : forall opacity,
             RenderElementTs.getContainingFrame (Collaborators := Scenes.framed)
               Scenes.framedRectangle (scene opacity) = Some (Scenes.frameAt opacity)).
  { intros opacity. unfold scene. simpl. apply lookup_singleton_eq. }
  assert (Hopacity : forall opacity,
             RenderElementTs.currentContainingFrameOpacity (C := Scenes.framed)
               Scenes.framedRectangle (scene opacity)
             = if decide (opacity = 0) then 100 else opacity).
  { intros opacity. unfold RenderElementTs.currentContainingFrameOpacity.
    rewrite Hframe. unfold truthy_num. simpl.
    destruct (bool_decide_reflect (opacity <> 0)), (decide (opacity = 0));
      try reflexivity; contradiction. }
  assert (Hcanvas : forall opacity,
             RenderElementTs.generateElementCanvas (B := Scenes.bounds) (C := Scenes.framed)
               Scenes.framedRectangle (scene opacity) (mkZoom 1) Scenes.appState
             = Ok (entry (if decide (opacity = 0) then 100 else opacity))).
  { intros opacity. unfold RenderElementTs.generateElementCanvas.
    rewrite Hopacity. reflexivity. }
  assert (Hentry : ({[ 8%positive := entry 100 ]} : gmap positive _)
                   !! Element.obj Scenes.framedRectangle = Some (entry 100))
    by apply lookup_singleton_eq.
  split; [|split; [apply Hframe|split; [simpl; lra|split; [|split]]]].
  - unfold generate.
    rewrite (generateElementWithCanvas_regenerate (B := Scenes.bounds) (C := Scenes.framed)).
    + change (currentZoom _ _) with (mkZoom 1). rewrite Hcanvas.
      destruct (decide (100 = 0)); [lra|]. reflexivity.
    + apply shouldRegenerate_iff. left. apply lookup_empty.
  - unfold generate.
    destruct (generateElementWithCanvas_cached (B := Scenes.bounds) (C := Scenes.framed)
                Scenes.framedRectangle (scene 0) (Some Scenes.renderConfig)
                Scenes.appState {[ 8%positive := entry 100 ]}) as (prev & Hprev & ->).
    + apply not_true_is_false. intros Hre. apply shouldRegenerate_iff in Hre.
      rewrite Hentry in Hre. rewrite Hopacity in Hre.
      destruct (decide (0 = 0)) as [_|Hne]; [|contradiction].
      destruct Hre as [H|[(q & [= <-] & H & _)|[(q & [= <-] & H)|[(q & [= <-] & H)
                        |[(q & [= <-] & H)|H]]]]];
        [discriminate H | apply H; reflexivity | apply H; reflexivity
        | apply H; reflexivity | apply H; reflexivity | discriminate H].
    + rewrite Hentry in Hprev. injection Hprev as <-. reflexivity.
  - unfold RenderElementTs.getRenderOpacity. simpl.
    repeat case_bool_decide; simpl; try lra; set_solver.
  - unfold generate.
    rewrite (generateElementWithCanvas_regenerate (B := Scenes.bounds) (C := Scenes.framed)).
    + change (currentZoom _ _) with (mkZoom 1). rewrite Hcanvas.
      destruct (decide (50 = 0)); [lra|].
      rewrite insert_singleton_eq. reflexivity.
    + apply shouldRegenerate_iff. do 4 right. left. exists (entry 100).
      split; [exact Hentry|]. rewrite Hopacity.
      destruct (decide (50 = 0)); simpl; lra.
Qed.

Lemma memberOf_masked o i ty n : n <> 0%Z -> memberOf "mask" 3 (Scenes.masked o i ty n).
Proof.
  intros Hn. unfold memberOf, RenderElementTs.isMaskTagged, truthy_int, truthy_str. simpl.
  rewrite (bool_decide_eq_true_2 (n <> 0%Z)) by assumption. repeat split; reflexivity.
Qed.

(** C4, witness: the batch of three draws nothing for its first two members
    and the composite once for the third. *)
Lemma clipping_mask_batch_witness :
  RenderElementTs.maskedElementsMap Scenes.emptyState !! "mask"%string = None
  /\ exists st0 tempCanvas winw winh st',
       renderElements (B := Scenes.bounds) (C := Scenes.render)
         [Scenes.masked1; Scenes.masked2] ∅ ∅ RenderElementTs.newContext
         Scenes.renderConfig Scenes.appState Scenes.emptyState
       = (Ok (), RenderElementTs.newContext, st0)
       /\ renderElements (B := Scenes.bounds) (C := Scenes.render)
            ([Scenes.masked1; Scenes.masked2] ++ [Scenes.masked3]) ∅ ∅
            RenderElementTs.newContext Scenes.renderConfig Scenes.appState Scenes.emptyState
          = (Ok (),
             RenderElementTs.issue (RenderElementTs.DrawImage tempCanvas winw winh)
                                   RenderElementTs.newContext,
             st')
       /\ RenderElementTs.maskedElementsMap st' !! "mask"%string = None.
Proof.
  split; [reflexivity|].
  destruct (clipping_mask_batch (B := Scenes.bounds) (C := Scenes.render) ∅ ∅
              RenderElementTs.newContext Scenes.renderConfig Scenes.appState)
    as (_ & _ & Hfull).
  apply (Hfull "mask"%string [Scenes.masked1; Scenes.masked2] Scenes.masked3
               Scenes.emptyState); [|reflexivity].
  intros m Hm. simpl app in Hm. rewrite !elem_of_cons, elem_of_nil in Hm.
  destruct Hm as [->|[->|[->|[]]]]; (split; [apply memberOf_masked; discriminate|]);
    unfold recognizedTypes, drawableTypes; simpl; rewrite !elem_of_cons; tauto.
Defined.

(** C4, counterexample: a tagged element of declared size one and of type
    selection.  The count reaches the declared size at this step, yet the step
    throws, nothing is drawn on the main context, and the entry stays. *)
Lemma clipping_mask_throw_counterexample :
  RenderElementTs.isMaskTagged Scenes.maskedSelection = true
  /\ Z.of_nat (length (accumulatedWith Scenes.emptyState Scenes.maskedSelection))
     = Element.cmGroupLength Scenes.maskedSelection
  /\ exists st',
       RenderElementTs.renderElement (B := Scenes.bounds) (C := Scenes.render)
         Scenes.maskedSelection ∅ ∅ RenderElementTs.newContext Scenes.renderConfig
         Scenes.appState Scenes.emptyState
       = (Throw "Unimplemented type selection", RenderElementTs.newContext, st')
       /\ RenderElementTs.maskedElementsMap st' !! "lone"%string
          = Some [Scenes.maskedSelection].
Proof.
  split; [reflexivity|]. split; [reflexivity|].
  eexists. split; reflexivity.
Qed.

(** ** The crop and clipping-mask actions *)

Section ActionProperties.
Import ActionGroupTsx.


Lemma orElse_unset fallback : orElse 0 fallback = fallback.
Proof. unfold orElse, truthy_num. destruct (bool_decide_reflect (0 <> 0)); [lra|reflexivity]. Qed.

Lemma orElse_set value fallback : value <> 0 -> orElse value fallback = value.
Proof.
  intros H. unfold orElse, truthy_num.
  destruct (bool_decide_reflect (value <> 0)); [reflexivity|contradiction].
Qed.

Lemma nextCropProperties_unset element :
  nextCropProperties element (mkCrop 0 0 0 0)
  = mkCrop (0.1 * Element.width element) (0.1 * Element.height element)
           (0.8 * Element.width element) (0.8 * Element.height element).
Proof.
  unfold nextCropProperties. simpl. rewrite !orElse_unset. f_equal; lra.
Qed.

Lemma nextCropProperties_set element previous :
  crop_x previous <> 0 -> crop_y previous <> 0 ->
  crop_width previous <> 0 -> crop_height previous <> 0 ->
  nextCropProperties element previous = previous.
Proof.
  intros. unfold nextCropProperties. rewrite !orElse_set by assumption.
  destruct previous; reflexivity.
Qed.

Section CropImage.
Context `{C : Collaborators}.

Lemma actionCropImage_image elements appState selectedElement others previous :
  getSelectedElements (AppState.selectedElementIds appState) false
    = selectedElement :: others ->
  Element.type selectedElement = "image"%string ->
  Element.cropProperties selectedElement = Some previous ->
  actionCropImage elements appState
  = Ok (mkActionResult
          (AppState.assign_lastCropImageId (Element.id selectedElement) appState)
          (setAt elements (getElementIndex elements (Element.id selectedElement))
                 (Element.assign_crop true true true
                    (nextCropProperties selectedElement previous) selectedElement))
          CAPTURE).
Proof.
  intros Hsel Hty Hcrop. unfold actionCropImage. rewrite Hsel, Hcrop.
  destruct (bool_decide_reflect (Element.type selectedElement <> "image"%string));
    [contradiction|].
  rewrite andb_false_r. reflexivity.
Qed.

(** What [actionCropImage] does by its text: on a selected image that has
    a crop rectangle it stores [nextCropProperties].  When no crop coordinate
    was set (all four are [0]) the rectangle is the default [x = 0.1 width],
    [y = 0.1 height], [width = 0.8 width], [height = 0.8 height], which lies
    within
    [[0, 0, width, height]] for a width and a height that are not negative and
    strictly inside for positive ones.  When all four coordinates were set
    (none is [0]) the rectangle is the previous one, unchanged. *)
Theorem actionCropImage_crop elements appState selectedElement others previous :
  getSelectedElements (AppState.selectedElementIds appState) false
    = selectedElement :: others ->
  Element.type selectedElement = "image"%string ->
  Element.cropProperties selectedElement = Some previous ->
  let cropProperties := nextCropProperties selectedElement previous in
  let cropped := Element.assign_crop true true true cropProperties selectedElement in
  (exists r, actionCropImage elements appState = Ok r
             /\ res_elements r
                = setAt elements (getElementIndex elements (Element.id selectedElement))
                        cropped)
  /\ Element.cropProperties cropped = Some cropProperties
  /\ (previous = mkCrop 0 0 0 0 ->
      cropProperties
      = mkCrop (0.1 * Element.width selectedElement) (0.1 * Element.height selectedElement)
               (0.8 * Element.width selectedElement) (0.8 * Element.height selectedElement)
      /\ (0 <= Element.width selectedElement -> 0 <= Element.height selectedElement ->
          cropContained selectedElement cropProperties)
      /\ (0 < Element.width selectedElement -> 0 < Element.height selectedElement ->
          cropStrictlyInside selectedElement cropProperties))
  /\ (crop_x previous <> 0 -> crop_y previous <> 0 ->
      crop_width previous <> 0 -> crop_height previous <> 0 ->
      cropProperties = previous).
Proof.
  intros Hsel Hty Hcrop cropProperties cropped. split; [|split; [reflexivity|split]].
  - eexists. split; [apply (actionCropImage_image _ _ _ _ _ Hsel Hty Hcrop)|reflexivity].
  - intros ->. subst cropProperties. rewrite nextCropProperties_unset.
    split; [reflexivity|].
    split; intros Hw Hh; unfold cropContained, cropStrictlyInside; simpl; lra.
  - intros. apply nextCropProperties_set; assumption.
Qed.

End CropImage.

(** C9.  The crop rectangle is not kept within the image.  An image of
    100 x 100 cropped to its full extent, (0, 0, 100, 100), holds a crop
    rectangle within [[0, 0, width, height]]; [actionCropImage] reads the two
    coordinates [0] as not set, gives them the default [0.1 * 100], keeps the
    extent, and stores (10, 10, 100, 100), which reaches outside the image.
    On an image without [cropProperties], as [restore] hands on an image
    stored before cropping existed, the action throws instead of storing the
    defaults. *)
Theorem actionCropImage_full_image :
  cropContained Scenes.imageFull (mkCrop 0 0 100 100)
  /\ (exists r cropped,
        actionCropImage (C := Scenes.actions [Scenes.imageFull])
          [Scenes.imageFull] (Scenes.selecting ["img"%string]) = Ok r
        /\ res_elements r = [cropped]
        /\ Element.width cropped = 100 /\ Element.height cropped = 100
        /\ Element.cropProperties cropped = Some (mkCrop 10 10 100 100)
        /\ ~ cropContained cropped (mkCrop 10 10 100 100))
  /\ Element.cropProperties Scenes.imageLegacy = None
  /\ actionCropImage (C := Scenes.actions [Scenes.imageLegacy])
       [Scenes.imageLegacy] (Scenes.selecting ["img"%string]) = Throw "TypeError".
Proof.
  assert (Hnext : nextCropProperties Scenes.imageFull (mkCrop 0 0 100 100)
                  = mkCrop 10 10 100 100).
  { unfold nextCropProperties. simpl.
    rewrite !orElse_unset, !orElse_set by lra. f_equal; lra. }
  split; [unfold cropContained; simpl; lra|]. split; [|split; reflexivity].
  eexists _, _. split.
  - apply (actionCropImage_image (C := Scenes.actions [Scenes.imageFull])
             [Scenes.imageFull] (Scenes.selecting ["img"%string])
             Scenes.imageFull [] (mkCrop 0 0 100 100)); reflexivity.
  - rewrite Hnext. split; [reflexivity|]. repeat (split; [reflexivity|]).
    unfold cropContained. simpl. lra.
Qed.


Lemma lastIndexOf_None l o :
  lastIndexOf l o = None <-> o ∉ Element.obj <$> l.
Proof.
  induction l as [|a l IH]; simpl.
  - split; [intros _ H; inversion H | reflexivity].
  - rewrite not_elem_of_cons, <- IH.
    destruct (lastIndexOf l o); [split; [discriminate | intros [_ [=]]]|].
    destruct (bool_decide_reflect (Element.obj a = o)); split; try discriminate; auto.
    intros [H _]. congruence.
Qed.

Lemma lastIndexOf_NoDup l i e :
  NoDup (Element.obj <$> l) -> l !! i = Some e -> lastIndexOf l (Element.obj e) = Some i.
Proof.
  revert i. induction l as [|a l IH]; intros i Hnd Hi; [inversion Hi|].
  rewrite fmap_cons in Hnd. apply NoDup_cons in Hnd as [Hna Hnd]. simpl.
  destruct i as [|i]; simpl in Hi.
  - injection Hi as ->. apply lastIndexOf_None in Hna. rewrite Hna.
    rewrite bool_decide_eq_true_2 by reflexivity. reflexivity.
  - rewrite (IH i Hnd Hi). reflexivity.
Qed.

Lemma assigned_obj group mid e : Element.obj (assigned group mid e) = Element.obj e.
Proof. unfold assigned. destruct (lastIndexOf _ _); reflexivity. Qed.

Lemma assigned_groupIds group mid e :
  Element.groupIds (assigned group mid e) = Element.groupIds e.
Proof. unfold assigned. destruct (lastIndexOf _ _); reflexivity. Qed.

Lemma isElementInGroup_assigned group mid gid e :
  isElementInGroup (assigned group mid e) gid = isElementInGroup e gid.
Proof. unfold isElementInGroup. rewrite assigned_groupIds. reflexivity. Qed.

Lemma filter_map_assigned group mid gid (P : bool -> bool) l :
  List.filter (fun e => P (isElementInGroup e gid)) (assigned group mid <$> l)
  = assigned group mid <$> List.filter (fun e => P (isElementInGroup e gid)) l.
Proof.
  induction l as [|a l IH]; [reflexivity|]. rewrite fmap_cons. simpl.
  rewrite isElementInGroup_assigned, IH. destruct (P _); reflexivity.
Qed.

Lemma filter_filter_negb {A} (p : A -> bool) l :
  List.filter p (List.filter (fun x => negb (p x)) l) = [].
Proof.
  induction l as [|a l IH]; [reflexivity|]. simpl.
  destruct (p a) eqn:Hp; simpl; [exact IH|]. rewrite Hp. exact IH.
Qed.

Lemma filter_idem {A} (p : A -> bool) l : List.filter p (List.filter p l) = List.filter p l.
Proof.
  induction l as [|a l IH]; [reflexivity|]. simpl.
  destruct (p a) eqn:Hp; simpl; [rewrite Hp, IH|]; auto.
Qed.

(** The last element that a filter keeps splits the list. *)
Lemma filter_last_split {A} (p : A -> bool) l x :
  last (List.filter p l) = Some x ->
  exists l1 l2, l = l1 ++ x :: l2 /\ p x = true /\ List.filter p l2 = [].
Proof.
  induction l as [|a l IH]; simpl; [discriminate|].
  destruct (p a) eqn:Hp.
  - destruct (List.filter p l) as [|b f] eqn:Hf.
    + simpl. intros [= <-]. exists [], l. auto.
    + rewrite last_cons. intros H.
      destruct (last (b :: f)) as [y|] eqn:Hl; [|by apply last_None in Hl].
      injection H as ->. destruct (IH eq_refl) as (l1 & l2 & -> & Hx & H2).
      exists (a :: l1), l2. auto.
  - intros H. destruct (IH H) as (l1 & l2 & -> & Hx & H2). exists (a :: l1), l2. auto.
Qed.

Lemma NoDup_obj_filter (p : ExcalidrawElement -> bool) l :
  NoDup (Element.obj <$> l) -> NoDup (Element.obj <$> List.filter p l).
Proof.
  induction l as [|a l IH]; [auto|].
  rewrite fmap_cons. intros [Hna Hnd]%NoDup_cons. simpl. destruct (p a); [|auto].
  rewrite fmap_cons. apply NoDup_cons. split; [|auto].
  intros Hin. apply Hna. apply list_elem_of_fmap in Hin as (e & -> & He).
  apply list_elem_of_fmap. exists e. split; [reflexivity|].
  apply list_elem_of_In. apply list_elem_of_In in He. apply filter_In in He. tauto.
Qed.

(** Two lists with the same views have the same views after a filter that
    only looks at the views. *)
Lemma filter_by_view {A V W} (view : A -> V) (q : V -> bool) (g : V -> W) (l1 l2 : list A) :
  view <$> l1 = view <$> l2 ->
  (fun e => g (view e)) <$> List.filter (fun e => q (view e)) l1
  = (fun e => g (view e)) <$> List.filter (fun e => q (view e)) l2.
Proof.
  revert l2. induction l1 as [|a l1 IH]; intros [|b l2]; try discriminate; [reflexivity|].
  rewrite !fmap_cons. intros [= Hab Hl]. simpl. rewrite Hab.
  destruct (q (view b)); rewrite ?fmap_cons, ?Hab; [f_equal|]; auto.
Qed.

Section MakeClippingMask.
Context `{C : Collaborators}.

Lemma moveGroup_group (nextElements : list ExcalidrawElement) newGroupId clippingMaskId :
  NoDup (Element.obj <$> nextElements) ->
  let group := getElementsInGroup nextElements newGroupId in
  getElementsInGroup
    (moveGroup (assigned group clippingMaskId <$> nextElements)
               (assigned group clippingMaskId <$> group) newGroupId)
    newGroupId
  = assigned group clippingMaskId <$> group.
Proof.
  intros Hnd group. set (A := assigned group clippingMaskId).
  assert (HfA : forall l, getElementsInGroup (A <$> l) newGroupId
                          = A <$> getElementsInGroup l newGroupId).
  { intros l. apply (filter_map_assigned group clippingMaskId newGroupId (fun b => b)). }
  assert (HfnA : forall l,
             List.filter (fun e => negb (isElementInGroup e newGroupId)) (A <$> l)
             = A <$> List.filter (fun e => negb (isElementInGroup e newGroupId)) l).
  { intros l. apply (filter_map_assigned group clippingMaskId newGroupId negb). }
  unfold moveGroup. rewrite fmap_last.
  destruct (last group) as [L|] eqn:Hlast; simpl.
  - destruct (filter_last_split _ _ _ Hlast) as (l1 & l2 & Hsplit & HL & Hl2).
    assert (Hpos : (A <$> nextElements) !! length (A <$> l1) = Some (A L)).
    { rewrite Hsplit, fmap_app, fmap_cons. apply list_lookup_middle. reflexivity. }
    assert (HndA : NoDup (Element.obj <$> (A <$> nextElements))).
    { rewrite <- list_fmap_compose.
      rewrite (list_fmap_ext (Element.obj ∘ A) Element.obj nextElements); [exact Hnd|].
      intros i x _. apply assigned_obj. }
    rewrite (lastIndexOf_NoDup _ _ _ HndA Hpos).
    rewrite Hsplit, fmap_app, fmap_cons.
    rewrite take_app_length.
    replace (length (A <$> l1) + 1)%nat with (length ((A <$> l1) ++ [A L]))
      by (rewrite length_app; reflexivity).
    replace ((A <$> l1) ++ A L :: (A <$> l2)) with (((A <$> l1) ++ [A L]) ++ (A <$> l2))
      by (rewrite <- app_assoc; reflexivity).
    rewrite drop_app_length.
    unfold getElementsInGroup at 1. rewrite !List.filter_app.
    rewrite (filter_filter_negb (fun e => isElementInGroup e newGroupId)).
    fold (getElementsInGroup (A <$> l2) newGroupId).
    fold (getElementsInGroup (A <$> group) newGroupId).
    rewrite !HfA. unfold getElementsInGroup at 2. rewrite Hl2. simpl fmap.
    rewrite app_nil_r. simpl. f_equal.
    subst group. unfold getElementsInGroup. apply filter_idem.
  - apply last_None in Hlast. rewrite Hlast. simpl.
    unfold getElementsInGroup at 1. rewrite List.filter_app.
    rewrite (filter_filter_negb (fun e => isElementInGroup e newGroupId)). simpl.
    fold (getElementsInGroup (A <$> nextElements) newGroupId).
    rewrite HfA. fold group. rewrite Hlast. reflexivity.
Qed.

Lemma assigned_at (group : list ExcalidrawElement) clippingMaskId i e :
  NoDup (Element.obj <$> group) -> group !! i = Some e ->
  maskProps (assigned group clippingMaskId e)
  = (true, clippingMaskId, Z.of_nat (length group), (Z.of_nat i + 1)%Z).
Proof.
  intros Hnd Hi. unfold assigned. rewrite (lastIndexOf_NoDup _ _ _ Hnd Hi). reflexivity.
Qed.

Lemma actionMakeClippingMask_elements newGroupId clippingMaskId elements appState :
  let selectedElements := getSelectedElements (AppState.selectedElementIds appState) true in
  (2 <= length selectedElements)%nat ->
  alreadyGrouped elements selectedElements appState = false ->
  let nextElements :=
    regroup (unframe selectedElements elements) selectedElements newGroupId appState in
  let group := getElementsInGroup nextElements newGroupId in
  res_elements (actionMakeClippingMask newGroupId clippingMaskId elements appState)
  = syncMovedIndices
      (moveGroup (assigned group clippingMaskId <$> nextElements)
                 (assigned group clippingMaskId <$> group) newGroupId)
      (assigned group clippingMaskId <$> group).
Proof.
  intros selectedElements Hlen Hnot nextElements group. unfold actionMakeClippingMask.
  fold selectedElements. rewrite bool_decide_eq_false_2 by lia. rewrite Hnot.
  fold nextElements. fold group. cbv zeta.
  destruct (selectGroup _ _ _) as [[? ?] ?]. reflexivity.
Qed.


(** C10.  After [actionMakeClippingMask] on at least two selected elements
    that are not already one group, the elements of the new group, in their
    order in the returned list, carry [isMakeClippingMask = true], the
    generated [clippingMaskId], [cmGroupLength] equal to the number of
    elements of the group, and [cmeIndex] 1, 2, ..., n.  (The scene list
    holds distinct objects, and re-indexing leaves group ids and mask
    properties alone.) *)
Theorem actionMakeClippingMask_tags newGroupId clippingMaskId elements appState :
  let selectedElements := getSelectedElements (AppState.selectedElementIds appState) true in
  let nextElements :=
    regroup (unframe selectedElements elements) selectedElements newGroupId appState in
  (2 <= length selectedElements)%nat ->
  alreadyGrouped elements selectedElements appState = false ->
  NoDup (Element.obj <$> nextElements) ->
  (forall l moved, maskView <$> syncMovedIndices l moved = maskView <$> l) ->
  let newGroup :=
    getElementsInGroup
      (res_elements (actionMakeClippingMask newGroupId clippingMaskId elements appState))
      newGroupId in
  length newGroup = length (getElementsInGroup nextElements newGroupId)
  /\ forall i e, newGroup !! i = Some e ->
       Element.isMakeClippingMask e = true
       /\ Element.clippingMaskId e = clippingMaskId
       /\ Element.cmGroupLength e = Z.of_nat (length newGroup)
       /\ Element.cmeIndex e = (Z.of_nat i + 1)%Z.
Proof.
  intros selectedElements nextElements Hlen Hnot Hnd Hsync newGroup.
  set (group := getElementsInGroup nextElements newGroupId).
  assert (Hprops : maskProps <$> newGroup
                   = maskProps <$> (assigned group clippingMaskId <$> group)).
  { subst newGroup. rewrite actionMakeClippingMask_elements by assumption.
    fold selectedElements nextElements group.
    pose proof (moveGroup_group nextElements newGroupId clippingMaskId Hnd) as Hmg.
    fold group in Hmg. cbv zeta in Hmg. rewrite <- Hmg at 3.
    apply (filter_by_view maskView (viewInGroup newGroupId) snd).
    apply Hsync. }
  assert (Hsize : length newGroup = length group).
  { apply (f_equal length) in Hprops. rewrite !length_fmap in Hprops. exact Hprops. }
  split; [exact Hsize|]. intros i e Hi.
  assert (Hp : (maskProps <$> newGroup) !! i = Some (maskProps e))
    by (rewrite list_lookup_fmap, Hi; reflexivity).
  rewrite Hprops, !list_lookup_fmap in Hp.
  destruct (group !! i) as [g|] eqn:Hg; [|discriminate]. simpl in Hp.
  rewrite (assigned_at group clippingMaskId i g) in Hp;
    [|apply NoDup_obj_filter; exact Hnd | exact Hg].
  injection Hp as H1 H2 H3 H4. rewrite Hsize. auto.
Qed.
End MakeClippingMask.

Lemma NoDup_three (a b c : positive) :
  a <> b -> a <> c -> b <> c -> NoDup [a; b; c].
Proof.
  intros. repeat (apply NoDup_cons; split); try apply NoDup_nil;
    rewrite ?elem_of_cons, ?elem_of_nil; intuition.
Qed.

(** C10, witness: of the scene [a; b; c] the elements [a] and [c] are
    selected. *)
Lemma actionMakeClippingMask_tags_witness :
  let scene := [Scenes.rectangleA; Scenes.rectangleB; Scenes.ellipseC] in
  let appState := Scenes.selecting ["a"; "c"]%string in
  let newGroup :=
    getElementsInGroup
      (res_elements (actionMakeClippingMask (C := Scenes.actions scene)
                       "group" "mask" scene appState))
      "group" in
  length newGroup = 2%nat
  /\ forall i e, newGroup !! i = Some e ->
       Element.isMakeClippingMask e = true
       /\ Element.clippingMaskId e = "mask"%string
       /\ Element.cmGroupLength e = Z.of_nat (length newGroup)
       /\ Element.cmeIndex e = (Z.of_nat i + 1)%Z.
Proof.
  intros scene appState newGroup.
  assert (Hnd : NoDup (Element.obj <$>
                         regroup (C := Scenes.actions scene)
                           (unframe (C := Scenes.actions scene)
                              (getSelectedElements (Collaborators := Scenes.actions scene)
                                 (AppState.selectedElementIds appState) true) scene)
                           (getSelectedElements (Collaborators := Scenes.actions scene)
                              (AppState.selectedElementIds appState) true)
                           "group" appState)).
  { change (NoDup [101%positive; 2%positive; 103%positive]).
    apply NoDup_three; discriminate. }
  destruct (actionMakeClippingMask_tags (C := Scenes.actions scene)
              "group" "mask" scene appState) as [Hlen Htags].
  - change (2 <= 2)%nat. lia.
  - reflexivity.
  - exact Hnd.
  - reflexivity.
  - split; [exact Hlen | exact Htags].
Defined.

End ActionProperties.

(** * Further properties of the geometry *)

(** ** Bounds of points and of curves *)

Section GeometryProperties.
Import BoundsTs.

Lemma getBoundsFromPoints_fold (points : list Point) :
  getBoundsFromPoints points
  = foldl accumulate InfBox (toBox <$> ((fun p : Point => (p.1, p.2, p.1, p.2)) <$> points)).
Proof.
  unfold getBoundsFromPoints. generalize InfBox.
  induction points as [|[x y] points IH]; intros acc; [reflexivity|].
  simpl. apply IH.
Qed.

Lemma getBoundsFromPoints_minmax (points : list Point) :
  match getBoundsFromPoints points with
  | InfBox => points = []
  | Box minX minY maxX maxY =>
      points <> []
      /\ isMinOf minX (points.*1) /\ isMinOf minY (points.*2)
      /\ isMaxOf maxX (points.*1) /\ isMaxOf maxY (points.*2)
  end.
Proof.
  destruct points as [|p points]; [reflexivity|].
  rewrite getBoundsFromPoints_fold.
  set (boxes := (fun p : Point => (p.1, p.2, p.1, p.2)) <$> (p :: points)).
  destruct (foldl_accumulate_union boxes) as (X1 & Y1 & X2 & Y2 & -> & H1 & H2 & H3 & H4);
    [discriminate|].
  assert (E1 : boxes.*1.*1.*1 = (p :: points).*1).
  { subst boxes. rewrite <- !list_fmap_compose. reflexivity. }
  assert (E2 : boxes.*1.*1.*2 = (p :: points).*2).
  { subst boxes. rewrite <- !list_fmap_compose. reflexivity. }
  assert (E3 : boxes.*1.*2 = (p :: points).*1).
  { subst boxes. rewrite <- !list_fmap_compose. reflexivity. }
  assert (E4 : boxes.*2 = (p :: points).*2).
  { subst boxes. rewrite <- !list_fmap_compose. reflexivity. }
  rewrite E1 in H1. rewrite E2 in H2. rewrite E3 in H3. rewrite E4 in H4.
  split; [discriminate|]. auto.
Qed.

(** X1.  [getBoundsFromPoints] of a list without points returns the seeds
    [[Infinity, Infinity, -Infinity, -Infinity]]; of any other list it
    returns numbers, which are the least and the greatest abscissa and the
    least and the greatest ordinate of the points: every point lies within
    the bounds and every side passes through a point. *)
Theorem getBoundsFromPoints_tight (points : list Point) :
  match getBoundsFromPoints points with
  | InfBox => points = []
  | Box minX minY maxX maxY =>
      points <> []
      /\ isMinOf minX (points.*1) /\ isMinOf minY (points.*2)
      /\ isMaxOf maxX (points.*1) /\ isMaxOf maxY (points.*2)
  end.
Proof. apply getBoundsFromPoints_minmax. Qed.

(** The derivative of the Bernstein cubic is the quadratic that
    [solveQuadratic] solves. *)
Lemma getBezierValueForT_derivative p0 p1 p2 p3 t :
  derivable_pt_lim (fun t => getBezierValueForT t p0 p1 p2 p3) t
    (derivativeA p0 p1 p2 p3 * t ^ 2 + derivativeB p0 p1 p2 p3 * t
     + derivativeC p0 p1 p2 p3).
Proof.
  set (c3 := - p0 + 3 * p1 - 3 * p2 + p3).
  set (c2 := 3 * p0 - 6 * p1 + 3 * p2).
  set (c1 := - 3 * p0 + 3 * p1).
  apply (derivable_pt_lim_ext
           (mult_real_fct c3 (fun y => y ^ 3) + mult_real_fct c2 (fun y => y ^ 2)
            + mult_real_fct c1 id + fct_cte p0)%F).
  { intros z. unfold getBezierValueForT, plus_fct, mult_real_fct, fct_cte, id, c3, c2, c1.
    ring. }
  replace (derivativeA p0 p1 p2 p3 * t ^ 2 + derivativeB p0 p1 p2 p3 * t
           + derivativeC p0 p1 p2 p3)
    with (c3 * (INR 3 * t ^ pred 3) + c2 * (INR 2 * t ^ pred 2) + c1 * 1 + 0).
  2:{ unfold derivativeA, derivativeB, derivativeC, c3, c2, c1. simpl. ring. }
  repeat apply derivable_pt_lim_plus.
  - apply derivable_pt_lim_scal, derivable_pt_lim_pow.
  - apply derivable_pt_lim_scal, derivable_pt_lim_pow.
  - apply derivable_pt_lim_scal, derivable_pt_lim_id.
  - apply derivable_pt_lim_const.
Qed.

Lemma getBezierValueForT_derivable p0 p1 p2 p3 t :
  derivable_pt (fun t => getBezierValueForT t p0 p1 p2 p3) t.
Proof. eexists. apply getBezierValueForT_derivative. Qed.

Lemma getBezierValueForT_0 p0 p1 p2 p3 : getBezierValueForT 0 p0 p1 p2 p3 = p0.
Proof. unfold getBezierValueForT. ring. Qed.
Lemma getBezierValueForT_1 p0 p1 p2 p3 : getBezierValueForT 1 p0 p1 p2 p3 = p3.
Proof. unfold getBezierValueForT. ring. Qed.

(** A value of the cubic at an inner point where the derivative vanishes is
    an endpoint value or a value that [solveQuadratic] keeps. *)
Lemma critical_value_kept p0 p1 p2 p3 t :
  0 <= t <= 1 ->
  derivativeA p0 p1 p2 p3 * t ^ 2 + derivativeB p0 p1 p2 p3 * t
  + derivativeC p0 p1 p2 p3 = 0 ->
  getBezierValueForT t p0 p1 p2 p3 ∈ p0 :: p3 :: survivors p0 p1 p2 p3.
Proof.
  intros Ht Hroot.
  destruct (Req_dec_T (derivativeA p0 p1 p2 p3) 0) as [Ha|Ha];
    [destruct (Req_dec_T (derivativeB p0 p1 p2 p3) 0) as [Hb|Hb]|].
  - rewrite Ha, Hb in Hroot. unfold derivativeA, derivativeB, derivativeC in *.
    assert (p1 = p0) by lra. assert (p2 = p0) by lra. assert (p3 = p0) by lra. subst.
    replace (getBezierValueForT t p0 p0 p0 p0) with p0
      by (unfold getBezierValueForT; ring).
    apply list_elem_of_here.
  - do 2 apply list_elem_of_further. apply survivors_complete; auto.
  - do 2 apply list_elem_of_further. apply survivors_complete; auto.
Qed.

Lemma getBezierValueForT_le_max p0 p1 p2 p3 M t :
  isMaxOf M (p0 :: p3 :: survivors p0 p1 p2 p3) ->
  0 <= t <= 1 -> getBezierValueForT t p0 p1 p2 p3 <= M.
Proof.
  intros [_ HM] Ht.
  set (f := fun t => getBezierValueForT t p0 p1 p2 p3).
  destruct (continuity_ab_maj f 0 1) as (Mx & Hmax & HMx); [lra| |].
  { intros c _. apply derivable_continuous_pt, getBezierValueForT_derivable. }
  apply Rle_trans with (f Mx); [apply Hmax, Ht|].
  apply HM. destruct (Req_dec_T Mx 0) as [->|H0];
    [unfold f; rewrite getBezierValueForT_0; apply list_elem_of_here|].
  destruct (Req_dec_T Mx 1) as [->|H1];
    [unfold f; rewrite getBezierValueForT_1; apply list_elem_of_further, list_elem_of_here|].
  apply critical_value_kept; [exact HMx|].
  rewrite <- (derive_pt_eq_0 f Mx _ (getBezierValueForT_derivable p0 p1 p2 p3 Mx)
                (getBezierValueForT_derivative p0 p1 p2 p3 Mx)).
  apply (deriv_maximum f 0 1); [lra | lra |].
  intros x Hx0 Hx1. apply Hmax. lra.
Qed.

Lemma getBezierValueForT_ge_min p0 p1 p2 p3 m t :
  isMinOf m (p0 :: p3 :: survivors p0 p1 p2 p3) ->
  0 <= t <= 1 -> m <= getBezierValueForT t p0 p1 p2 p3.
Proof.
  intros [_ Hm] Ht.
  set (f := fun t => getBezierValueForT t p0 p1 p2 p3).
  destruct (continuity_ab_min f 0 1) as (mx & Hmin & Hmx); [lra| |].
  { intros c _. apply derivable_continuous_pt, getBezierValueForT_derivable. }
  apply Rle_trans with (f mx); [|apply Hmin, Ht].
  apply Hm. destruct (Req_dec_T mx 0) as [->|H0];
    [unfold f; rewrite getBezierValueForT_0; apply list_elem_of_here|].
  destruct (Req_dec_T mx 1) as [->|H1];
    [unfold f; rewrite getBezierValueForT_1; apply list_elem_of_further, list_elem_of_here|].
  apply critical_value_kept; [exact Hmx|].
  rewrite <- (derive_pt_eq_0 f mx _ (getBezierValueForT_derivable p0 p1 p2 p3 mx)
                (getBezierValueForT_derivative p0 p1 p2 p3 mx)).
  apply (deriv_minimum f 0 1); [lra | lra |].
  intros x Hx0 Hx1. apply Hmin. lra.
Qed.

(** A value among the endpoints and the kept values is a value of the cubic
    on [[0, 1]]. *)
Lemma kept_value_on_curve p0 p1 p2 p3 v :
  v ∈ p0 :: p3 :: survivors p0 p1 p2 p3 ->
  exists t, 0 <= t <= 1 /\ v = getBezierValueForT t p0 p1 p2 p3.
Proof.
  rewrite !elem_of_cons. intros [->|[->|Hv]].
  - exists 0. rewrite getBezierValueForT_0. split; [lra|reflexivity].
  - exists 1. rewrite getBezierValueForT_1. split; [lra|reflexivity].
  - destruct (survivors_sound _ _ _ _ _ Hv) as (t & Ht & _ & ->). eauto.
Qed.

Lemma curvePoint_0 (p0 p1 p2 p3 : Point) : curvePoint p0 p1 p2 p3 0 = p0.
Proof. unfold curvePoint. rewrite !getBezierValueForT_0. destruct p0; reflexivity. Qed.

Lemma curvePoint_1 (p0 p1 p2 p3 : Point) : curvePoint p0 p1 p2 p3 1 = p3.
Proof. unfold curvePoint. rewrite !getBezierValueForT_1. destruct p3; reflexivity. Qed.

(** X2.  The box that [getCubicBezierCurveBound] returns for a cubic segment
    holds the two end points of the segment, and it does not reach beyond
    the curve: each of its four sides passes through a point of the segment,
    the cubic of [getBezierValueForT] at a parameter within [[0, 1]]. *)
Theorem getCubicBezierCurveBound_endpoints (p0 p1 p2 p3 : Point) :
  let box := getCubicBezierCurveBound p0 p1 p2 p3 in
  within (toBox box) p0
  /\ within (toBox box) p3
  /\ (exists t, 0 <= t <= 1 /\ (curvePoint p0 p1 p2 p3 t).1 = box.1.1.1)
  /\ (exists t, 0 <= t <= 1 /\ (curvePoint p0 p1 p2 p3 t).2 = box.1.1.2)
  /\ (exists t, 0 <= t <= 1 /\ (curvePoint p0 p1 p2 p3 t).1 = box.1.2)
  /\ (exists t, 0 <= t <= 1 /\ (curvePoint p0 p1 p2 p3 t).2 = box.2).
Proof.
  cbv zeta. rewrite getCubicBezierCurveBound_spread. unfold toBox, within, curvePoint.
  cbn [fst snd].
  pose proof (Math_min_spread_isMinOf (p3.1 :: survivors p0.1 p1.1 p2.1 p3.1) p0.1) as HminX.
  pose proof (Math_min_spread_isMinOf (p3.2 :: survivors p0.2 p1.2 p2.2 p3.2) p0.2) as HminY.
  pose proof (Math_max_spread_isMaxOf (p3.1 :: survivors p0.1 p1.1 p2.1 p3.1) p0.1) as HmaxX.
  pose proof (Math_max_spread_isMaxOf (p3.2 :: survivors p0.2 p1.2 p2.2 p3.2) p0.2) as HmaxY.
  assert (Hin0 : forall (v : number) l, v ∈ v :: l) by (intros; apply list_elem_of_here).
  assert (Hin1 : forall (u v : number) l, v ∈ u :: v :: l)
    by (intros; apply list_elem_of_further, list_elem_of_here).
  split; [|split].
  - repeat split;
      first [apply (proj2 HminX) | apply (proj2 HminY)
            | apply (proj2 HmaxX) | apply (proj2 HmaxY)]; apply Hin0.
  - repeat split;
      first [apply (proj2 HminX) | apply (proj2 HminY)
            | apply (proj2 HmaxX) | apply (proj2 HmaxY)]; apply Hin1.
  - repeat split.
    + destruct (kept_value_on_curve _ _ _ _ _ (proj1 HminX)) as (t & Ht & E). eauto.
    + destruct (kept_value_on_curve _ _ _ _ _ (proj1 HminY)) as (t & Ht & E). eauto.
    + destruct (kept_value_on_curve _ _ _ _ _ (proj1 HmaxX)) as (t & Ht & E). eauto.
    + destruct (kept_value_on_curve _ _ _ _ _ (proj1 HmaxY)) as (t & Ht & E). eauto.
Qed.

Lemma within_accumulate_l acc b p : within acc p -> within (accumulate acc b) p.
Proof.
  destruct acc as [a1 a2 a3 a4|], b as [b1 b2 b3 b4|]; simpl; try tauto.
  pose proof (Math_min_le_l a1 b1). pose proof (Math_min_le_l a2 b2).
  pose proof (Math_max_ge_l a3 b3). pose proof (Math_max_ge_l a4 b4). lra.
Qed.

Lemma within_accumulate_r acc b p : within b p -> within (accumulate acc b) p.
Proof.
  destruct acc as [a1 a2 a3 a4|], b as [b1 b2 b3 b4|]; simpl; try tauto.
  pose proof (Math_min_le_r a1 b1). pose proof (Math_min_le_r a2 b2).
  pose proof (Math_max_ge_r a3 b3). pose proof (Math_max_ge_r a4 b4). lra.
Qed.

Lemma within_curve_bound p0 p1 p2 p3 t :
  0 <= t <= 1 -> within (toBox (getCubicBezierCurveBound p0 p1 p2 p3)) (curvePoint p0 p1 p2 p3 t).
Proof.
  intros Ht. rewrite getCubicBezierCurveBound_spread. unfold toBox, within, curvePoint.
  cbn [fst snd]. repeat split;
    first [apply getBezierValueForT_ge_min | apply getBezierValueForT_le_max];
    first [apply Math_min_spread_isMinOf | apply Math_max_spread_isMaxOf | assumption].
Qed.

Lemma curvePathStep_bcurveTo transformXY currentP limits o :
  op o = "bcurveTo"%string ->
  curvePathStep transformXY (currentP, limits) o
  = ((at_ (data o) 4, at_ (data o) 5),
     accumulate limits
       (toBox (getCubicBezierCurveBound
                 (match transformXY with Some f => f currentP.1 currentP.2 | None => currentP end)
                 (match transformXY with
                  | Some f => f (at_ (data o) 0) (at_ (data o) 1)
                  | None => (at_ (data o) 0, at_ (data o) 1) end)
                 (match transformXY with
                  | Some f => f (at_ (data o) 2) (at_ (data o) 3)
                  | None => (at_ (data o) 2, at_ (data o) 3) end)
                 (match transformXY with
                  | Some f => f (at_ (data o) 4) (at_ (data o) 5)
                  | None => (at_ (data o) 4, at_ (data o) 5) end)))).
Proof.
  intros Hop. unfold curvePathStep. rewrite Hop.
  rewrite (bool_decide_eq_false_2 ("bcurveTo"%string = "move"%string)) by discriminate.
  rewrite bool_decide_eq_true_2 by reflexivity. cbn [fst snd].
  destruct (getCubicBezierCurveBound _ _ _ _) as [[[minX minY] maxX] maxY].
  reflexivity.
Qed.

Lemma curvePathStep_move transformXY currentP limits o :
  op o = "move"%string ->
  curvePathStep transformXY (currentP, limits) o
  = ((at_ (data o) 0, at_ (data o) 1), limits).
Proof. intros Hop. unfold curvePathStep. rewrite bool_decide_eq_true_2; auto. Qed.

Lemma curvePathStep_other transformXY currentP limits o :
  op o <> "move"%string -> op o <> "bcurveTo"%string ->
  curvePathStep transformXY (currentP, limits) o = (currentP, limits).
Proof.
  intros H1 H2. unfold curvePathStep. rewrite !bool_decide_eq_false_2; auto.
Qed.

Lemma foldl_curvePathStep_finite transformXY (ops : list Op) :
  forall currentP a b c d,
    exists a' b' c' d',
      (foldl (curvePathStep transformXY) (currentP, Box a b c d) ops).2 = Box a' b' c' d'.
Proof.
  induction ops as [|o ops IH]; intros currentP a b c d; [simpl; eauto|].
  cbn [foldl]. unfold curvePathStep at 2.
  destruct (bool_decide (op o = "move"%string)); [apply IH|].
  destruct (bool_decide (op o = "bcurveTo"%string)); [|apply IH].
  destruct (getCubicBezierCurveBound _ _ _ _) as [[[minX minY] maxX] maxY].
  simpl accumulate. apply IH.
Qed.

Lemma foldl_curvePathStep_within transformXY (ops : list Op) :
  forall currentP limits,
    let result := (foldl (curvePathStep transformXY) (currentP, limits) ops).2 in
    (forall p, within limits p -> within result p)
    /\ (forall seg t, seg ∈ curveSegments transformXY currentP ops -> 0 <= t <= 1 ->
          within result (curvePoint seg.1.1.1 seg.1.1.2 seg.1.2 seg.2 t)).
Proof.
  induction ops as [|o ops IH]; intros currentP limits; cbv zeta.
  - simpl. split; [auto|]. intros seg t H. inversion H.
  - cbn [foldl curveSegments].
    destruct (bool_decide_reflect (op o = "move"%string)) as [Hm|Hm].
    + rewrite curvePathStep_move by assumption. apply IH.
    + destruct (bool_decide_reflect (op o = "bcurveTo"%string)) as [Hb|Hb].
      * rewrite curvePathStep_bcurveTo by assumption.
        match goal with
        | |- context [foldl _ (?c, accumulate limits ?b) ops] =>
            destruct (IH c (accumulate limits b)) as [IH1 IH2]; set (box := b) in *
        end.
        split.
        -- intros p Hp. apply IH1, within_accumulate_l, Hp.
        -- intros seg t Hs Ht. apply elem_of_cons in Hs as [->|Hs].
           ++ apply IH1, within_accumulate_r. subst box. cbn [fst snd].
              apply within_curve_bound. assumption.
           ++ apply IH2; assumption.
      * rewrite curvePathStep_other by assumption. apply IH.
Qed.

Lemma foldl_curvePathStep_seeds transformXY (ops : list Op) :
  forall currentP,
    (foldl (curvePathStep transformXY) (currentP, InfBox) ops).2 = InfBox
    <-> Forall (fun o => op o <> "bcurveTo"%string) ops.
Proof.
  induction ops as [|o ops IH]; intros currentP.
  - simpl. split; auto.
  - cbn [foldl]. rewrite Forall_cons.
    destruct (bool_decide_reflect (op o = "move"%string)) as [Hm|Hm].
    + rewrite curvePathStep_move by assumption.
      rewrite IH. split; [|tauto]. intros H. split; [|exact H]. rewrite Hm. discriminate.
    + destruct (bool_decide_reflect (op o = "bcurveTo"%string)) as [Hb|Hb].
      * rewrite curvePathStep_bcurveTo by assumption.
        destruct (getCubicBezierCurveBound _ _ _ _) as [[[minX minY] maxX] maxY].
        unfold toBox. cbn [fst snd accumulate].
        match goal with
        | |- context [foldl _ (?c, Box ?a ?b ?c' ?d) ops] =>
            destruct (foldl_curvePathStep_finite transformXY ops c a b c' d)
              as (a' & b' & c'' & d' & E)
        end.
        split; [|intros [H _]; contradiction].
        intros H. exfalso.
        assert (Hbox : Box a' b' c'' d' = InfBox) by (rewrite <- E; exact H).
        discriminate Hbox.
      * rewrite curvePathStep_other by assumption.
        rewrite IH. tauto.
Qed.

Lemma getMinMaxXYFromCurvePathOps_encloses_seeds (ops : list Op)
    (transformXY : option (number -> number -> Point)) :
  getMinMaxXYFromCurvePathOps ops transformXY = InfBox
  <-> Forall (fun o => op o <> "bcurveTo"%string) ops.
Proof. apply foldl_curvePathStep_seeds. Qed.

(** X3.  [getMinMaxXYFromCurvePathOps] returns the seeds [[Infinity,
    Infinity, -Infinity, -Infinity]] exactly when the path has no [bcurveTo]
    operation ([move], [lineTo] and [qcurveTo] add nothing); otherwise its
    result is a box of numbers that holds the start point and the end point
    of every cubic segment of the path, the start of a segment being the
    current point that the last [move] or [bcurveTo] has set. *)
Theorem getMinMaxXYFromCurvePathOps_endpoints (ops : list Op)
    (transformXY : option (number -> number -> Point)) :
  (getMinMaxXYFromCurvePathOps ops transformXY = InfBox
   <-> Forall (fun o => op o <> "bcurveTo"%string) ops)
  /\ (forall seg, seg ∈ curveSegments transformXY (0, 0) ops ->
        within (getMinMaxXYFromCurvePathOps ops transformXY) seg.1.1.1
        /\ within (getMinMaxXYFromCurvePathOps ops transformXY) seg.2).
Proof.
  unfold getMinMaxXYFromCurvePathOps. split.
  - apply foldl_curvePathStep_seeds.
  - intros seg Hseg.
    destruct (foldl_curvePathStep_within transformXY ops (0, 0) InfBox) as [_ H].
    split.
    + rewrite <- (curvePoint_0 seg.1.1.1 seg.1.1.2 seg.1.2 seg.2).
      apply H; [exact Hseg | lra].
    + rewrite <- (curvePoint_1 seg.1.1.1 seg.1.1.2 seg.1.2 seg.2).
      apply H; [exact Hseg | lra].
Qed.

Lemma ordered_accumulate acc b :
  (acc = InfBox \/ ordered acc) -> ordered b -> ordered (accumulate acc b).
Proof.
  destruct acc as [a1 a2 a3 a4|], b as [b1 b2 b3 b4|]; simpl; try tauto.
  intros [H|H] Hb; [discriminate|].
  pose proof (Math_min_le_r a1 b1). pose proof (Math_min_le_r a2 b2).
  pose proof (Math_max_ge_r a3 b3). pose proof (Math_max_ge_r a4 b4). lra.
Qed.

Lemma ordered_curve_bound p0 p1 p2 p3 :
  ordered (toBox (getCubicBezierCurveBound p0 p1 p2 p3)).
Proof.
  pose proof (within_curve_bound p0 p1 p2 p3 0) as H.
  destruct (toBox _); simpl in *; lra.
Qed.

Lemma foldl_curvePathStep_ordered transformXY (ops : list Op) :
  forall currentP limits,
    limits = InfBox \/ ordered limits ->
    let result := (foldl (curvePathStep transformXY) (currentP, limits) ops).2 in
    result = InfBox \/ ordered result.
Proof.
  induction ops as [|o ops IH]; intros currentP limits Hl; cbv zeta; [exact Hl|].
  cbn [foldl].
  destruct (bool_decide_reflect (op o = "move"%string)) as [Hm|Hm].
  - rewrite curvePathStep_move by assumption. apply IH, Hl.
  - destruct (bool_decide_reflect (op o = "bcurveTo"%string)) as [Hb|Hb].
    + rewrite curvePathStep_bcurveTo by assumption. apply IH. right.
      apply ordered_accumulate; [exact Hl | apply ordered_curve_bound].
    + rewrite curvePathStep_other by assumption. apply IH, Hl.
Qed.

Lemma getMinMaxXYFromCurvePathOps_ordered ops transformXY :
  getMinMaxXYFromCurvePathOps ops transformXY = InfBox
  \/ ordered (getMinMaxXYFromCurvePathOps ops transformXY).
Proof.
  apply (foldl_curvePathStep_ordered transformXY ops (0, 0) InfBox). auto.
Qed.

Lemma getBoundsFromPoints_ordered (points : list Point) :
  points <> [] -> ordered (getBoundsFromPoints points).
Proof.
  intros Hne. pose proof (getBoundsFromPoints_minmax points) as H.
  destruct (getBoundsFromPoints points) as [a b c d|]; [|contradiction].
  destruct H as (_ & [Ha1 Ha2] & [Hb1 Hb2] & [Hc1 Hc2] & [Hd1 Hd2]). simpl. auto.
Qed.

Lemma ordered_translate dx dy b : ordered b -> ordered (translate dx dy b).
Proof. destruct b; simpl; [lra|tauto]. Qed.

Lemma Math_min4_le a b c d :
  Math_min4 a b c d <= a /\ Math_min4 a b c d <= b
  /\ Math_min4 a b c d <= c /\ Math_min4 a b c d <= d.
Proof.
  unfold Math_min4.
  pose proof (Math_min_le_l (Math_min (Math_min a b) c) d).
  pose proof (Math_min_le_r (Math_min (Math_min a b) c) d).
  pose proof (Math_min_le_l (Math_min a b) c). pose proof (Math_min_le_r (Math_min a b) c).
  pose proof (Math_min_le_l a b). pose proof (Math_min_le_r a b). lra.
Qed.

Lemma Math_max4_ge a b c d :
  a <= Math_max4 a b c d /\ b <= Math_max4 a b c d
  /\ c <= Math_max4 a b c d /\ d <= Math_max4 a b c d.
Proof.
  unfold Math_max4.
  pose proof (Math_max_ge_l (Math_max (Math_max a b) c) d).
  pose proof (Math_max_ge_r (Math_max (Math_max a b) c) d).
  pose proof (Math_max_ge_l (Math_max a b) c). pose proof (Math_max_ge_r (Math_max a b) c).
  pose proof (Math_max_ge_l a b). pose proof (Math_max_ge_r a b). lra.
Qed.

Lemma Math_hypot_nonneg a b : 0 <= Math_hypot a b.
Proof. apply sqrt_pos. Qed.

(** ** The bounds of an element *)

Section ElementBounds.
Context `{C : Collaborators}.

Lemma getElementAbsoluteCoords_None element elementsMap includeBoundText :
  getElementAbsoluteCoords element elementsMap includeBoundText = None
  <-> isFreeDrawElement element = true /\ Element.points element = [].
Proof.
  unfold getElementAbsoluteCoords, getFreeDrawElementAbsoluteCoords.
  destruct (isFreeDrawElement element).
  - pose proof (getBoundsFromPoints_minmax (Element.points element)) as H.
    destruct (getBoundsFromPoints (Element.points element)).
    + split; [discriminate|]. intros [_ E]. destruct H as [H _]. contradiction.
    + split; auto.
  - split; [|intros [[=] _]].
    destruct (isLinearElement element); [discriminate|].
    destruct (isTextElement element); [|discriminate].
    destruct (getContainerElement element elementsMap) as [container|]; [|discriminate].
    destruct (isArrowElement container); discriminate.
Qed.

Lemma getLinearElementRotatedBounds_ordered element cx cy elementsMap :
  getBoundTextElement element elementsMap = None ->
  let bounds := getLinearElementRotatedBounds element cx cy elementsMap in
  (bounds = InfBox
   /\ (2 <= length (Element.points element))%nat
   /\ Forall (fun o => op o <> "bcurveTo"%string) (getCurvePathOps (linearElementShape element)))
  \/ ordered bounds.
Proof.
  intros Hnone. cbv zeta. unfold getLinearElementRotatedBounds. rewrite Hnone.
  destruct (bool_decide_reflect (length (Element.points element) < 2)%nat) as [Hlt|Hge].
  - right. destruct (nth 0 (Element.points element) (0, 0)) as [pointX pointY].
    destruct (rotate _ _ _ _ _) as [x y]. simpl. lra.
  - match goal with
    | |- context [getMinMaxXYFromCurvePathOps ?ops ?tr] =>
        destruct (getMinMaxXYFromCurvePathOps_ordered ops tr) as [E|Ho];
          pose proof (proj1 (getMinMaxXYFromCurvePathOps_encloses_seeds ops tr)) as Hseeds
    end.
    + left. split; [exact E|]. split; [lia|]. apply Hseeds, E.
    + right. exact Ho.
Qed.

(** X4.  The bounds that [calculateBounds] computes are in order, at every
    angle and for a box of either orientation: [minX <= maxX] and
    [minY <= maxY].  (A linear element is taken with at least one point,
    without which the source throws, and without a bound text, whose bounds
    come from the linear element editor.)  The only bounds that are
    not numbers are those of a freedraw element without points and of a
    linear element of two or more points whose shape has no [bcurveTo]
    operation. *)
Theorem calculateBounds_ordered element elementsMap :
  (isLinearElement element = true -> Element.points element <> []) ->
  (isLinearElement element = true -> getBoundTextElement element elementsMap = None) ->
  match calculateBounds element elementsMap with
  | Box minX minY maxX maxY => minX <= maxX /\ minY <= maxY
  | InfBox =>
      (isFreeDrawElement element = true /\ Element.points element = [])
      \/ (isLinearElement element = true
          /\ (2 <= length (Element.points element))%nat
          /\ Forall (fun o => op o <> "bcurveTo"%string)
                    (getCurvePathOps (linearElementShape element)))
  end.
Proof.
  intros _ Htext. unfold calculateBounds.
  destruct (getElementAbsoluteCoords element elementsMap false)
    as [[[[[[x1 y1] x2] y2] cx] cy]|] eqn:Hc.
  2:{ left. apply getElementAbsoluteCoords_None in Hc. exact Hc. }
  destruct (isFreeDrawElement element) eqn:Hf.
  { assert (Hne : Element.points element <> []).
    { intros E. assert (Hn : getElementAbsoluteCoords element elementsMap false = None)
        by (apply getElementAbsoluteCoords_None; auto). congruence. }
    match goal with
    | |- context [getBoundsFromPoints ?l] =>
        pose proof (getBoundsFromPoints_ordered l) as Ho
    end.
    destruct (getBoundsFromPoints _) as [a b c d|].
    - simpl in *. assert (a <= c /\ b <= d) as [? ?]; [|lra].
      apply Ho. destruct (Element.points element); [contradiction|discriminate].
    - exfalso. apply Ho.
      destruct (Element.points element); [contradiction|discriminate]. }
  destruct (isLinearElement element) eqn:Hl.
  { destruct (getLinearElementRotatedBounds_ordered element cx cy elementsMap (Htext eq_refl))
      as [(E & Hlen & Hops)|Ho].
    - rewrite E. right. auto.
    - destruct (getLinearElementRotatedBounds _ _ _ _); [exact Ho|contradiction]. }
  destruct (bool_decide (Element.type element = "diamond"%string)).
  { repeat match goal with |- context [rotate ?a ?b ?c ?d ?e] =>
      destruct (rotate a b c d e) end.
    cbv zeta.
    repeat match goal with |- context [Math_min4 ?a ?b ?c ?d] =>
      pose proof (Math_min4_le a b c d); set (Math_min4 a b c d) in * end.
    repeat match goal with |- context [Math_max4 ?a ?b ?c ?d] =>
      pose proof (Math_max4_ge a b c d); set (Math_max4 a b c d) in * end.
    lra. }
  destruct (bool_decide (Element.type element = "ellipse"%string)).
  { cbv zeta.
    repeat match goal with |- context [Math_hypot ?a ?b] =>
      pose proof (Math_hypot_nonneg a b); set (Math_hypot a b) in * end.
    lra. }
  repeat match goal with |- context [rotate ?a ?b ?c ?d ?e] =>
    destruct (rotate a b c d e) end.
  cbv zeta.
  repeat match goal with |- context [Math_min4 ?a ?b ?c ?d] =>
    pose proof (Math_min4_le a b c d); set (Math_min4 a b c d) in * end.
  repeat match goal with |- context [Math_max4 ?a ?b ?c ?d] =>
    pose proof (Math_max4_ge a b c d); set (Math_max4 a b c d) in * end.
  lra.
Qed.

(** *** Moving an element *)

Lemma rotate_moved x y cx cy angle dx dy x' y' cx' cy' :
  x' = x + dx -> y' = y + dy -> cx' = cx + dx -> cy' = cy + dy ->
  rotate x' y' cx' cy' angle
  = ((rotate x y cx cy angle).1 + dx, (rotate x y cx cy angle).2 + dy).
Proof. intros -> -> -> ->. unfold rotate. simpl. f_equal; ring. Qed.

Lemma Math_min_plus a b d : Math_min (a + d) (b + d) = Math_min a b + d.
Proof. unfold Math_min; Rdecide. Qed.
Lemma Math_max_plus a b d : Math_max (a + d) (b + d) = Math_max a b + d.
Proof. unfold Math_max; Rdecide. Qed.

Lemma Math_min4_moved a b c e a' b' c' e' d :
  a' = a + d -> b' = b + d -> c' = c + d -> e' = e + d ->
  Math_min4 a' b' c' e' = Math_min4 a b c e + d.
Proof. intros -> -> -> ->. unfold Math_min4. rewrite !Math_min_plus. reflexivity. Qed.

Lemma Math_max4_moved a b c e a' b' c' e' d :
  a' = a + d -> b' = b + d -> c' = c + d -> e' = e + d ->
  Math_max4 a' b' c' e' = Math_max4 a b c e + d.
Proof. intros -> -> -> ->. unfold Math_max4. rewrite !Math_max_plus. reflexivity. Qed.

Lemma translate_accumulate dx dy acc b :
  translate dx dy (accumulate acc b) = accumulate (translate dx dy acc) (translate dx dy b).
Proof.
  destruct acc, b; simpl; try reflexivity.
  rewrite !Math_min_plus, !Math_max_plus. reflexivity.
Qed.

Lemma translate_foldl_accumulate dx dy (l : list Bounds) :
  forall acc,
    translate dx dy (foldl accumulate acc l)
    = foldl accumulate (translate dx dy acc) (translate dx dy <$> l).
Proof.
  induction l as [|b l IH]; intros acc; [reflexivity|].
  rewrite fmap_cons. cbn [foldl]. rewrite IH, translate_accumulate. reflexivity.
Qed.

Lemma translate_plus dx dy x y b :
  translate (x + dx) (y + dy) b = translate dx dy (translate x y b).
Proof. destruct b; simpl; [f_equal; ring|reflexivity]. Qed.

(** Bounds follow the element: moving the origin by [(dx, dy)] moves the
    bounds by [(dx, dy)]. *)
Lemma calculateBounds_moved dx dy element elementsMap elementsMap' :
  ownGeometry element ->
  calculateBounds (moved dx dy element) elementsMap'
  = translate dx dy (calculateBounds element elementsMap).
Proof.
  intros [Hl Ht]. unfold calculateBounds, getElementAbsoluteCoords.
  change (isFreeDrawElement (moved dx dy element)) with (isFreeDrawElement element).
  change (isLinearElement (moved dx dy element)) with (isLinearElement element).
  change (isTextElement (moved dx dy element)) with (isTextElement element).
  rewrite Hl, Ht.
  change (Element.type (moved dx dy element)) with (Element.type element).
  change (Element.angle (moved dx dy element)) with (Element.angle element).
  change (Element.width (moved dx dy element)) with (Element.width element).
  change (Element.height (moved dx dy element)) with (Element.height element).
  change (Element.x (moved dx dy element)) with (Element.x element + dx).
  change (Element.y (moved dx dy element)) with (Element.y element + dy).
  change (Element.points (moved dx dy element)) with (Element.points element).
  destruct (isFreeDrawElement element) eqn:Hf.
  { unfold getFreeDrawElementAbsoluteCoords.
    change (Element.points (moved dx dy element)) with (Element.points element).
    change (Element.x (moved dx dy element)) with (Element.x element + dx).
    change (Element.y (moved dx dy element)) with (Element.y element + dy).
    destruct (getBoundsFromPoints (Element.points element)) as [minX minY maxX maxY|];
      [|reflexivity].
    cbv zeta. rewrite translate_plus. f_equal. f_equal. f_equal.
    apply List.map_ext. intros [x y]. f_equal; field. }
  set (x := Element.x element). set (y := Element.y element).
  set (w := Element.width element). set (h := Element.height element).
  set (a := Element.angle element).
  destruct (bool_decide (Element.type element = "diamond"%string)).
  { rewrite (rotate_moved (x + w / 2) y (x + w / 2) (y + h / 2) a dx dy) by ring.
    rewrite (rotate_moved (x + w / 2) (y + h) (x + w / 2) (y + h / 2) a dx dy) by ring.
    rewrite (rotate_moved x (y + h / 2) (x + w / 2) (y + h / 2) a dx dy) by ring.
    rewrite (rotate_moved (x + w) (y + h / 2) (x + w / 2) (y + h / 2) a dx dy) by ring.
    repeat match goal with |- context [rotate ?a ?b ?c ?d ?e] =>
      destruct (rotate a b c d e) end.
    cbn [fst snd translate].
    f_equal; first [apply Math_min4_moved | apply Math_max4_moved]; reflexivity. }
  destruct (bool_decide (Element.type element = "ellipse"%string)).
  { cbv zeta. cbn [translate].
    replace (x + dx + w - (x + dx)) with (x + w - x) by ring.
    replace (y + dy + h - (y + dy)) with (y + h - y) by ring.
    f_equal; ring. }
  rewrite (rotate_moved x y (x + w / 2) (y + h / 2) a dx dy) by ring.
  rewrite (rotate_moved x (y + h) (x + w / 2) (y + h / 2) a dx dy) by ring.
  rewrite (rotate_moved (x + w) (y + h) (x + w / 2) (y + h / 2) a dx dy) by ring.
  rewrite (rotate_moved (x + w) y (x + w / 2) (y + h / 2) a dx dy) by ring.
  repeat match goal with |- context [rotate ?a ?b ?c ?d ?e] =>
    destruct (rotate a b c d e) end.
  cbn [fst snd translate].
  f_equal; first [apply Math_min4_moved | apply Math_max4_moved]; reflexivity.
Qed.

Lemma wellFormed_moved dx dy (elements : list ExcalidrawElement) :
  wellFormed elements -> wellFormed (moved dx dy <$> elements).
Proof.
  intros Hwf e1 e2 H1 H2 Heq.
  apply list_elem_of_fmap in H1 as (a1 & -> & H1).
  apply list_elem_of_fmap in H2 as (a2 & -> & H2).
  f_equal. apply Hwf; assumption.
Qed.

(** X5.  The bounds of dragged elements are the bounds the elements have
    once moved: for a list of elements that is not empty, none of them linear
    or a text, and a cache without entries of theirs,
    [getDraggedElementsBounds] with the offset [(dx, dy)] returns what
    [getCommonBounds] returns for the elements moved by [(dx, dy)]. *)
Theorem getDraggedElementsBounds_moved boundsCache (elements : list ExcalidrawElement)
    (dx dy : number) :
  elements <> [] ->
  wellFormed elements ->
  (forall e, e ∈ elements -> ownGeometry e) ->
  (forall e, e ∈ elements -> boundsCache !! Element.obj e = None) ->
  (getDraggedElementsBounds boundsCache elements (dx, dy)).1
  = (getCommonBounds boundsCache (moved dx dy <$> elements)).1.
Proof.
  intros Hne Hwf Hown Hcold.
  assert (Hd : (getDraggedElementsBounds boundsCache elements (dx, dy)).1
               = translate dx dy (getCommonBounds boundsCache elements).1).
  { unfold getDraggedElementsBounds. destruct (getCommonBounds boundsCache elements).
    reflexivity. }
  rewrite Hd, (getCommonBounds_fold boundsCache elements Hne Hwf).
  rewrite getCommonBounds_fold;
    [|destruct elements; [congruence|discriminate] | apply wellFormed_moved, Hwf].
  rewrite translate_foldl_accumulate. simpl translate. f_equal.
  rewrite <- !list_fmap_compose. apply list_fmap_ext. intros i e Hi. simpl.
  apply list_elem_of_lookup_2 in Hi.
  unfold getElementBounds.
  rewrite !getBounds_miss.
  - simpl. symmetry. apply calculateBounds_moved, Hown, Hi.
  - change (Element.obj (moved dx dy e)) with (Element.obj e).
    rewrite (Hcold e Hi). reflexivity.
  - rewrite (Hcold e Hi). reflexivity.
Qed.

End ElementBounds.

(** X4, witness: a line of one point. *)
Lemma calculateBounds_ordered_witness :
  (isLinearElement Scenes.lineOfOnePoint = true ->
   Element.points Scenes.lineOfOnePoint <> [])
  /\ (isLinearElement Scenes.lineOfOnePoint = true ->
      getBoundTextElement (Collaborators := Scenes.bounds) Scenes.lineOfOnePoint ∅ = None)
  /\ match calculateBounds (C := Scenes.bounds) Scenes.lineOfOnePoint ∅ with
     | Box minX minY maxX maxY => minX <= maxX /\ minY <= maxY
     | InfBox =>
         (isFreeDrawElement Scenes.lineOfOnePoint = true
          /\ Element.points Scenes.lineOfOnePoint = [])
         \/ (isLinearElement Scenes.lineOfOnePoint = true
             /\ (2 <= length (Element.points Scenes.lineOfOnePoint))%nat
             /\ Forall (fun o => op o <> "bcurveTo"%string)
                       (getCurvePathOps
                          (linearElementShape (Collaborators := Scenes.bounds)
                             Scenes.lineOfOnePoint)))
     end.
Proof.
  assert (Hpoints : isLinearElement Scenes.lineOfOnePoint = true ->
                    Element.points Scenes.lineOfOnePoint <> [])
    by (intros _; discriminate).
  assert (Htext : isLinearElement Scenes.lineOfOnePoint = true ->
                  getBoundTextElement (Collaborators := Scenes.bounds)
                    Scenes.lineOfOnePoint ∅ = None)
    by (intros _; reflexivity).
  split; [exact Hpoints|]. split; [exact Htext|].
  apply (calculateBounds_ordered (C := Scenes.bounds) Scenes.lineOfOnePoint ∅
           Hpoints Htext).
Defined.

(** X5, witness: a rectangle and an ellipse dragged by (3, 4). *)
Lemma getDraggedElementsBounds_moved_witness :
  let elements := [Scenes.rectangleA; Scenes.ellipseC] in
  elements <> []
  /\ wellFormed elements
  /\ (forall e, e ∈ elements -> ownGeometry e)
  /\ (forall e, e ∈ elements -> (∅ : gmap positive CachedBounds) !! Element.obj e = None)
  /\ (getDraggedElementsBounds (C := Scenes.bounds) ∅ elements (3, 4)).1
     = (getCommonBounds (C := Scenes.bounds) ∅ (moved 3 4 <$> elements)).1.
Proof.
  intros elements.
  assert (Hne : elements <> []) by discriminate.
  assert (Hwf : wellFormed elements) by (apply wellFormed_pair; discriminate).
  assert (Hown : forall e, e ∈ elements -> ownGeometry e).
  { intros e He. apply elem_of_cons in He as [->|He];
      [|apply list_elem_of_singleton in He as ->]; split; reflexivity. }
  assert (Hcold : forall e, e ∈ elements ->
                    (∅ : gmap positive CachedBounds) !! Element.obj e = None)
    by (intros e _; apply lookup_empty).
  repeat (split; [assumption|]).
  apply (getDraggedElementsBounds_moved (C := Scenes.bounds) ∅ elements 3 4 Hne Hwf Hown Hcold).
Defined.

(** ** The closest element *)

Section ClosestElement.
Context `{C : Collaborators}.
Variable distance2d : number -> number -> number -> number -> number.

Lemma closestStep_eq m from minDistance closestElement cache a :
  closestStep distance2d m from (minDistance, closestElement, cache) a
  = match centreDistance distance2d from (getBounds cache a m).1 with
    | Some distance =>
        if match minDistance with
           | Some minDistance => bool_decide (distance < minDistance)
           | None => true
           end
        then (Some distance, a, (getBounds cache a m).2)
        else (minDistance, closestElement, (getBounds cache a m).2)
    | None => (minDistance, closestElement, (getBounds cache a m).2)
    end.
Proof.
  unfold closestStep, getElementBounds. destruct (getBounds cache a m) as [[x1 y1 x2 y2|] cache'];
    reflexivity.
Qed.

Lemma foldl_closestStep cache0 m from (all : list ExcalidrawElement) :
  (forall e1 e2, e1 ∈ all -> e2 ∈ all -> Element.obj e1 = Element.obj e2 -> e1 = e2) ->
  let dist e := centreDistance distance2d from (getBounds cache0 e m).1 in
  forall (l : list ExcalidrawElement) minDistance closestElement cache,
    (forall e, e ∈ l -> e ∈ all) ->
    (forall e, e ∈ all -> (getBounds cache e m).1 = (getBounds cache0 e m).1) ->
    exists minDistance' closestElement' cache',
      foldl (closestStep distance2d m from) (minDistance, closestElement, cache) l
      = (minDistance', closestElement', cache')
      /\ (forall e, e ∈ all -> (getBounds cache' e m).1 = (getBounds cache0 e m).1)
      /\ ((minDistance' = minDistance /\ closestElement' = closestElement
           /\ forall e d', e ∈ l -> dist e = Some d' ->
                 exists d, minDistance = Some d /\ d <= d')
          \/ (closestElement' ∈ l
              /\ exists d, minDistance' = Some d /\ dist closestElement' = Some d
                   /\ (forall e d', e ∈ l -> dist e = Some d' -> d <= d')
                   /\ (forall d0, minDistance = Some d0 -> d < d0))).
Proof.
  intros Hobj dist.
  induction l as [|a l IH]; intros minDistance closestElement cache Hsub Hinv.
  - exists minDistance, closestElement, cache. split; [reflexivity|]. split; [exact Hinv|].
    left. repeat split. intros e d' He. inversion He.
  - assert (Ha : a ∈ all) by (apply Hsub, list_elem_of_here).
    assert (Hinv' : forall e, e ∈ all ->
              (getBounds (getBounds cache a m).2 e m).1 = (getBounds cache0 e m).1).
    { intros e He. destruct (decide (Element.obj e = Element.obj a)) as [Heq|Hne].
      - assert (e = a) as -> by (apply Hobj; assumption).
        rewrite getBounds_again. apply Hinv, Ha.
      - rewrite <- (Hinv e He). apply getBounds_fst_lookup, getBounds_snd_other, Hne. }
    assert (Hsub' : forall e, e ∈ l -> e ∈ all)
      by (intros e He; apply Hsub, list_elem_of_further, He).
    cbn [foldl]. rewrite closestStep_eq, (Hinv a Ha). fold (dist a).
    destruct (dist a) as [da|] eqn:Hda.
    + destruct minDistance as [d0|].
      * destruct (bool_decide_reflect (da < d0)) as [Hlt|Hge].
        -- destruct (IH (Some da) a _ Hsub' Hinv') as (md & ce & c' & -> & Hc' & Hres).
           exists md, ce, c'. split; [reflexivity|]. split; [exact Hc'|]. right.
           destruct Hres as [(-> & -> & Hall)|(Hin & d & -> & Hd & Hall & Hless)].
           ++ split; [apply list_elem_of_here|]. exists da. repeat split; auto.
              ** intros e d' He Hd'. apply elem_of_cons in He as [->|He].
                 --- rewrite Hda in Hd'. injection Hd' as <-. lra.
                 --- destruct (Hall e d' He Hd') as (d & [= <-] & Hle). exact Hle.
              ** intros d1 [= <-]. exact Hlt.
           ++ split; [apply list_elem_of_further, Hin|]. exists d. repeat split; auto.
              ** intros e d' He Hd'. apply elem_of_cons in He as [->|He].
                 --- rewrite Hda in Hd'. injection Hd' as <-.
                     pose proof (Hless da eq_refl). lra.
                 --- apply (Hall e d' He Hd').
              ** intros d1 [= <-]. pose proof (Hless da eq_refl). lra.
        -- destruct (IH (Some d0) closestElement _ Hsub' Hinv')
             as (md & ce & c' & -> & Hc' & Hres).
           exists md, ce, c'. split; [reflexivity|]. split; [exact Hc'|].
           destruct Hres as [(-> & -> & Hall)|(Hin & d & -> & Hd & Hall & Hless)].
           ++ left. repeat split. intros e d' He Hd'. exists d0. split; [reflexivity|].
              apply elem_of_cons in He as [->|He].
              ** rewrite Hda in Hd'. injection Hd' as <-. lra.
              ** destruct (Hall e d' He Hd') as (d & [= <-] & Hle). exact Hle.
           ++ right. split; [apply list_elem_of_further, Hin|]. exists d. repeat split; auto.
              intros e d' He Hd'. apply elem_of_cons in He as [->|He].
              ** rewrite Hda in Hd'. injection Hd' as <-.
                 pose proof (Hless d0 eq_refl). lra.
              ** apply (Hall e d' He Hd').
      * destruct (IH (Some da) a _ Hsub' Hinv') as (md & ce & c' & -> & Hc' & Hres).
        exists md, ce, c'. split; [reflexivity|]. split; [exact Hc'|]. right.
        destruct Hres as [(-> & -> & Hall)|(Hin & d & -> & Hd & Hall & Hless)].
        -- split; [apply list_elem_of_here|]. exists da. repeat split; auto.
           ++ intros e d' He Hd'. apply elem_of_cons in He as [->|He].
              ** rewrite Hda in Hd'. injection Hd' as <-. lra.
              ** destruct (Hall e d' He Hd') as (d & [= <-] & Hle). exact Hle.
           ++ intros d1 [=].
        -- split; [apply list_elem_of_further, Hin|]. exists d. repeat split; auto.
           ++ intros e d' He Hd'. apply elem_of_cons in He as [->|He].
              ** rewrite Hda in Hd'. injection Hd' as <-.
                 pose proof (Hless da eq_refl). lra.
              ** apply (Hall e d' He Hd').
           ++ intros d1 [=].
    + destruct (IH minDistance closestElement _ Hsub' Hinv')
        as (md & ce & c' & -> & Hc' & Hres).
      exists md, ce, c'. split; [reflexivity|]. split; [exact Hc'|].
      destruct Hres as [(-> & -> & Hall)|(Hin & d & -> & Hd & Hall & Hless)].
      * left. repeat split. intros e d' He Hd'. apply elem_of_cons in He as [->|He].
        -- rewrite Hda in Hd'. discriminate.
        -- apply (Hall e d' He Hd').
      * right. split; [apply list_elem_of_further, Hin|]. exists d. repeat split; auto.
        intros e d' He Hd'. apply elem_of_cons in He as [->|He].
        -- rewrite Hda in Hd'. discriminate.
        -- apply (Hall e d' He Hd').
Qed.

(** X6.  [getClosestElementBounds] of a list that is not empty returns the
    bounds that [getElementBounds] gives for one of its elements, and no
    element of the list has the centre of its bounds nearer to [from] than
    this one (an element whose bounds are not numbers is never chosen before
    one whose bounds are). *)
Theorem getClosestElementBounds_nearest boundsCache (elements : list ExcalidrawElement)
    (from : Point) :
  elements <> [] ->
  wellFormed elements ->
  let individual element :=
    (getElementBounds boundsCache element (arrayToMap elements)).1 in
  exists closestElement,
    closestElement ∈ elements
    /\ (getClosestElementBounds distance2d boundsCache elements from).1
       = individual closestElement
    /\ forall element d, element ∈ elements ->
         centreDistance distance2d from (individual element) = Some d ->
         exists dmin, centreDistance distance2d from (individual closestElement) = Some dmin
                      /\ dmin <= d.
Proof.
  intros Hne Hwf individual. unfold getClosestElementBounds.
  destruct elements as [|first rest]; [congruence|].
  set (elements := first :: rest) in *.
  set (m := arrayToMap elements) in *.
  assert (Hobj : forall e1 e2, e1 ∈ elements -> e2 ∈ elements ->
                   Element.obj e1 = Element.obj e2 -> e1 = e2)
    by (intros e1 e2 H1 H2 Ho; apply Hwf; auto).
  destruct (foldl_closestStep boundsCache m from elements Hobj elements None first boundsCache)
    as (md & ce & c' & Hfold & Hc' & Hres); [auto|auto|].
  assert (Hfirst : first ∈ elements) by apply list_elem_of_here.
  rewrite Hfold. unfold getElementBounds in *. subst individual. cbv beta.
  destruct Hres as [(-> & -> & Hall)|(Hin & d & -> & Hd & Hall & _)].
  - exists first. split; [exact Hfirst|]. split; [apply Hc', Hfirst|].
    intros e d He Hd. destruct (Hall e d He Hd) as (d0 & [=] & _).
  - exists ce. split; [exact Hin|]. split; [apply Hc', Hin|].
    intros e d' He Hd'. exists d. split; [exact Hd|]. apply (Hall e d' He Hd').
Qed.

End ClosestElement.

(** X6, witness: two rectangles and the origin, under the Euclidean
    distance. *)
Lemma getClosestElementBounds_nearest_witness :
  let elements := [Scenes.rectangleA; Scenes.rectangleB] in
  let distance2d x1 y1 x2 y2 := Math_hypot (x2 - x1) (y2 - y1) in
  let individual element :=
    (getElementBounds (C := Scenes.bounds) ∅ element (arrayToMap elements)).1 in
  elements <> []
  /\ wellFormed elements
  /\ exists closestElement,
       closestElement ∈ elements
       /\ (getClosestElementBounds (C := Scenes.bounds) distance2d ∅ elements (0, 0)).1
          = individual closestElement
       /\ forall element d, element ∈ elements ->
            centreDistance distance2d (0, 0) (individual element) = Some d ->
            exists dmin,
              centreDistance distance2d (0, 0) (individual closestElement) = Some dmin
              /\ dmin <= d.
Proof.
  intros elements distance2d individual.
  assert (Hne : elements <> []) by discriminate.
  assert (Hwf : wellFormed elements) by (apply wellFormed_pair; discriminate).
  split; [exact Hne|]. split; [exact Hwf|].
  apply (getClosestElementBounds_nearest (C := Scenes.bounds) distance2d ∅ elements (0, 0)
           Hne Hwf).
Defined.

(** ** Line segments and diamond points *)

Section LineSegments.
Context `{C : Collaborators}.

Lemma polylineSegments_length element center (points : list Point) :
  length (polylineSegments element center points) = pred (length points).
Proof.
  induction points as [|p [|q points] IH]; [reflexivity|reflexivity|].
  change (polylineSegments element center (p :: q :: points))
    with ((rotatePoint (p.1 + Element.x element, p.2 + Element.y element)
                       center (Element.angle element),
           rotatePoint (q.1 + Element.x element, q.2 + Element.y element)
                       center (Element.angle element))
          :: polylineSegments element center (q :: points)).
  simpl length in *. rewrite IH. reflexivity.
Qed.

Lemma polylineSegments_lookup element center (points : list Point) :
  forall i p q,
    points !! i = Some p -> points !! S i = Some q ->
    polylineSegments element center points !! i
    = Some (rotatePoint (p.1 + Element.x element, p.2 + Element.y element)
                        center (Element.angle element),
            rotatePoint (q.1 + Element.x element, q.2 + Element.y element)
                        center (Element.angle element)).
Proof.
  induction points as [|p0 [|q0 points] IH]; intros i p q Hp Hq;
    [inversion Hp | destruct i; inversion Hq |].
  change (polylineSegments element center (p0 :: q0 :: points))
    with ((rotatePoint (p0.1 + Element.x element, p0.2 + Element.y element)
                       center (Element.angle element),
           rotatePoint (q0.1 + Element.x element, q0.2 + Element.y element)
                       center (Element.angle element))
          :: polylineSegments element center (q0 :: points)).
  destruct i as [|i].
  - simpl in Hp, Hq. injection Hp as <-. injection Hq as <-. reflexivity.
  - simpl in Hp.
    change (polylineSegments element center (q0 :: points) !! i
            = Some (rotatePoint (p.1 + Element.x element, p.2 + Element.y element)
                                center (Element.angle element),
                    rotatePoint (q.1 + Element.x element, q.2 + Element.y element)
                                center (Element.angle element))).
    apply IH; assumption.
Qed.

Lemma polylineSegments_connected element center (points : list Point) :
  forall i s s',
    polylineSegments element center points !! i = Some s ->
    polylineSegments element center points !! S i = Some s' ->
    s.2 = s'.1.
Proof.
  intros i s s' Hs Hs'.
  assert (Hlen : (S (S i) < length points)%nat).
  { apply lookup_lt_Some in Hs'. rewrite polylineSegments_length in Hs'. lia. }
  destruct (lookup_lt_is_Some_2 points i) as [p Hp]; [lia|].
  destruct (lookup_lt_is_Some_2 points (S i)) as [q Hq]; [lia|].
  destruct (lookup_lt_is_Some_2 points (S (S i))) as [r Hr]; [lia|].
  rewrite (polylineSegments_lookup element center points i p q Hp Hq) in Hs.
  rewrite (polylineSegments_lookup element center points (S i) q r Hq Hr) in Hs'.
  injection Hs as <-. injection Hs' as <-. reflexivity.
Qed.

(** X7.  For a linear or freedraw element of [n] points
    [getElementLineSegments] returns [n - 1] segments (none without points),
    the segment [i] from the point [i] to the point [i + 1], each moved to
    the scene and rotated about the centre of the element: every segment
    starts where the one before it ends. *)
Theorem getElementLineSegments_polyline element elementsMap :
  isLinearElement element || isFreeDrawElement element = true ->
  let segments := getElementLineSegments element elementsMap in
  length segments = pred (length (Element.points element))
  /\ (forall i s s', segments !! i = Some s -> segments !! S i = Some s' -> s.2 = s'.1)
  /\ (forall i p q x1 y1 x2 y2 cx cy,
        getElementAbsoluteCoords element elementsMap false = Some (x1, y1, x2, y2, cx, cy) ->
        Element.points element !! i = Some p ->
        Element.points element !! S i = Some q ->
        segments !! i
        = Some (rotatePoint (p.1 + Element.x element, p.2 + Element.y element)
                            (cx, cy) (Element.angle element),
                rotatePoint (q.1 + Element.x element, q.2 + Element.y element)
                            (cx, cy) (Element.angle element))).
Proof.
  intros Hpoly. cbv zeta. unfold getElementLineSegments.
  destruct (getElementAbsoluteCoords element elementsMap false)
    as [[[[[[x1 y1] x2] y2] cx] cy]|] eqn:Hc.
  - rewrite Hpoly. split; [apply polylineSegments_length|].
    split; [apply polylineSegments_connected|].
    intros i p q ? ? ? ? ? ? [= <- <- <- <- <- <-]. apply polylineSegments_lookup.
  - apply getElementAbsoluteCoords_None in Hc as [_ ->].
    split; [reflexivity|]. split; [intros i s s' H; inversion H|]. intros; discriminate.
Qed.

End LineSegments.

(** X7, witness: a freedraw element of two points has one segment. *)
Lemma getElementLineSegments_polyline_witness :
  isLinearElement Scenes.freedrawUpLeft || isFreeDrawElement Scenes.freedrawUpLeft = true
  /\ length (getElementLineSegments (C := Scenes.bounds) Scenes.freedrawUpLeft ∅) = 1%nat.
Proof.
  split; [reflexivity|].
  destruct (getElementLineSegments_polyline (C := Scenes.bounds) Scenes.freedrawUpLeft ∅
              eq_refl) as (Hlen & _).
  exact Hlen.
Defined.

Lemma floor_plus_1_zero r : IZR (Int_part r) + 1 = 0 <-> -1 <= r < 0.
Proof.
  pose proof (base_Int_part r) as [Hle Hgt]. split.
  - intros H. lra.
  - intros Hr. rewrite <- (Int_part_spec r (-1)%Z) by lra. lra.
Qed.

Lemma floor_plus_1_positive r : 0 <= r -> 1 <= IZR (Int_part r) + 1.
Proof.
  intros Hr. assert (H : (0 <= Int_part r)%Z).
  { destruct (Z_lt_le_dec (Int_part r) 0) as [Hlt|Hge]; [|exact Hge].
    exfalso. pose proof (base_Int_part r) as [Hle Hgt].
    assert (IZR (Int_part r) <= -1) by (apply IZR_le; lia). lra. }
  apply IZR_le in H. lra.
Qed.

(** X8.  [getDiamondPoints] returns [[topX, 0, width, rightY, topX, height,
    0, rightY]].  For a width and a height that are not negative [topX] and
    [rightY] are at least [1], so never [0]; [topX] is [0] exactly for a
    width within [[-2, 0)], and [rightY] exactly for a height within
    [[-2, 0)]. *)
Theorem getDiamondPoints_zero (element : ExcalidrawElement) :
  exists topX rightY,
    getDiamondPoints element
    = [topX; 0; Element.width element; rightY; topX; Element.height element; 0; rightY]
    /\ (0 <= Element.width element -> 1 <= topX)
    /\ (0 <= Element.height element -> 1 <= rightY)
    /\ (topX = 0 <-> -2 <= Element.width element < 0)
    /\ (rightY = 0 <-> -2 <= Element.height element < 0).
Proof.
  eexists _, _. split; [reflexivity|].
  split; [intros H; apply floor_plus_1_positive; lra|].
  split; [intros H; apply floor_plus_1_positive; lra|].
  rewrite !floor_plus_1_zero. split; split; lra.
Qed.

End GeometryProperties.

(** * Further properties of the hit tests *)

Section HitTests.
Import ResizeTestTs.

Section WithCollaborators.
Context `{B : BoundsTs.Collaborators} `{C : Collaborators}.

Lemma elem_of_keysInside handles x y h :
  h ∈ keysInside handles x y <-> handleHit handles x y h.
Proof.
  unfold keysInside, handleHit. rewrite list_elem_of_fmap. split.
  - intros ([k [handle|]] & -> & Hin); apply list_elem_of_In, filter_In in Hin as [Hin Hf];
      simpl in Hf; [|discriminate].
    exists handle. split; [apply list_elem_of_In, Hin | exact Hf].
  - intros (handle & Hin & Hf). exists (h, Some handle). split; [reflexivity|].
    apply list_elem_of_In, filter_In. split; [apply list_elem_of_In, Hin | exact Hf].
Qed.

Lemma firstSideHit_Some sides x y SPACING dir :
  firstSideHit sides x y SPACING = Some dir -> dir ∈ sides.*1.
Proof.
  unfold firstSideHit. destruct (List.find _ sides) as [[d side]|] eqn:Hf; [|discriminate].
  intros [= <-]. apply find_some in Hf as [Hin _].
  apply list_elem_of_fmap. exists (d, side). split; [reflexivity | apply list_elem_of_In, Hin].
Qed.

Lemma getSelectionBorders_keys p1 p2 center angleInDegrees :
  (getSelectionBorders p1 p2 center angleInDegrees).*1 = ["n"; "e"; "s"; "w"]%string.
Proof. destruct p1, p2. reflexivity. Qed.

Lemma firstSideHit_sideHit sides x y SPACING dir :
  firstSideHit sides x y SPACING = Some dir -> sideHit sides x y SPACING dir.
Proof.
  unfold firstSideHit, sideHit.
  destruct (List.find _ sides) as [[d side]|] eqn:Hf; [|discriminate].
  intros [= <-]. apply find_some in Hf as [Hin Hon].
  exists side. split; [apply list_elem_of_In, Hin | exact Hon].
Qed.

Lemma sideHit_keys p1 p2 center angleInDegrees x y SPACING dir :
  sideHit (getSelectionBorders p1 p2 center angleInDegrees) x y SPACING dir ->
  dir ∈ ["n"; "e"; "s"; "w"]%string.
Proof.
  intros (side & Hin & _). rewrite <- (getSelectionBorders_keys p1 p2 center angleInDegrees).
  apply list_elem_of_fmap. exists (dir, side). split; [reflexivity | exact Hin].
Qed.

(** The two rounds of the side tests: the sides of the widened box, unless
    the element is linear with two points at most, and then the sides of the
    crop window of an element that renders one. *)
Lemma sideTests_rounds element elementsMap x y zoom coords :
  BoundsTs.getElementAbsoluteCoords element elementsMap false = Some coords ->
  let SPACING := SIDE_RESIZING_THRESHOLD / zoom_value zoom in
  sideTests element elementsMap x y zoom
  = match (if negb (isLinearElement element
                    && bool_decide (length (Element.points element) <= 2)%nat)
           then firstSideHit (boxSides element coords zoom) x y SPACING
           else None) with
    | Some dir => Some dir
    | None =>
        match Element.isRenderCropWindow element, Element.cropProperties element with
        | Some true, Some crop =>
            firstSideHit (cropWindowSides element coords crop) x y SPACING
        | _, _ => None
        end
    end.
Proof.
  intros Hc. cbv zeta. unfold sideTests. rewrite Hc.
  destruct coords as [[[[[x1 y1] x2] y2] cx] cy]. unfold boxSides, cropWindowSides.
  destruct (if negb _ then _ else _); [reflexivity|].
  destruct (Element.isRenderCropWindow element) as [[]|],
           (Element.cropProperties element); reflexivity.
Qed.

Lemma sideTests_sideHit element elementsMap x y zoom dir :
  sideTests element elementsMap x y zoom = Some dir ->
  let SPACING := SIDE_RESIZING_THRESHOLD / zoom_value zoom in
  exists coords,
    BoundsTs.getElementAbsoluteCoords element elementsMap false = Some coords
    /\ ((isLinearElement element
         && bool_decide (length (Element.points element) <= 2)%nat = false
         /\ sideHit (boxSides element coords zoom) x y SPACING dir)
        \/ (Element.isRenderCropWindow element = Some true
            /\ exists crop,
                 Element.cropProperties element = Some crop
                 /\ sideHit (cropWindowSides element coords crop) x y SPACING dir)).
Proof.
  intros Hs. cbv zeta.
  destruct (BoundsTs.getElementAbsoluteCoords element elementsMap false) as [coords|] eqn:Hc.
  2:{ unfold sideTests in Hs. rewrite Hc in Hs. discriminate. }
  exists coords. split; [reflexivity|].
  rewrite (sideTests_rounds _ _ _ _ _ _ Hc) in Hs.
  destruct (isLinearElement element
            && bool_decide (length (Element.points element) <= 2)%nat) eqn:Hlin;
    simpl negb in Hs; cbv iota in Hs.
  - right.
    destruct (Element.isRenderCropWindow element) as [[]|]; try discriminate Hs.
    destruct (Element.cropProperties element) as [crop|]; [|discriminate Hs].
    split; [reflexivity|]. exists crop. split; [reflexivity|].
    apply firstSideHit_sideHit, Hs.
  - destruct (firstSideHit (boxSides element coords zoom) x y _) as [d|] eqn:Hbox.
    + injection Hs as <-. left. split; [reflexivity|]. apply firstSideHit_sideHit, Hbox.
    + right.
      destruct (Element.isRenderCropWindow element) as [[]|]; try discriminate Hs.
      destruct (Element.cropProperties element) as [crop|]; [|discriminate Hs].
      split; [reflexivity|]. exists crop. split; [reflexivity|].
      apply firstSideHit_sideHit, Hs.
Qed.

Lemma sideTests_Some element elementsMap x y zoom dir :
  sideTests element elementsMap x y zoom = Some dir -> dir ∈ ["n"; "e"; "s"; "w"]%string.
Proof.
  unfold sideTests.
  destruct (BoundsTs.getElementAbsoluteCoords element elementsMap false)
    as [[[[[[x1 y1] x2] y2] cx] cy]|]; [|discriminate].
  match goal with
  | |- match ?fromSides with _ => _ end = _ -> _ => destruct fromSides as [d|] eqn:Hs
  end.
  - intros [= <-]. destruct (negb _); [|discriminate].
    apply firstSideHit_Some in Hs. rewrite getSelectionBorders_keys in Hs. exact Hs.
  - intros Hs'.
    destruct (Element.isRenderCropWindow element) as [[]|];
      destruct (Element.cropProperties element); try discriminate Hs'.
    apply firstSideHit_Some in Hs'. rewrite getSelectionBorders_keys in Hs'.
    exact Hs'.
Qed.

(** X9.  [resizeTest] answers with a handle only for a selected element,
    and every answer is a hit: ["rotation"] when the rotation handle holds the
    pointer; a key of the transform handles or of the crop handles whose
    handle holds the pointer; or, on a device that resizes from the sides,
    one of ["n"], ["e"], ["s"], ["w"] when [pointOnLine] finds the pointer on
    that side of the widened box of the element (not a linear element of two
    points at most) or on that side of its crop window. *)
Theorem resizeTest_answers element elementsMap appState x y zoom pointerType device h :
  resizeTest element elementsMap appState x y zoom pointerType device = Some h ->
  let handles :=
    getTransformHandles element zoom elementsMap pointerType (getOmitSidesForDevice device) in
  let cropHandles :=
    getCropTransformHandles element zoom elementsMap pointerType
                            (getOmitSidesForDevice device) in
  isSet (AppState.selectedElementIds appState) (Element.id element) = true
  /\ ((h = "rotation"%string
       /\ exists handle, rotationOf handles = Some handle
                         /\ isInsideTransformHandle handle x y = true)
      \/ handleHit (restOf handles) x y h
      \/ handleHit (restOf cropHandles) x y h
      \/ (canResizeFromSides device = true
          /\ h ∈ ["n"; "e"; "s"; "w"]%string
          /\ let SPACING := SIDE_RESIZING_THRESHOLD / zoom_value zoom in
             exists coords,
               BoundsTs.getElementAbsoluteCoords element elementsMap false = Some coords
               /\ ((isLinearElement element
                    && bool_decide (length (Element.points element) <= 2)%nat = false
                    /\ sideHit (boxSides element coords zoom) x y SPACING h)
                   \/ (Element.isRenderCropWindow element = Some true
                       /\ exists crop,
                            Element.cropProperties element = Some crop
                            /\ sideHit (cropWindowSides element coords crop)
                                       x y SPACING h)))).
Proof.
  intros Hres handles cropHandles. unfold resizeTest in Hres. fold handles cropHandles in Hres.
  destruct (isSet (AppState.selectedElementIds appState) (Element.id element));
    [|discriminate]. split; [reflexivity|]. simpl negb in Hres. cbv iota in Hres.
  destruct (rotationOf handles) as [handle|].
  - destruct (isInsideTransformHandle handle x y) eqn:Hin.
    + injection Hres as <-. left. eauto.
    + right. destruct (keysInside (restOf handles) x y) as [|key ?] eqn:Hk.
      * destruct (keysInside (restOf cropHandles) x y) as [|key ?] eqn:Hck.
        -- right; right. destruct (canResizeFromSides device); [|discriminate].
           split; [reflexivity|]. split; [eapply sideTests_Some, Hres|].
           apply sideTests_sideHit, Hres.
        -- injection Hres as <-. right; left. apply elem_of_keysInside. rewrite Hck.
           apply list_elem_of_here.
      * injection Hres as <-. left. apply elem_of_keysInside. rewrite Hk.
        apply list_elem_of_here.
  - right. destruct (keysInside (restOf handles) x y) as [|key ?] eqn:Hk.
    + destruct (keysInside (restOf cropHandles) x y) as [|key ?] eqn:Hck.
      * right; right. destruct (canResizeFromSides device); [|discriminate].
        split; [reflexivity|]. split; [eapply sideTests_Some, Hres|].
        apply sideTests_sideHit, Hres.
      * injection Hres as <-. right; left. apply elem_of_keysInside. rewrite Hck.
        apply list_elem_of_here.
    + injection Hres as <-. left. apply elem_of_keysInside. rewrite Hk.
      apply list_elem_of_here.
Qed.

Lemma foldl_found (elements : list ExcalidrawElement) appState x y zoom pointerType
    elementsMap device found :
  foldl
    (fun result element =>
       match result with
       | Some found => Some found
       | None =>
           match resizeTest element elementsMap appState x y zoom pointerType device with
           | Some transformHandleType =>
               if truthy_str transformHandleType
               then Some (element, transformHandleType)
               else None
           | None => None
           end
       end)
    (Some found) elements = Some found.
Proof. induction elements as [|a l IH]; [reflexivity | exact IH]. Qed.

(** X10.  [getElementWithTransformHandleType] answers with the first element
    of the list that [resizeTest] hits, together with the handle of that hit;
    it answers [null] exactly when [resizeTest] hits none of the elements. *)
Theorem getElementWithTransformHandleType_first (elements : list ExcalidrawElement)
    appState x y zoom pointerType elementsMap device :
  let test element :=
    resizeTest element elementsMap appState x y zoom pointerType device in
  match getElementWithTransformHandleType elements appState x y zoom pointerType
                                          elementsMap device with
  | Some (element, h) =>
      exists before after,
        elements = before ++ element :: after
        /\ (forall e, e ∈ before -> noHit (test e))
        /\ test element = Some h /\ h <> ""%string
  | None => forall e, e ∈ elements -> noHit (test e)
  end.
Proof.
  intros test. unfold getElementWithTransformHandleType.
  induction elements as [|a l IH].
  - simpl. intros e He. inversion He.
  - cbn [foldl]. fold (test a).
    destruct (test a) as [h|] eqn:Ha.
    + unfold truthy_str. destruct (bool_decide_reflect (h <> ""%string)) as [Hh|Hh].
      * rewrite foldl_found. exists [], l. split; [reflexivity|].
        split; [intros e He; inversion He|]. auto.
      * assert (Hno : noHit (test a)).
        { right. rewrite Ha. f_equal. destruct (decide (h = ""%string)); [assumption|].
          contradiction. }
        destruct (foldl _ None l) as [[element h']|].
        -- destruct IH as (before & after & -> & Hb & Ht & Hne).
           exists (a :: before), after. split; [reflexivity|]. split; [|auto].
           intros e He. apply elem_of_cons in He as [->|He]; auto.
        -- intros e He. apply elem_of_cons in He as [->|He]; auto.
    + assert (Hno : noHit (test a)) by (left; exact Ha).
      destruct (foldl _ None l) as [[element h']|].
      * destruct IH as (before & after & -> & Hb & Ht & Hne).
        exists (a :: before), after. split; [reflexivity|]. split; [|auto].
        intros e He. apply elem_of_cons in He as [->|He]; auto.
      * intros e He. apply elem_of_cons in He as [->|He]; auto.
Qed.

(** X11.  [resizeTest] takes in [CropWindowResizeTest]: for an element that
    takes its coordinates from its own box, whenever [CropWindowResizeTest]
    answers with a handle, [resizeTest] answers with that handle too, unless
    one of its earlier tests hits first: the rotation handle holds the
    pointer, a transform handle holds the pointer, or [pointOnLine] finds the
    pointer on a side of the widened box of the element. *)
Theorem resizeTest_covers_CropWindowResizeTest element elementsMap appState x y zoom
    pointerType device h :
  hasOwnBox element elementsMap ->
  CropWindowResizeTest element elementsMap appState x y zoom pointerType device = Some h ->
  let handles :=
    getTransformHandles element zoom elementsMap pointerType (getOmitSidesForDevice device) in
  resizeTest element elementsMap appState x y zoom pointerType device = Some h
  \/ exists h',
       resizeTest element elementsMap appState x y zoom pointerType device = Some h'
       /\ ((h' = "rotation"%string
            /\ exists handle, rotationOf handles = Some handle
                              /\ isInsideTransformHandle handle x y = true)
           \/ handleHit (restOf handles) x y h'
           \/ (canResizeFromSides device = true
               /\ h' ∈ ["n"; "e"; "s"; "w"]%string
               /\ exists coords,
                    BoundsTs.getElementAbsoluteCoords element elementsMap false = Some coords
                    /\ sideHit (boxSides element coords zoom) x y
                               (SIDE_RESIZING_THRESHOLD / zoom_value zoom) h')).
Proof.
  intros Hown Hcrop handles. unfold CropWindowResizeTest in Hcrop. unfold resizeTest.
  fold handles.
  destruct (isSet (AppState.selectedElementIds appState) (Element.id element));
    [|discriminate]. simpl negb in *. cbv iota in *.
  assert (Hsides :
    keysInside (restOf (getCropTransformHandles element zoom elementsMap pointerType
                          (getOmitSidesForDevice device))) x y = [] ->
    (if canResizeFromSides device then sideTests element elementsMap x y zoom else None)
    = Some h
    \/ exists h',
         (if canResizeFromSides device then sideTests element elementsMap x y zoom else None)
         = Some h'
         /\ canResizeFromSides device = true
         /\ h' ∈ ["n"; "e"; "s"; "w"]%string
         /\ exists coords,
              BoundsTs.getElementAbsoluteCoords element elementsMap false = Some coords
              /\ sideHit (boxSides element coords zoom) x y
                         (SIDE_RESIZING_THRESHOLD / zoom_value zoom) h').
  { intros Hck. rewrite Hck in Hcrop.
    destruct (canResizeFromSides device) eqn:Hdev; [|discriminate].
    pose proof (getElementAbsoluteCoords_ownBox element elementsMap false Hown) as Hc.
    rewrite (sideTests_rounds _ _ _ _ _ _ Hc).
    assert (Hwindow :
      match Element.isRenderCropWindow element, Element.cropProperties element with
      | Some true, Some crop =>
          firstSideHit (cropWindowSides element
                          (Element.x element, Element.y element,
                           Element.x element + Element.width element,
                           Element.y element + Element.height element,
                           Element.x element + Element.width element / 2,
                           Element.y element + Element.height element / 2) crop)
                       x y (SIDE_RESIZING_THRESHOLD / zoom_value zoom)
      | _, _ => None
      end = Some h).
    { destruct (Element.isRenderCropWindow element) as [[]|];
        destruct (Element.cropProperties element); try discriminate Hcrop; exact Hcrop. }
    destruct (negb (isLinearElement element
                    && bool_decide (length (Element.points element) <= 2)%nat));
      [|left; exact Hwindow].
    match goal with
    | |- context [firstSideHit (boxSides ?e ?c ?z) x y ?sp] =>
        destruct (firstSideHit (boxSides e c z) x y sp) as [dir|] eqn:Hs
    end; [|left; exact Hwindow].
    right. exists dir. split; [reflexivity|]. split; [reflexivity|].
    apply firstSideHit_sideHit in Hs.
    split; [unfold boxSides in Hs; eapply sideHit_keys, Hs|].
    eexists. split; [exact Hc | exact Hs]. }
  assert (Hrest :
    match keysInside (restOf handles) x y with
    | [] =>
        match keysInside (restOf (getCropTransformHandles element zoom elementsMap
                                    pointerType (getOmitSidesForDevice device))) x y with
        | [] => if canResizeFromSides device
                then sideTests element elementsMap x y zoom else None
        | key :: _ => Some key
        end
    | key :: _ => Some key
    end = Some h
    \/ exists h',
         match keysInside (restOf handles) x y with
         | [] =>
             match keysInside (restOf (getCropTransformHandles element zoom elementsMap
                                         pointerType (getOmitSidesForDevice device))) x y with
             | [] => if canResizeFromSides device
                     then sideTests element elementsMap x y zoom else None
             | key :: _ => Some key
             end
         | key :: _ => Some key
         end = Some h'
         /\ (handleHit (restOf handles) x y h'
             \/ (canResizeFromSides device = true
                 /\ h' ∈ ["n"; "e"; "s"; "w"]%string
                 /\ exists coords,
                      BoundsTs.getElementAbsoluteCoords element elementsMap false
                      = Some coords
                      /\ sideHit (boxSides element coords zoom) x y
                                 (SIDE_RESIZING_THRESHOLD / zoom_value zoom) h'))).
  { destruct (keysInside (restOf handles) x y) as [|key ?] eqn:Hk.
    - destruct (keysInside (restOf (getCropTransformHandles _ _ _ _ _)) x y)
        as [|ckey ?] eqn:Hck.
      + destruct (Hsides eq_refl) as [H|(h' & H & Hev)]; [left; exact H|].
        right. exists h'. split; [exact H|]. right. exact Hev.
      + left. exact Hcrop.
    - right. exists key. split; [reflexivity|]. left.
      apply elem_of_keysInside. rewrite Hk. apply list_elem_of_here. }
  destruct (rotationOf handles) as [handle|] eqn:Hr.
  - destruct (isInsideTransformHandle handle x y) eqn:Hin.
    + right. exists "rotation"%string. split; [reflexivity|]. left. eauto.
    + destruct Hrest as [H|(h' & H & Hev)]; [left; exact H|].
      right. exists h'. split; [exact H|]. right. exact Hev.
  - destruct Hrest as [H|(h' & H & Hev)]; [left; exact H|].
    right. exists h'. split; [exact H|]. right. exact Hev.
Qed.

End WithCollaborators.

Lemma isInsideTransformHandle_true (a b c d x y : number) :
  a <= x <= a + c -> b <= y <= b + d -> isInsideTransformHandle (a, b, c, d) x y = true.
Proof.
  intros Ha Hb. unfold isInsideTransformHandle.
  rewrite !bool_decide_eq_true_2 by lra. reflexivity.
Qed.

Lemma resizeTest_in_rotation_handle :
  resizeTest (B := Scenes.bounds) (C := Scenes.resize)
    Scenes.rectangleA ∅ (Scenes.selecting ["a"%string]) 50 5 (mkZoom 1) () ()
  = Some "rotation"%string.
Proof.
  assert (Hin : isInsideTransformHandle (40, 0, 20, 20) 50 5 = true)
    by (apply isInsideTransformHandle_true; lra).
  unfold resizeTest.
  change (isSet _ _) with true. simpl negb. cbv iota.
  change (rotationOf _) with (Some (40, 0, 20, 20)). cbv zeta iota beta.
  rewrite Hin. reflexivity.
Qed.

(** X9, witness: the pointer (50, 5) in the rotation handle of a selected
    rectangle. *)
Lemma resizeTest_answers_witness :
  resizeTest (B := Scenes.bounds) (C := Scenes.resize)
    Scenes.rectangleA ∅ (Scenes.selecting ["a"%string]) 50 5 (mkZoom 1) () ()
  = Some "rotation"%string
  /\ isSet (AppState.selectedElementIds (Scenes.selecting ["a"%string]))
           (Element.id Scenes.rectangleA) = true.
Proof.
  split; [apply resizeTest_in_rotation_handle|].
  apply (resizeTest_answers (B := Scenes.bounds) (C := Scenes.resize)
           Scenes.rectangleA ∅ (Scenes.selecting ["a"%string]) 50 5 (mkZoom 1) () ()
           "rotation" resizeTest_in_rotation_handle).
Defined.

Lemma CropWindowResizeTest_in_corner :
  CropWindowResizeTest (C := Scenes.cropping)
    Scenes.imageUncropped ∅ (Scenes.selecting ["img"%string]) 12 12 (mkZoom 1) () ()
  = Some "nw"%string.
Proof.
  unfold CropWindowResizeTest.
  change (isSet _ _) with true. simpl negb. cbv iota.
  change (restOf _) with [("nw"%string, Some ((10, 10, 8, 8) : TransformHandle))].
  unfold keysInside. cbn [List.filter snd].
  rewrite isInsideTransformHandle_true by lra. reflexivity.
Qed.

(** X11, witness: the pointer (12, 12) in the top left handle of the crop
    window of a selected image. *)
Lemma resizeTest_covers_CropWindowResizeTest_witness :
  hasOwnBox (C := Scenes.bounds) Scenes.imageUncropped ∅
  /\ CropWindowResizeTest (C := Scenes.cropping)
       Scenes.imageUncropped ∅ (Scenes.selecting ["img"%string]) 12 12 (mkZoom 1) () ()
     = Some "nw"%string
  /\ resizeTest (B := Scenes.bounds) (C := Scenes.cropping)
       Scenes.imageUncropped ∅ (Scenes.selecting ["img"%string]) 12 12 (mkZoom 1) () ()
     = Some "nw"%string.
Proof.
  assert (Hown : hasOwnBox (C := Scenes.bounds) Scenes.imageUncropped ∅).
  { unfold hasOwnBox. repeat split; try reflexivity. discriminate. }
  split; [exact Hown|]. split; [apply CropWindowResizeTest_in_corner|].
  destruct (resizeTest_covers_CropWindowResizeTest (B := Scenes.bounds) (C := Scenes.cropping)
              Scenes.imageUncropped ∅ (Scenes.selecting ["img"%string]) 12 12 (mkZoom 1)
              () () "nw" Hown CropWindowResizeTest_in_corner)
    as [H|(h' & H & [(-> & handle & Hr & _)|[(handle & Hin & _)|(Hs & _)]])].
  - exact H.
  - discriminate Hr.
  - inversion Hin.
  - discriminate Hs.
Defined.

(** ** Cursors *)

Lemma Math_round_plus r (k : Z) : Math_round (r + IZR k) = (Math_round r + k)%Z.
Proof.
  unfold Math_round. symmetry. apply Int_part_spec.
  pose proof (base_Int_part (r + / 2)) as [Hle Hgt]. rewrite plus_IZR. lra.
Qed.

Lemma Math_round_nonneg r : 0 <= r -> (0 <= Math_round r)%Z.
Proof.
  intros Hr. unfold Math_round.
  destruct (Z_lt_le_dec (Int_part (r + / 2)) 0) as [Hlt|Hge]; [|exact Hge].
  exfalso. pose proof (base_Int_part (r + / 2)) as [Hle Hgt].
  assert (IZR (Int_part (r + / 2)) <= -1) by (apply IZR_le; lia). lra.
Qed.

Lemma Math_round_range r (k : Z) : IZR k - / 2 <= r < IZR k + / 2 -> Math_round r = k.
Proof. intros Hr. unfold Math_round. symmetry. apply Int_part_spec. lra. Qed.

Lemma eighths_nonneg angle : 0 <= angle -> 0 <= angle / (PI / 4).
Proof.
  intros Ha. pose proof PI_RGT_0. apply Rmult_le_pos; [exact Ha|].
  apply Rlt_le, Rinv_0_lt_compat. lra.
Qed.

Lemma eighths_half_turn angle : (angle + PI) / (PI / 4) = angle / (PI / 4) + IZR 4.
Proof. pose proof PI_RGT_0. field. lra. Qed.

Lemma rotateResizeCursor_index (i : nat) cursor angle :
  indexOf RESIZE_CURSORS cursor = Some i ->
  (0 <= Math_round (angle / (PI / 4)))%Z ->
  rotateResizeCursor cursor angle
  = RESIZE_CURSORS !! Z.to_nat ((Z.of_nat i + Math_round (angle / (PI / 4))) mod 4).
Proof.
  intros Hi Ha. unfold rotateResizeCursor. rewrite Hi. cbv zeta.
  change (Z.of_nat (length RESIZE_CURSORS)) with 4%Z.
  rewrite Z.rem_mod_nonneg by lia.
  rewrite bool_decide_eq_true_2; [reflexivity|]. apply Z.mod_pos_bound. lia.
Qed.

Lemma RESIZE_CURSORS_mod (n : Z) :
  exists cursor, RESIZE_CURSORS !! Z.to_nat (n mod 4) = Some cursor
                 /\ (cursor +:+ "-resize")%string ∈ resizeCursors
                 /\ cursor <> ""%string.
Proof.
  pose proof (Z.mod_pos_bound n 4 eq_refl) as Hb.
  assert (Hk : (n mod 4 = 0 \/ n mod 4 = 1 \/ n mod 4 = 2 \/ n mod 4 = 3)%Z) by lia.
  destruct Hk as [-> | [-> | [-> | ->]]]; eexists; (split; [reflexivity|]);
    (split; [|discriminate]); unfold resizeCursors; simpl;
    rewrite !elem_of_cons; auto 10.
Qed.

(** The cursor that the [switch] picks for a handle of the compass. *)
Lemma compass_base (swap : bool) h :
  h ∈ compassHandles ->
  exists cursor (i : nat),
    indexOf RESIZE_CURSORS cursor = Some i /\ cursor <> ""%string
    /\ (if bool_decide (Some h = Some "rotation"%string) then None
        else if bool_decide (Some h = Some "n"%string) || bool_decide (Some h = Some "s"%string)
        then Some "ns"%string
        else if bool_decide (Some h = Some "w"%string) || bool_decide (Some h = Some "e"%string)
        then Some "ew"%string
        else if bool_decide (Some h = Some "nw"%string) || bool_decide (Some h = Some "se"%string)
        then if swap then Some "nesw"%string else Some "nwse"%string
        else if bool_decide (Some h = Some "ne"%string) || bool_decide (Some h = Some "sw"%string)
        then if swap then Some "nwse"%string else Some "nesw"%string
        else None) = Some cursor.
Proof.
  unfold compassHandles. rewrite !elem_of_cons, elem_of_nil.
  intros [->|[->|[->|[->|[->|[->|[->|[->|[]]]]]]]]]; destruct swap;
    eexists _, _; (split; [|split; [|reflexivity]]); first [reflexivity | discriminate].
Qed.

Lemma getCursorForResizingElement_compass element h :
  h ∈ compassHandles ->
  (0 <= Math_round (Element.angle element / (PI / 4)))%Z ->
  exists (i : nat) cursor,
    (i < 4)%nat
    /\ RESIZE_CURSORS
         !! Z.to_nat ((Z.of_nat i + Math_round (Element.angle element / (PI / 4))) mod 4)
       = Some cursor
    /\ getCursorForResizingElement (Some element) (Some h) = (cursor +:+ "-resize")%string
    /\ forall angle,
         (0 <= Math_round ((Element.angle element + angle) / (PI / 4)))%Z ->
         exists cursor',
           RESIZE_CURSORS
             !! Z.to_nat ((Z.of_nat i
                           + Math_round ((Element.angle element + angle) / (PI / 4))) mod 4)
           = Some cursor'
           /\ getCursorForResizingElement (Some (turned angle element)) (Some h)
              = (cursor' +:+ "-resize")%string.
Proof.
  intros Hh Ha.
  set (swap := bool_decide (Math_sign (Element.height element)
                            * Math_sign (Element.width element) = -1)%Z).
  destruct (compass_base swap h Hh) as (base & i & Hi & Hne & Hbase).
  assert (Hlt : (i < 4)%nat).
  { clear -Hi. unfold RESIZE_CURSORS in Hi. simpl in Hi.
    repeat match type of Hi with
           | context [bool_decide ?P] => destruct (bool_decide P); simpl in Hi
           end; try discriminate; injection Hi as <-; lia. }
  assert (Hgen : forall e',
             Element.height e' = Element.height element ->
             Element.width e' = Element.width element ->
             (0 <= Math_round (Element.angle e' / (PI / 4)))%Z ->
             exists cursor',
               RESIZE_CURSORS
                 !! Z.to_nat ((Z.of_nat i + Math_round (Element.angle e' / (PI / 4))) mod 4)
               = Some cursor'
               /\ getCursorForResizingElement (Some e') (Some h)
                  = (cursor' +:+ "-resize")%string).
  { intros e' Hh' Hw' Ha'.
    destruct (RESIZE_CURSORS_mod (Z.of_nat i + Math_round (Element.angle e' / (PI / 4))))
      as (cursor' & Hc & _ & Hne').
    exists cursor'. split; [exact Hc|].
    unfold getCursorForResizingElement. rewrite Hh', Hw'. fold swap.
    assert (Hrot : bool_decide (Some h = Some "rotation"%string) = false).
    { apply bool_decide_eq_false_2. intros [= ->]. revert Hh. unfold compassHandles.
      rewrite !elem_of_cons, elem_of_nil. intuition discriminate. }
    rewrite Hrot in Hbase |- *. rewrite Hbase.
    unfold truthy_str at 1. rewrite bool_decide_eq_true_2 by assumption.
    rewrite (rotateResizeCursor_index i base _ Hi Ha'), Hc.
    unfold truthy_str. rewrite bool_decide_eq_true_2 by assumption. reflexivity. }
  destruct (Hgen element eq_refl eq_refl Ha) as (cursor & Hc & Hcur).
  exists i, cursor. split; [exact Hlt|]. split; [exact Hc|]. split; [exact Hcur|].
  intros angle Ha'. apply (Hgen (turned angle element)); [reflexivity|reflexivity|exact Ha'].
Qed.

(** X12.  For an element at an angle that is not negative,
    [getCursorForResizingElement] answers each of the eight compass handles
    with one of the four cursors [ns-resize], [nesw-resize], [ew-resize] and
    [nwse-resize], never with the empty string; it answers ["rotation"] with
    [grab] and a missing handle with the empty string. *)
Theorem getCursorForResizingElement_cursor element h :
  0 <= Element.angle element ->
  (h ∈ compassHandles ->
   getCursorForResizingElement (Some element) (Some h) ∈ resizeCursors)
  /\ getCursorForResizingElement (Some element) (Some "rotation"%string) = "grab"%string
  /\ getCursorForResizingElement (Some element) None = ""%string.
Proof.
  intros Ha. split; [|split; reflexivity].
  intros Hh.
  destruct (getCursorForResizingElement_compass element h Hh)
    as (i & cursor & _ & Hc & -> & _);
    [apply Math_round_nonneg, eighths_nonneg, Ha|].
  destruct (RESIZE_CURSORS_mod (Z.of_nat i + Math_round (Element.angle element / (PI / 4))))
    as (cursor' & Hc' & Hin & _).
  rewrite Hc in Hc'. injection Hc' as <-. exact Hin.
Qed.

(** X13.  Turning an element by a half turn changes none of its cursors:
    for an element at an angle that is not negative,
    [getCursorForResizingElement] answers the element turned by [PI] as it
    answers the element. *)
Theorem getCursorForResizingElement_half_turn element (h : option string) :
  0 <= Element.angle element ->
  getCursorForResizingElement (Some (turned PI element)) h
  = getCursorForResizingElement (Some element) h.
Proof.
  intros Ha.
  destruct h as [h|]; [|reflexivity].
  destruct (decide (h ∈ compassHandles)) as [Hh|Hh].
  - assert (Ha0 : (0 <= Math_round (Element.angle element / (PI / 4)))%Z)
      by (apply Math_round_nonneg, eighths_nonneg, Ha).
    destruct (getCursorForResizingElement_compass element h Hh Ha0)
      as (i & cursor & _ & Hc & -> & Hturn).
    destruct (Hturn PI) as (cursor' & Hc' & ->).
    { rewrite eighths_half_turn, Math_round_plus. lia. }
    rewrite eighths_half_turn, Math_round_plus in Hc'.
    replace ((Z.of_nat i + (Math_round (Element.angle element / (PI / 4)) + 4)) mod 4)%Z
      with ((Z.of_nat i + Math_round (Element.angle element / (PI / 4))) mod 4)%Z in Hc'.
    + rewrite Hc in Hc'. injection Hc' as <-. reflexivity.
    + rewrite Z.add_assoc. rewrite <- (Z_mod_plus_full _ 1 4). f_equal; lia.
  - unfold getCursorForResizingElement.
    change (Element.height (turned PI element)) with (Element.height element).
    change (Element.width (turned PI element)) with (Element.width element).
    revert Hh. unfold compassHandles. rewrite !elem_of_cons, elem_of_nil. intros Hh.
    destruct (bool_decide_reflect (Some h = Some "rotation"%string)); [reflexivity|].
    repeat match goal with
           | |- context [bool_decide (Some h = Some ?s)] =>
               rewrite (bool_decide_eq_false_2 (Some h = Some s))
                 by (intros [= ->]; apply Hh; auto 10)
           end.
    reflexivity.
Qed.

(** X14.  At an angle within [[-7 PI / 8, -PI / 8)] the handles ["n"] and
    ["s"] have no cursor: the index of the rotated cursor is negative, and
    [getCursorForResizingElement] answers with the empty string. *)
Theorem getCursorForResizingElement_negative_angle element h :
  - (7 * PI / 8) <= Element.angle element < - (PI / 8) ->
  h = "n"%string \/ h = "s"%string ->
  getCursorForResizingElement (Some element) (Some h) = ""%string.
Proof.
  intros Ha Hh. pose proof PI_RGT_0 as Hpi.
  assert (Hx : -3 - / 2 <= Element.angle element / (PI / 4) < -1 + / 2).
  { replace (Element.angle element / (PI / 4)) with (4 * Element.angle element * / PI)
      by (field; lra).
    assert (Hinv : 0 < / PI) by (apply Rinv_0_lt_compat, Hpi).
    assert (E : PI * / PI = 1) by (apply Rinv_r; lra).
    split.
    - apply Rmult_le_reg_r with PI; [exact Hpi|].
      rewrite Rmult_assoc, (Rmult_comm (/ PI)), E. lra.
    - apply Rmult_lt_reg_r with PI; [exact Hpi|].
      rewrite Rmult_assoc, (Rmult_comm (/ PI)), E. lra. }
  assert (Hr : (Math_round (Element.angle element / (PI / 4)) = -1
                \/ Math_round (Element.angle element / (PI / 4)) = -2
                \/ Math_round (Element.angle element / (PI / 4)) = -3)%Z).
  { destruct (Rlt_dec (Element.angle element / (PI / 4)) (-2 - / 2)) as [H3|H3].
    - right; right. apply Math_round_range. lra.
    - destruct (Rlt_dec (Element.angle element / (PI / 4)) (-1 - / 2)) as [H2|H2].
      + right; left. apply Math_round_range. lra.
      + left. apply Math_round_range. lra. }
  unfold getCursorForResizingElement, rotateResizeCursor.
  destruct Hh as [-> | ->]; simpl; destruct Hr as [-> |[-> | ->]]; reflexivity.
Qed.

(** X12, witness: the top left handle of a rectangle at angle 0. *)
Lemma getCursorForResizingElement_cursor_witness :
  0 <= Element.angle Scenes.rectangleA
  /\ getCursorForResizingElement (Some Scenes.rectangleA) (Some "nw"%string) ∈ resizeCursors.
Proof.
  assert (Ha : 0 <= Element.angle Scenes.rectangleA) by (simpl; lra).
  split; [exact Ha|].
  apply (getCursorForResizingElement_cursor Scenes.rectangleA "nw" Ha).
  unfold compassHandles. rewrite !elem_of_cons. auto 10.
Defined.

(** X13, witness: a rectangle at angle 0 and at angle [PI]. *)
Lemma getCursorForResizingElement_half_turn_witness :
  0 <= Element.angle Scenes.rectangleA
  /\ getCursorForResizingElement (Some (turned PI Scenes.rectangleA)) (Some "n"%string)
     = getCursorForResizingElement (Some Scenes.rectangleA) (Some "n"%string).
Proof.
  assert (Ha : 0 <= Element.angle Scenes.rectangleA) by (simpl; lra).
  split; [exact Ha|].
  apply (getCursorForResizingElement_half_turn Scenes.rectangleA (Some "n"%string) Ha).
Defined.

(** X14, witness: a rectangle at the angle [- PI / 2]. *)
Lemma getCursorForResizingElement_negative_angle_witness :
  - (7 * PI / 8) <= Element.angle Scenes.turnedBack < - (PI / 8)
  /\ getCursorForResizingElement (Some Scenes.turnedBack) (Some "n"%string) = ""%string.
Proof.
  assert (Ha : - (7 * PI / 8) <= Element.angle Scenes.turnedBack < - (PI / 8)).
  { pose proof PI_RGT_0. simpl. lra. }
  split; [exact Ha|].
  apply (getCursorForResizingElement_negative_angle Scenes.turnedBack "n" Ha). auto.
Defined.

End HitTests.

(** * Further properties of the renderer *)

Section RenderProperties.
Import RenderElementTs.

Section WithCollaborators.
Context `{B : BoundsTs.Collaborators} `{C : Collaborators}.

Lemma getRenderOpacity_not_pending element containingFrame :
  getRenderOpacity element containingFrame ∅
  = match containingFrame with
    | Some f => Element.opacity f
    | None => 100
    end * Element.opacity element / 10000.
Proof.
  unfold getRenderOpacity. destruct containingFrame as [f|];
    repeat case_bool_decide; try set_solver; reflexivity.
Qed.

Lemma getRenderOpacity_cases element containingFrame (elementsPendingErasure : gset string) :
  getRenderOpacity element containingFrame elementsPendingErasure
  = getRenderOpacity element containingFrame ∅
  \/ getRenderOpacity element containingFrame elementsPendingErasure
     = getRenderOpacity element containingFrame ∅ * (ELEMENT_READY_TO_ERASE_OPACITY / 100).
Proof.
  rewrite getRenderOpacity_not_pending. unfold getRenderOpacity.
  destruct (_ || _); auto.
Qed.

(** X15.  With opacities within [[0, 100]] the render opacity lies within
    [[0, 1]], and an element pending erasure is never rendered more opaque
    than it is rendered otherwise. *)
Theorem getRenderOpacity_erasure element containingFrame
    (elementsPendingErasure : gset string) :
  0 <= ELEMENT_READY_TO_ERASE_OPACITY <= 100 ->
  0 <= Element.opacity element <= 100 ->
  (forall f, containingFrame = Some f -> 0 <= Element.opacity f <= 100) ->
  0 <= getRenderOpacity element containingFrame elementsPendingErasure
  /\ getRenderOpacity element containingFrame elementsPendingErasure
     <= getRenderOpacity element containingFrame ∅
  /\ getRenderOpacity element containingFrame ∅ <= 1.
Proof.
  intros He Ho Hf.
  destruct (getRenderOpacity_cases element containingFrame elementsPendingErasure)
    as [-> | ->]; rewrite getRenderOpacity_not_pending;
    set (frameOpacity := match containingFrame with
                         | Some f => Element.opacity f
                         | None => 100
                         end);
    assert (Hfo : 0 <= frameOpacity <= 100)
      by (subst frameOpacity; destruct containingFrame as [f|];
          [apply Hf; reflexivity|lra]);
    assert (Hp : 0 <= frameOpacity * Element.opacity element <= 10000) by nra;
    nra.
Qed.

Lemma shouldRegenerate_fresh element elementsMap zoom appState canvas :
  Element.akhonRenderKoraUchit element <> Some true ->
  shouldRegenerate element elementsMap zoom appState
    (Some (mkWithCanvas element canvas (AppState.theme appState) (zoom_value zoom)
             (currentBoundTextElementVersion element elementsMap)
             (currentContainingFrameOpacity element elementsMap)))
  = false.
Proof.
  intros Hflag. apply not_true_is_false. intros Hs.
  apply shouldRegenerate_iff in Hs
    as [Hs|[(p & [= <-] & Hs & _)|[(p & [= <-] & Hs)|[(p & [= <-] & Hs)|[(p & [= <-] & Hs)|Hs]]]]];
    first [discriminate | contradiction | apply Hs; reflexivity].
Qed.

(** X16.  A call of [generateElementWithCanvas] on an element whose
    [akhonRenderKoraUchit] flag is not set, right after a call that returned,
    with the same arguments, returns the same canvas from the cache and
    leaves the cache as it is: nothing is drawn a second time. *)
Theorem generateElementWithCanvas_again element elementsMap renderConfig appState
    (cache cache' : ElementWithCanvasCache) elementWithCanvas :
  Element.akhonRenderKoraUchit element <> Some true ->
  generateElementWithCanvas element elementsMap renderConfig appState cache
  = (Ok elementWithCanvas, cache') ->
  generateElementWithCanvas element elementsMap renderConfig appState cache'
  = (Ok elementWithCanvas, cache').
Proof.
  intros Hflag Hfirst.
  destruct (shouldRegenerate element elementsMap (currentZoom renderConfig appState) appState
                             (cache !! Element.obj element)) eqn:Hr.
  - rewrite generateElementWithCanvas_regenerate in Hfirst by assumption.
    unfold generateElementCanvas in Hfirst.
    destruct (drawElementOnCanvas element) as [canvas|msg]; [|discriminate].
    simpl in Hfirst. injection Hfirst as <- <-.
    destruct (generateElementWithCanvas_cached element elementsMap renderConfig appState
                (<[Element.obj element :=
                     mkWithCanvas element canvas (AppState.theme appState)
                       (zoom_value (currentZoom renderConfig appState))
                       (currentBoundTextElementVersion element elementsMap)
                       (currentContainingFrameOpacity element elementsMap)]> cache))
      as (prev & Hprev & ->).
    + rewrite lookup_insert_eq. apply shouldRegenerate_fresh, Hflag.
    + rewrite lookup_insert_eq in Hprev. injection Hprev as <-. reflexivity.
  - destruct (generateElementWithCanvas_cached _ _ _ _ _ Hr) as (prev & Hprev & Hg).
    rewrite Hg in Hfirst. injection Hfirst as <- <-. exact Hg.
Qed.

Lemma drawElementFromCanvas_commands elementWithCanvas context allElementsMap :
  let context' := drawElementFromCanvas elementWithCanvas context allElementsMap in
  let drawn :=
    Paint (ElementCanvas elementWithCanvas) (globalAlpha context)
          (imageSmoothingEnabled context) (globalCompositeOperation context) in
  let outlined :=
    Paint (TextContainerBox (ewc_element elementWithCanvas)) (globalAlpha context)
          (imageSmoothingEnabled context) (globalCompositeOperation context) in
  globalAlpha context' = globalAlpha context
  /\ imageSmoothingEnabled context' = imageSmoothingEnabled context
  /\ globalCompositeOperation context' = globalCompositeOperation context
  /\ (commands context' = commands context ++ [drawn]
      \/ (VITE_APP_DEBUG_ENABLE_TEXT_CONTAINER_BOUNDING_BOX = Some "true"%string
          /\ hasBoundTextElement (ewc_element elementWithCanvas) = true
          /\ commands context' = commands context ++ [drawn; outlined])).
Proof.
  cbv zeta. unfold drawElementFromCanvas.
  destruct (isArrowElement _ && _); [simpl; auto|].
  destruct (bool_decide_reflect
              (VITE_APP_DEBUG_ENABLE_TEXT_CONTAINER_BOUNDING_BOX = Some "true"%string))
    as [Hdebug|Hdebug]; [|simpl; auto].
  destruct (hasBoundTextElement (ewc_element elementWithCanvas)) eqn:Hbound;
    [|simpl; auto].
  simpl. repeat split. right. repeat split; [assumption|].
  rewrite <- app_assoc. reflexivity.
Qed.

(** X17.  A call of [unconditionalRenderElement] that returns leaves the
    context as it found it but for [globalAlpha], which is [1]: image
    smoothing and the compositing operation are those of before.  It has
    painted nothing (a frame without outline), or one thing (the outline of a
    frame, or the cached canvas of the element), or, only when the debug
    variable [VITE_APP_DEBUG_ENABLE_TEXT_CONTAINER_BOUNDING_BOX] is ["true"]
    and the element has a bound text, the cached canvas and then the outline
    of the text area; every painting is made under the render opacity of the
    element.  A call that throws leaves [globalAlpha] at the render opacity
    of the element, and leaves the caches alone. *)
Theorem unconditionalRenderElement_context element elementsMap allElementsMap context
    renderConfig appState st :
  let opacity :=
    getRenderOpacity element (getContainingFrame element elementsMap)
                     (elementsPendingErasure renderConfig) in
  let '(r, context', st') :=
    unconditionalRenderElement element elementsMap allElementsMap context
                               renderConfig appState st in
  match r with
  | Ok _ =>
      globalAlpha context' = 1
      /\ imageSmoothingEnabled context' = imageSmoothingEnabled context
      /\ globalCompositeOperation context' = globalCompositeOperation context
      /\ (commands context' = commands context
          \/ (exists what smoothing,
                commands context'
                = commands context
                  ++ [Paint what opacity smoothing (globalCompositeOperation context)])
          \/ (VITE_APP_DEBUG_ENABLE_TEXT_CONTAINER_BOUNDING_BOX = Some "true"%string
              /\ exists elementWithCanvas smoothing,
                   hasBoundTextElement (ewc_element elementWithCanvas) = true
                   /\ commands context'
                      = commands context
                        ++ [Paint (ElementCanvas elementWithCanvas) opacity smoothing
                                  (globalCompositeOperation context);
                            Paint (TextContainerBox (ewc_element elementWithCanvas))
                                  opacity smoothing (globalCompositeOperation context)]))
  | Throw _ => context' = set_globalAlpha opacity context /\ st' = st
  end.
Proof.
  cbv zeta.
  destruct (decide (Element.type element ∈ recognizedTypes)) as [Hin|Hout].
  2:{ rewrite unconditionalRenderElement_Throw by assumption. auto. }
  unfold unconditionalRenderElement.
  set (opacity := getRenderOpacity _ _ _).
  destruct (bool_decide (Element.type element = "magicframe"%string)
            || bool_decide (Element.type element = "frame"%string)) eqn:Hframe.
  { destruct (fr_enabled _ && fr_outline _); simpl; repeat split; eauto. }
  assert (Hd : Element.type element ∈ drawableTypes).
  { apply elem_of_recognizedTypes in Hin. apply orb_false_iff in Hframe as [H1 H2].
    apply bool_decide_eq_false in H1, H2. tauto. }
  destruct (generateElementWithCanvas_Ok element elementsMap (Some renderConfig) appState
              (elementWithCanvasCache st) Hd) as (ewc & cache' & Hg).
  rewrite Hg.
  assert (Hdraw : forall context0 : Context2D,
             globalAlpha context0 = opacity ->
             globalCompositeOperation context0 = globalCompositeOperation context ->
             commands context0 = commands context ->
             let context' := drawElementFromCanvas ewc context0 allElementsMap in
             globalCompositeOperation context' = globalCompositeOperation context
             /\ ((exists what smoothing,
                    commands context'
                    = commands context
                      ++ [Paint what opacity smoothing (globalCompositeOperation context)])
                 \/ (VITE_APP_DEBUG_ENABLE_TEXT_CONTAINER_BOUNDING_BOX = Some "true"%string
                     /\ exists elementWithCanvas smoothing,
                          hasBoundTextElement (ewc_element elementWithCanvas) = true
                          /\ commands context'
                             = commands context
                               ++ [Paint (ElementCanvas elementWithCanvas) opacity smoothing
                                         (globalCompositeOperation context);
                                   Paint (TextContainerBox (ewc_element elementWithCanvas))
                                         opacity smoothing
                                         (globalCompositeOperation context)]))).
  { intros context0 Ha Hc Hcmd. cbv zeta.
    destruct (drawElementFromCanvas_commands ewc context0 allElementsMap)
      as (_ & _ & Hgco & [Hone|(Hdebug & Hbound & Htwo)]).
    - rewrite Hgco, Hone, Ha, Hc, Hcmd. split; [reflexivity|]. left. eauto.
    - rewrite Hgco, Htwo, Ha, Hc, Hcmd. split; [reflexivity|]. right.
      split; [exact Hdebug|]. eauto. }
  destruct (bool_decide_reflect (Element.type element = "freedraw"%string)) as [Hfd|Hfd].
  { destruct (Hdraw (set_globalAlpha opacity context) eq_refl eq_refl eq_refl)
      as (Hgco & Hcmd).
    destruct (drawElementFromCanvas_commands ewc (set_globalAlpha opacity context)
                allElementsMap) as (_ & Hsm & _).
    simpl. repeat split; [exact Hsm | exact Hgco | right; exact Hcmd]. }
  match goal with |- context [if ?b then _ else _] => destruct b eqn:Hb end.
  - match goal with
    | |- context [drawElementFromCanvas ewc ?c allElementsMap] =>
        destruct (Hdraw c) as (Hgco & Hcmd);
          [destruct (negb _ && _); reflexivity ..|]
    end.
    simpl. repeat split; [exact Hgco | right; exact Hcmd].
  - exfalso. unfold drawableTypes in Hd. rewrite !elem_of_cons, elem_of_nil in Hd.
    rewrite !orb_false_iff, !bool_decide_eq_false in Hb. tauto.
Qed.

End WithCollaborators.

(** X15, witness: a rectangle of opacity 100, outside any frame, pending
    erasure. *)
Lemma getRenderOpacity_erasure_witness :
  0 <= ELEMENT_READY_TO_ERASE_OPACITY (Collaborators := Scenes.render) <= 100
  /\ 0 <= Element.opacity Scenes.rectangleA <= 100
  /\ 0 <= getRenderOpacity (C := Scenes.render) Scenes.rectangleA None {["a"%string]}
  /\ getRenderOpacity (C := Scenes.render) Scenes.rectangleA None {["a"%string]}
     <= getRenderOpacity (C := Scenes.render) Scenes.rectangleA None ∅
  /\ getRenderOpacity (C := Scenes.render) Scenes.rectangleA None ∅ <= 1.
Proof.
  assert (He : 0 <= ELEMENT_READY_TO_ERASE_OPACITY (Collaborators := Scenes.render) <= 100)
    by (simpl; lra).
  assert (Ho : 0 <= Element.opacity Scenes.rectangleA <= 100) by (simpl; lra).
  split; [exact He|]. split; [exact Ho|].
  apply (getRenderOpacity_erasure (C := Scenes.render) Scenes.rectangleA None
           {["a"%string]} He Ho).
  intros f [=].
Defined.

(** X16, witness: a rectangle rendered twice from an empty cache. *)
Lemma generateElementWithCanvas_again_witness :
  Element.akhonRenderKoraUchit Scenes.rectangleA <> Some true
  /\ exists elementWithCanvas cache',
       generateElementWithCanvas (B := Scenes.bounds) (C := Scenes.render)
         Scenes.rectangleA ∅ (Some Scenes.renderConfig) Scenes.appState ∅
       = (Ok elementWithCanvas, cache')
       /\ generateElementWithCanvas (B := Scenes.bounds) (C := Scenes.render)
            Scenes.rectangleA ∅ (Some Scenes.renderConfig) Scenes.appState cache'
          = (Ok elementWithCanvas, cache').
Proof.
  assert (Hflag : Element.akhonRenderKoraUchit Scenes.rectangleA <> Some true)
    by discriminate.
  split; [exact Hflag|].
  destruct (generateElementWithCanvas_Ok (B := Scenes.bounds) (C := Scenes.render)
              Scenes.rectangleA ∅ (Some Scenes.renderConfig) Scenes.appState ∅)
    as (elementWithCanvas & cache' & Hfirst).
  { unfold drawableTypes. simpl. rewrite !elem_of_cons. auto 10. }
  exists elementWithCanvas, cache'. split; [exact Hfirst|].
  apply (generateElementWithCanvas_again (B := Scenes.bounds) (C := Scenes.render)
           Scenes.rectangleA ∅ (Some Scenes.renderConfig) Scenes.appState ∅ cache'
           elementWithCanvas Hflag Hfirst).
Defined.

(** ** The size of the offscreen canvas *)

Lemma Math_floor_bounds r : 0 <= r -> 0 <= Math_floor r <= r.
Proof.
  intros Hr. unfold Math_floor. pose proof (base_Int_part r) as [Hle Hgt].
  split; [|exact Hle].
  destruct (Z_lt_le_dec (Int_part r) 0) as [Hlt|Hge]; [|apply IZR_le in Hge; lra].
  assert (IZR (Int_part r) <= -1) by (apply IZR_le; lia). lra.
Qed.

Lemma cappedScale_limits width height zoomValue :
  0 < width -> 0 < height -> 0 < zoomValue ->
  let scale := cappedScale width height zoomValue in
  0 < scale <= zoomValue
  /\ width * scale <= 32767 /\ height * scale <= 32767
  /\ width * scale * (height * scale) <= 16777216
  /\ (width * zoomValue <= 32767 -> height * zoomValue <= 32767 ->
      width * height * zoomValue * zoomValue <= 16777216 -> scale = zoomValue).
Proof.
  intros Hw Hh Hz. cbv zeta. unfold cappedScale.
  set (s1 := if bool_decide (width * zoomValue > 32767)
                || bool_decide (height * zoomValue > 32767)
             then if decide (width = 0) then 32767 / height
                  else if decide (height = 0) then 32767 / width
                       else Math_min (32767 / width) (32767 / height)
             else zoomValue).
  assert (Hqw : width * (32767 / width) = 32767) by (field; lra).
  assert (Hqh : height * (32767 / height) = 32767) by (field; lra).
  assert (Hqwp : 0 < 32767 / width) by (apply Rdiv_lt_0_compat; lra).
  assert (Hqhp : 0 < 32767 / height) by (apply Rdiv_lt_0_compat; lra).
  assert (Hs1 : 0 < s1 <= zoomValue /\ width * s1 <= 32767 /\ height * s1 <= 32767
                /\ (width * zoomValue <= 32767 -> height * zoomValue <= 32767 ->
                    s1 = zoomValue)).
  { subst s1.
    destruct (bool_decide_reflect (width * zoomValue > 32767)) as [H1|H1];
      destruct (bool_decide_reflect (height * zoomValue > 32767)) as [H2|H2]; simpl orb;
      cbv iota; try (repeat split; intros; lra);
      (destruct (decide (width = 0)) as [?|_]; [lra|]);
      (destruct (decide (height = 0)) as [?|_]; [lra|]);
      pose proof (Math_min_le_l (32767 / width) (32767 / height));
      pose proof (Math_min_le_r (32767 / width) (32767 / height));
      destruct (Math_min_cases (32767 / width) (32767 / height)) as [E|E];
      rewrite E in *; repeat split; try lra; try nra. }
  destruct Hs1 as ([Hs1p Hs1z] & Hs1w & Hs1h & Hs1id).
  destruct (bool_decide_reflect (width * height * s1 * s1 > 16777216)) as [Ha|Ha].
  - assert (Hwh : 0 < width * height) by nra.
    assert (Hq : 0 < 16777216 / (width * height)) by (apply Rdiv_lt_0_compat; lra).
    pose proof (sqrt_lt_R0 _ Hq) as Hsp.
    pose proof (sqrt_sqrt (16777216 / (width * height)) (Rlt_le _ _ Hq)) as Hss.
    set (s2 := sqrt (16777216 / (width * height))) in *.
    assert (Harea : width * height * (s2 * s2) = 16777216) by (rewrite Hss; field; lra).
    assert (Hlt : s2 < s1) by nra.
    repeat split; try nra; intros H1 H2 H3; rewrite (Hs1id H1 H2) in Ha; lra.
  - repeat split; try lra; try nra; intros H1 H2 H3; apply Hs1id; assumption.
Qed.

Section CanvasSize.
Context `{B : BoundsTs.Collaborators}.

(** X18.  The canvas that [cappedElementCanvasSize] sizes for an element
    stays within the limits: its width and its height are at most [32767],
    its area is at most [16777216], and its scale is positive and at most
    the zoom.  (The zoom and the padding are positive; the device pixel
    ratio, the distances and the width and height of the element are not
    negative.) *)
Theorem cappedElementCanvasSize_limits (distance : number -> number -> number)
    (devicePixelRatio : number) element elementsMap zoom size :
  0 < zoom_value zoom ->
  0 <= devicePixelRatio ->
  (forall a b, 0 <= distance a b) ->
  0 <= Element.width element -> 0 <= Element.height element ->
  0 < getCanvasPadding element ->
  cappedElementCanvasSize distance devicePixelRatio element elementsMap zoom = Some size ->
  0 <= canvas_width size <= 32767
  /\ 0 <= canvas_height size <= 32767
  /\ canvas_width size * canvas_height size <= 16777216
  /\ 0 < canvas_scale size <= zoom_value zoom.
Proof.
  intros Hz Hdpr Hdist Hw Hh Hpad. unfold cappedElementCanvasSize.
  destruct (BoundsTs.getElementAbsoluteCoords element elementsMap false)
    as [[[[[[x1 y1] x2] y2] cx] cy]|]; [|discriminate].
  set (elementWidth := if isLinearElement element || isFreeDrawElement element
                       then distance x1 x2 else Element.width element).
  set (elementHeight := if isLinearElement element || isFreeDrawElement element
                        then distance y1 y2 else Element.height element).
  assert (Hew : 0 <= elementWidth) by (subst elementWidth; destruct (_ || _); auto).
  assert (Heh : 0 <= elementHeight) by (subst elementHeight; destruct (_ || _); auto).
  set (width := elementWidth * devicePixelRatio + getCanvasPadding element * 2).
  set (height := elementHeight * devicePixelRatio + getCanvasPadding element * 2).
  assert (Hwp : 0 < width) by (subst width; nra).
  assert (Hhp : 0 < height) by (subst height; nra).
  destruct (cappedScale_limits width height (zoom_value zoom) Hwp Hhp Hz)
    as (Hs & Hsw & Hsh & Hsa & _).
  set (scale := cappedScale width height (zoom_value zoom)) in *.
  intros [= <-]. simpl.
  pose proof (Math_floor_bounds (width * scale)) as Hfw.
  pose proof (Math_floor_bounds (height * scale)) as Hfh.
  assert (0 <= width * scale) by nra. assert (0 <= height * scale) by nra.
  specialize (Hfw ltac:(assumption)). specialize (Hfh ltac:(assumption)).
  repeat split; try lra. nra.
Qed.

End CanvasSize.

(** X18, witness: a rectangle of 10 x 10 at zoom 1 and device pixel ratio
    1. *)
Lemma cappedElementCanvasSize_limits_witness :
  let distance (a b : number) := Rabs (a - b) in
  0 < zoom_value (mkZoom 1)
  /\ 0 <= 1
  /\ (forall a b, 0 <= distance a b)
  /\ 0 <= Element.width Scenes.rectangleA
  /\ 0 <= Element.height Scenes.rectangleA
  /\ 0 < getCanvasPadding Scenes.rectangleA
  /\ exists size,
       cappedElementCanvasSize (B := Scenes.bounds) distance 1 Scenes.rectangleA ∅ (mkZoom 1)
       = Some size
       /\ 0 <= canvas_width size <= 32767
       /\ 0 <= canvas_height size <= 32767
       /\ canvas_width size * canvas_height size <= 16777216
       /\ 0 < canvas_scale size <= 1.
Proof.
  intros distance.
  assert (Hz : 0 < zoom_value (mkZoom 1)) by (simpl; lra).
  assert (Hd : 0 <= 1) by lra.
  assert (Hdist : forall a b, 0 <= distance a b) by (intros a b; apply Rabs_pos).
  assert (Hw : 0 <= Element.width Scenes.rectangleA) by (simpl; lra).
  assert (Hh : 0 <= Element.height Scenes.rectangleA) by (simpl; lra).
  assert (Hp : 0 < getCanvasPadding Scenes.rectangleA)
    by (change (getCanvasPadding Scenes.rectangleA) with 20; lra).
  repeat (split; [assumption|]).
  eexists. split; [reflexivity|].
  apply (cappedElementCanvasSize_limits (B := Scenes.bounds) distance 1 Scenes.rectangleA ∅
           (mkZoom 1) _ Hz Hd Hdist Hw Hh Hp eq_refl).
Defined.

End RenderProperties.

(** * Further properties of the actions *)

Section GroupProperties.
Import ActionGroupTsx.

Lemma foldl_andb_false {A} (p : A -> bool) (l : list A) :
  foldl (fun acc x => acc && p x) false l = false.
Proof. induction l as [|a l IH]; [reflexivity | exact IH]. Qed.

Lemma foldl_andb_forallb {A} (p : A -> bool) (l : list A) :
  foldl (fun acc x => acc && p x) true l = forallb p l.
Proof.
  induction l as [|a l IH]; [reflexivity|]. simpl.
  destruct (p a); [exact IH | apply foldl_andb_false].
Qed.

Lemma allElementsInSameGroup_common (elements : list ExcalidrawElement) :
  allElementsInSameGroup elements = true
  <-> (2 <= length elements)%nat
      /\ exists groupId,
           forall element, element ∈ elements -> groupId ∈ Element.groupIds element.
Proof.
  unfold allElementsInSameGroup.
  destruct (bool_decide_reflect (2 <= length elements)%nat) as [Hlen|Hlen];
    [|split; [discriminate | intros [? _]; contradiction]].
  destruct elements as [|first rest]; [simpl in Hlen; lia|].
  rewrite existsb_exists. split.
  - intros (groupId & _ & Hall). split; [exact Hlen|]. exists groupId.
    rewrite foldl_andb_forallb, forallb_forall in Hall.
    intros element He. apply list_elem_of_In, Hall in He.
    unfold isElementInGroup in He. apply bool_decide_eq_true in He. exact He.
  - intros (_ & groupId & Hall). exists groupId. split.
    + apply list_elem_of_In, Hall, list_elem_of_here.
    + rewrite foldl_andb_forallb, forallb_forall. intros element He.
      unfold isElementInGroup. apply bool_decide_eq_true, Hall, list_elem_of_In, He.
Qed.

Section WithCollaborators.
Context `{C : Collaborators}.

(** X19.  [allElementsInSameGroup] holds exactly of a list of two or more
    elements that share a group: looking through the group ids of the first
    element is enough.  [enableActionGroup] offers the action exactly when
    two or more elements are selected and no group holds them all. *)
Theorem allElementsInSameGroup_iff (elements scene : list ExcalidrawElement)
    (appState : AppState) :
  (allElementsInSameGroup elements = true
   <-> (2 <= length elements)%nat
       /\ exists groupId,
            forall element, element ∈ elements -> groupId ∈ Element.groupIds element)
  /\ (let selectedElements :=
        getSelectedElements (AppState.selectedElementIds appState) true in
      enableActionGroup scene appState = true
      <-> (2 <= length selectedElements)%nat
          /\ ~ exists groupId,
                forall element, element ∈ selectedElements ->
                                groupId ∈ Element.groupIds element).
Proof.
  split; [apply allElementsInSameGroup_common|]. cbv zeta. unfold enableActionGroup.
  rewrite andb_true_iff, bool_decide_eq_true, negb_true_iff.
  pose proof (allElementsInSameGroup_common
                (getSelectedElements (AppState.selectedElementIds appState) true)) as H.
  destruct (allElementsInSameGroup _).
  - split; [intros [_ [=]]|]. intros [Hlen Hno]. exfalso. apply Hno.
    destruct H as [H _]. destruct (H eq_refl) as [_ Hex]. exact Hex.
  - split; [|tauto]. intros [Hlen _]. split; [exact Hlen|]. intros Hex.
    destruct H as [_ H]. discriminate H. auto.
Qed.

Lemma filter_partition_Permutation {A} (p : A -> bool) (l : list A) :
  Permutation (List.filter (fun x => negb (p x)) l ++ List.filter p l) l.
Proof.
  induction l as [|a l IH]; [reflexivity|]. simpl. destruct (p a); simpl.
  - rewrite <- Permutation_middle. apply perm_skip, IH.
  - apply perm_skip, IH.
Qed.

(** The list that [perform] hands to [syncMovedIndices]: the part of the
    scene before the last element of the group without the elements of the
    group, the group, and the part of the scene after that element. *)
Lemma moveGroup_split (nextElements : list ExcalidrawElement) newGroupId :
  NoDup (Element.obj <$> nextElements) ->
  let group := getElementsInGroup nextElements newGroupId in
  group <> [] ->
  exists before lastElementInGroup after,
    nextElements = before ++ lastElementInGroup :: after
    /\ isElementInGroup lastElementInGroup newGroupId = true
    /\ getElementsInGroup after newGroupId = []
    /\ moveGroup nextElements group newGroupId
       = List.filter (fun e => negb (isElementInGroup e newGroupId)) before
         ++ group ++ after.
Proof.
  intros Hnd group Hne. unfold moveGroup.
  destruct (last group) as [L|] eqn:Hlast; [|apply last_None in Hlast; contradiction].
  destruct (filter_last_split _ _ _ Hlast) as (l1 & l2 & Hsplit & HL & Hl2).
  exists l1, L, l2. split; [exact Hsplit|]. split; [exact HL|]. split; [exact Hl2|].
  assert (Hpos : nextElements !! length l1 = Some L).
  { rewrite Hsplit. apply list_lookup_middle. reflexivity. }
  rewrite (lastIndexOf_NoDup _ _ _ Hnd Hpos).
  clearbody group. rewrite Hsplit.
  rewrite take_app_length.
  replace (length l1 + 1)%nat with (length (l1 ++ [L])) by (rewrite length_app; reflexivity).
  replace (l1 ++ L :: l2) with ((l1 ++ [L]) ++ l2) by (rewrite <- app_assoc; reflexivity).
  rewrite drop_app_length. reflexivity.
Qed.

(** X20.  [actionGroup] keeps the scene and its order: the list that it
    hands to [syncMovedIndices] is a permutation of the scene with the new
    group ids; the elements of the new group stand together in it, in their
    order in the scene, at the place of the last of them; the elements
    outside the group keep their order, and those after the group keep their
    place.  (At least two elements are selected, they are not one group
    already, the scene holds distinct objects and the new group is not
    empty.) *)
Theorem actionGroup_order newGroupId elements appState :
  let selectedElements := getSelectedElements (AppState.selectedElementIds appState) true in
  let nextElements :=
    regroup (unframe selectedElements elements) selectedElements newGroupId appState in
  let group := getElementsInGroup nextElements newGroupId in
  let outside (l : list ExcalidrawElement) :=
    List.filter (fun e => negb (isElementInGroup e newGroupId)) l in
  (2 <= length selectedElements)%nat ->
  alreadyGrouped elements selectedElements appState = false ->
  NoDup (Element.obj <$> nextElements) ->
  group <> [] ->
  exists before lastElementInGroup after,
    nextElements = before ++ lastElementInGroup :: after
    /\ last group = Some lastElementInGroup
    /\ getElementsInGroup after newGroupId = []
    /\ res_elements (actionGroup newGroupId elements appState)
       = syncMovedIndices (outside before ++ group ++ after) group
    /\ res_storeAction (actionGroup newGroupId elements appState) = CAPTURE
    /\ Permutation (outside before ++ group ++ after) nextElements
    /\ getElementsInGroup (outside before ++ group ++ after) newGroupId = group
    /\ outside (outside before ++ group ++ after) = outside nextElements.
Proof.
  intros selectedElements nextElements group outside Hlen Hnot Hnd Hne.
  destruct (moveGroup_split nextElements newGroupId Hnd Hne)
    as (before & L & after & Hsplit & HL & Hafter & Hmove).
  fold group in Hmove. fold (outside before) in Hmove.
  assert (Hgroup : group = getElementsInGroup before newGroupId ++ [L]).
  { subst group. rewrite Hsplit. unfold getElementsInGroup in *.
    rewrite List.filter_app. simpl. rewrite HL, Hafter. reflexivity. }
  exists before, L, after. split; [exact Hsplit|].
  split; [rewrite Hgroup; apply last_snoc|]. split; [exact Hafter|].
  assert (Hres : actionGroup newGroupId elements appState
                 = let '(ids, groups, editing) :=
                     selectGroup newGroupId
                       (AppState.with_selection (AppState.selectedElementIds appState)
                          (∅ : gmap string bool) (AppState.editingGroupId appState) appState)
                       (getNonDeletedElements nextElements) in
                   mkActionResult (AppState.with_selection ids groups editing appState)
                     (syncMovedIndices (moveGroup nextElements group newGroupId) group)
                     CAPTURE).
  { unfold actionGroup. fold selectedElements. rewrite bool_decide_eq_false_2 by lia.
    rewrite Hnot. reflexivity. }
  rewrite Hres, Hmove. destruct (selectGroup _ _ _) as [[ids groups] editing].
  split; [reflexivity|]. split; [reflexivity|].
  assert (Hout_after : outside after = after).
  { clear -Hafter. subst outside. unfold getElementsInGroup in Hafter.
    induction after as [|a l IH]; [reflexivity|]. simpl in *.
    destruct (isElementInGroup a newGroupId); [discriminate|]. simpl. f_equal. auto. }
  split; [|split].
  - rewrite Hgroup, Hsplit, <- !app_assoc, (app_assoc (outside before)).
    apply Permutation_app_tail with (tl := [L] ++ after).
    apply (filter_partition_Permutation (fun e => isElementInGroup e newGroupId)).
  - unfold getElementsInGroup at 1. rewrite !List.filter_app.
    subst outside. cbv beta.
    rewrite (filter_filter_negb (fun e => isElementInGroup e newGroupId)).
    fold (getElementsInGroup group newGroupId). fold (getElementsInGroup after newGroupId).
    rewrite Hafter, app_nil_r. simpl. subst group. unfold getElementsInGroup.
    apply filter_idem.
  - assert (Hnone : List.filter (fun e => negb (isElementInGroup e newGroupId)) group = []).
    { subst group. unfold getElementsInGroup. clear.
      induction nextElements as [|a l IH]; [reflexivity|]. simpl.
      destruct (isElementInGroup a newGroupId) eqn:Ha; simpl; [rewrite Ha; simpl|]; exact IH. }
    subst outside. cbv beta in *. rewrite !List.filter_app, Hnone, Hout_after.
    rewrite (filter_idem (fun e => negb (isElementInGroup e newGroupId))).
    rewrite Hsplit, List.filter_app. simpl. rewrite HL. simpl. rewrite Hout_after.
    reflexivity.
Qed.

End WithCollaborators.

(** X20, witness: of the scene [a; b; c] the elements [a] and [c] are
    selected. *)
Lemma actionGroup_order_witness :
  let scene := [Scenes.rectangleA; Scenes.rectangleB; Scenes.ellipseC] in
  let appState := Scenes.selecting ["a"; "c"]%string in
  let selectedElements :=
    getSelectedElements (Collaborators := Scenes.actions scene)
      (AppState.selectedElementIds appState) true in
  let nextElements :=
    regroup (C := Scenes.actions scene)
      (unframe (C := Scenes.actions scene) selectedElements scene)
      selectedElements "group" appState in
  let group := getElementsInGroup nextElements "group" in
  let outside (l : list ExcalidrawElement) :=
    List.filter (fun e => negb (isElementInGroup e "group")) l in
  (2 <= length selectedElements)%nat
  /\ alreadyGrouped (C := Scenes.actions scene) scene selectedElements appState = false
  /\ NoDup (Element.obj <$> nextElements)
  /\ group <> []
  /\ exists before lastElementInGroup after,
       nextElements = before ++ lastElementInGroup :: after
       /\ last group = Some lastElementInGroup
       /\ getElementsInGroup after "group" = []
       /\ res_elements (actionGroup (C := Scenes.actions scene) "group" scene appState)
          = syncMovedIndices (Collaborators := Scenes.actions scene)
              (outside before ++ group ++ after) group
       /\ res_storeAction (actionGroup (C := Scenes.actions scene) "group" scene appState)
          = CAPTURE
       /\ Permutation (outside before ++ group ++ after) nextElements
       /\ getElementsInGroup (outside before ++ group ++ after) "group" = group
       /\ outside (outside before ++ group ++ after) = outside nextElements.
Proof.
  intros scene appState selectedElements nextElements group outside.
  assert (Hlen : (2 <= length selectedElements)%nat) by (change (2 <= 2)%nat; lia).
  assert (Hnot : alreadyGrouped (C := Scenes.actions scene) scene selectedElements appState
                 = false) by reflexivity.
  assert (Hnd : NoDup (Element.obj <$> nextElements)).
  { change (NoDup [101%positive; 2%positive; 103%positive]).
    apply NoDup_three; discriminate. }
  assert (Hne : group <> []).
  { change (getElementsInGroup nextElements "group" <> []).
    intros Hnil. apply (f_equal length) in Hnil. revert Hnil.
    change (2%nat = 0%nat -> False). discriminate. }
  split; [exact Hlen|]. split; [exact Hnot|]. split; [exact Hnd|]. split; [exact Hne|].
  apply (actionGroup_order (C := Scenes.actions scene) "group" scene appState
           Hlen Hnot Hnd Hne).
Defined.

(** ** Cropping twice *)

Lemma orElse_idem value fallback : orElse (orElse value fallback) fallback = orElse value fallback.
Proof.
  unfold orElse, truthy_num.
  destruct (bool_decide_reflect (value <> 0)) as [Hv|Hv].
  - rewrite bool_decide_eq_true_2 by assumption. reflexivity.
  - destruct (bool_decide_reflect (fallback <> 0)); reflexivity.
Qed.

Lemma nextCropProperties_idem element (cropped : ExcalidrawElement) previous :
  Element.width cropped = Element.width element ->
  Element.height cropped = Element.height element ->
  nextCropProperties cropped (nextCropProperties element previous)
  = nextCropProperties element previous.
Proof.
  intros Hw Hh. unfold nextCropProperties. rewrite Hw, Hh. simpl.
  rewrite !orElse_idem. reflexivity.
Qed.

Lemma getElementIndex_lt elements elementId i :
  getElementIndex elements elementId = Some i -> (i < length elements)%nat.
Proof.
  revert i. induction elements as [|a l IH]; intros i; simpl; [discriminate|].
  destruct (bool_decide (Element.id a = elementId)); [intros [= <-]; lia|].
  destruct (getElementIndex l elementId) as [j|]; [|discriminate].
  intros [= <-]. specialize (IH j eq_refl). lia.
Qed.

Lemma getElementIndex_setAt elements elementId (v : ExcalidrawElement) :
  Element.id v = elementId ->
  getElementIndex (setAt elements (getElementIndex elements elementId) v) elementId
  = getElementIndex elements elementId.
Proof.
  intros Hv. induction elements as [|a l IH]; [reflexivity|]. simpl.
  destruct (bool_decide_reflect (Element.id a = elementId)) as [Ha|Ha].
  - simpl. rewrite bool_decide_eq_true_2 by assumption. reflexivity.
  - destruct (getElementIndex l elementId) as [j|] eqn:Hj; simpl in *.
    + rewrite bool_decide_eq_false_2 by assumption. rewrite IH. reflexivity.
    + rewrite bool_decide_eq_false_2 by assumption. rewrite Hj. reflexivity.
Qed.

Lemma setAt_setAt elements i (v : ExcalidrawElement) :
  setAt (setAt elements i v) i v = setAt elements i v.
Proof. destruct i as [i|]; [apply list_insert_insert_eq | reflexivity]. Qed.

(** X21.  Cropping an image twice is cropping it once: when the scene
    answers the second call of [actionCropImage] with the image as the first
    call left it, the second call returns the elements and the application
    state that the first call returned. *)
Theorem actionCropImage_twice (first second : Collaborators) elements appState
    selectedElement others others' previous :
  getSelectedElements (Collaborators := first) (AppState.selectedElementIds appState) false
    = selectedElement :: others ->
  Element.type selectedElement = "image"%string ->
  Element.cropProperties selectedElement = Some previous ->
  let cropped :=
    Element.assign_crop true true true (nextCropProperties selectedElement previous)
                        selectedElement in
  getSelectedElements (Collaborators := second) (AppState.selectedElementIds appState) false
    = cropped :: others' ->
  exists result,
    actionCropImage (C := first) elements appState = Ok result
    /\ res_storeAction result = CAPTURE
    /\ actionCropImage (C := second) (res_elements result) (res_appState result) = Ok result.
Proof.
  intros Hsel Hty Hcrop cropped Hsel'.
  rewrite (actionCropImage_image (C := first) elements appState selectedElement others
             previous Hsel Hty Hcrop).
  eexists. split; [reflexivity|]. split; [reflexivity|]. simpl res_elements. simpl res_appState.
  fold cropped.
  rewrite (actionCropImage_image (C := second) _ _ cropped others'
             (nextCropProperties selectedElement previous)); [|exact Hsel'|exact Hty|reflexivity].
  change (Element.id cropped) with (Element.id selectedElement).
  rewrite nextCropProperties_idem by reflexivity.
  replace (Element.assign_crop true true true (nextCropProperties selectedElement previous)
             cropped) with cropped by reflexivity.
  rewrite getElementIndex_setAt by reflexivity. rewrite setAt_setAt.
  reflexivity.
Qed.

(** X21, witness: an image of 100 x 100 without crop coordinates, cropped
    twice. *)
Lemma actionCropImage_twice_witness :
  let appState := Scenes.selecting ["img"%string] in
  let cropped :=
    Element.assign_crop true true true
      (nextCropProperties Scenes.imageUncropped (mkCrop 0 0 0 0)) Scenes.imageUncropped in
  let first := Scenes.actions [Scenes.imageUncropped] in
  let second := Scenes.actions [cropped] in
  getSelectedElements (Collaborators := first) (AppState.selectedElementIds appState) false
    = [Scenes.imageUncropped]
  /\ Element.type Scenes.imageUncropped = "image"%string
  /\ Element.cropProperties Scenes.imageUncropped = Some (mkCrop 0 0 0 0)
  /\ getSelectedElements (Collaborators := second) (AppState.selectedElementIds appState) false
     = [cropped]
  /\ exists result,
       actionCropImage (C := first) [Scenes.imageUncropped] appState = Ok result
       /\ res_storeAction result = CAPTURE
       /\ actionCropImage (C := second) (res_elements result) (res_appState result)
          = Ok result.
Proof.
  intros appState cropped first second.
  assert (H1 : getSelectedElements (Collaborators := first)
                 (AppState.selectedElementIds appState) false = [Scenes.imageUncropped])
    by reflexivity.
  assert (H2 : Element.type Scenes.imageUncropped = "image"%string) by reflexivity.
  assert (H3 : Element.cropProperties Scenes.imageUncropped = Some (mkCrop 0 0 0 0))
    by reflexivity.
  assert (H4 : getSelectedElements (Collaborators := second)
                 (AppState.selectedElementIds appState) false = [cropped])
    by reflexivity.
  repeat (split; [assumption|]).
  apply (actionCropImage_twice first second [Scenes.imageUncropped] appState
           Scenes.imageUncropped [] [] (mkCrop 0 0 0 0) H1 H2 H3 H4).
Defined.

End GroupProperties.
